(** * kalamine: the grid codec and the dead-key resolver of [layout.py]

    A shallow embedding of [kalamine/layout.py]: the uppercase-inference
    helper [upper_key], the grid parser [_parse_template], the grid filler
    [_fill_template] and the constructor [KeyboardLayout.__init__] with its
    dead-key pruning and one-dead-key (1dk) synthesis.

    Python values are modelled as the code has them:
    - a [str] is a list of Unicode code points, so that [len], indexing and
      [+] are the list operations;
    - a [dict] is an association list in insertion order (Python iterates
      dicts in that order, and the 1dk synthesis depends on it);
    - the dead-key catalog entries are objects in a heap, reached through
      references, so that [dk.copy()] and the later assignments to the
      copies are visible as such;
    - a raised exception is a [Raise] result. *)

From Stdlib Require Import ZArith Lia String Ascii.
From stdpp Require Import base tactics option numbers list.

Open Scope list_scope.

(** ** Python strings *)

Definition char := N.
Abbreviation str := (list char).

(** [py "abc"] is the Python literal ["abc"] (ASCII only; other characters
    are written as code points, as the source writes them with [\u]
    escapes). *)
Definition py (s : string) : str := N_of_ascii <$> list_ascii_of_string s.

Definition str_eqb (a b : str) : bool := bool_decide (a = b).

(** [str.upper] and [str.lower] are Python builtins driven by the Unicode
    character database; the development is parametric in them. *)
Class CaseMap := {
  str_upper : str → str;
  str_lower : str → str
}.

(** ** Exceptions and results *)

Inductive exn :=
  | IndexError
  | KeyError (k : str)
  | TypeError
  | AttributeError
  (* named by the specification; no statement of layout.py raises it *)
  | ConfigurationError.

Inductive result (A : Type) :=
  | Ok (a : A)
  | Raise (e : exn).
Arguments Ok {A} a.
Arguments Raise {A} e.

#[global] Instance exn_eq_dec : EqDecision exn.
Proof. solve_decision. Defined.

#[global] Instance result_ret : MRet result := λ A a, Ok a.
#[global] Instance result_bind : MBind result := λ A B f r,
  match r with Ok a => f a | Raise e => Raise e end.

(** ** Sequences: [s[i]] and [s[i] = x] with Python's negative indices *)

Definition norm_index (n : nat) (i : Z) : option nat :=
  let k := if (i <? 0)%Z then (i + Z.of_nat n)%Z else i in
  if (0 <=? k)%Z && (k <? Z.of_nat n)%Z then Some (Z.to_nat k) else None.

Definition py_index {A} (l : list A) (i : Z) : result A :=
  match norm_index (length l) i with
  | Some k => match l !! k with Some x => Ok x | None => Raise IndexError end
  | None => Raise IndexError
  end.

Definition py_setitem {A} (l : list A) (i : Z) (x : A) : result (list A) :=
  match norm_index (length l) i with
  | Some k => Ok (<[k := x]> l)
  | None => Raise IndexError
  end.

(** [s[-1]] *)
Definition py_last (s : str) : result char := py_index s (-1).

(** [s[0:n]] for a non-negative [n] *)
Definition py_prefix (n : nat) (s : str) : str := take n s.

(** ** Dictionaries, in insertion order *)

Abbreviation dict V := (list (str * V)).

Section dict.
Context {V : Type}.
Implicit Types d e : dict V.

Fixpoint dict_get (d : dict V) (k : str) : option V :=
  match d with
  | [] => None
  | (k', v) :: d' => if decide (k' = k) then Some v else dict_get d' k
  end.

(** [d[k] = v]: an existing key keeps its position. *)
Fixpoint dict_set (d : dict V) (k : str) (v : V) : dict V :=
  match d with
  | [] => [(k, v)]
  | (k', v') :: d' =>
      if decide (k' = k) then (k, v) :: d' else (k', v') :: dict_set d' k v
  end.

(** [k in d] *)
Definition dict_in (k : str) (d : dict V) : bool :=
  match dict_get d k with Some _ => true | None => false end.

(** [d[k]], raising [KeyError] *)
Definition dict_item (d : dict V) (k : str) : result V :=
  match dict_get d k with Some v => Ok v | None => Raise (KeyError k) end.

Definition dict_keys (d : dict V) : list str := fst <$> d.
Definition dict_values (d : dict V) : list V := snd <$> d.
End dict.

(** ** Helpers *)

Definition custom_alpha : dict str :=
  [ ([0xdf%N],   [0x1e9e%N]);   (* ß ẞ *)
    ([0x7c%N],   [0xa6%N]);     (* | ¦ *)
    ([0x3c%N],   [0x2264%N]);   (* < ≤ *)
    ([0x3e%N],   [0x2265%N]);   (* > ≥ *)
    ([0x2020%N], [0x2021%N]);   (* † ‡ *)
    ([0x2190%N], [0x21d0%N]);   (* ← ⇐ *)
    ([0x2191%N], [0x21d1%N]);   (* ↑ ⇑ *)
    ([0x2192%N], [0x21d2%N]);   (* → ⇒ *)
    ([0x2193%N], [0x21d3%N]);   (* ↓ ⇓ *)
    ([0xb5%N],   py " ") ].     (* µ (to avoid getting Μ as uppercase) *)

Definition upper_key `{CaseMap} (letter : str) : str :=
  if negb (length letter =? 1) then py " "   (* dead key? *)
  else match dict_get custom_alpha letter with
       | Some v => v
       | None =>
           if negb (str_eqb (str_upper letter) (str_lower letter))
           then str_upper letter
           else py " "
       end.

(** ** Constants *)

Definition space : char := 32%N.
Definition star : char := 42%N.

(** Modelled from the spec: [utils.Layer], the six planes indexed
    consecutively so that BASE/SHIFT, ODK/ODK_SHIFT and ALTGR/ALTGR_SHIFT are
    adjacent pairs ([layout.py] itself writes [0] for BASE). *)
Module Layer.
Definition BASE : nat := 0.
Definition SHIFT : nat := 1.
Definition ODK : nat := 2.
Definition ODK_SHIFT : nat := 3.
Definition ALTGR : nat := 4.
Definition ALTGR_SHIFT : nat := 5.
End Layer.

(** A descriptor value: a scalar (rendered as a string) or a mapping. *)
Inductive value :=
  | VStr (s : str)
  | VMap (d : dict str).

Definition CONFIG : dict value :=
  [ (py "author", VStr (py "nobody"));
    (py "license",
     VStr (py "WTFPL - Do What The Fuck You Want Public License"));
    (py "geometry", VStr (py "ISO")) ].

Definition SPACEBAR : dict str :=
  [ (py "shift", py " ");
    (py "altgr", py " ");
    (py "altgr_shift", py " ");
    (py "1dk", py "'");
    (py "1dk_shift", py "'") ].

(** One entry of [GEOMETRY[shape]["rows"]]. *)
Record row := { offset : Z; keys : list str }.

(** One shape of the geometry table. *)
Record geometry := { template : str; rows : list row }.

(** ** Dead keys as heap objects *)

(** Modelled from the spec: one entry of the dead-key catalog
    ([utils.DEAD_KEYS], loaded from a data file that is not part of
    [layout.py]): a trigger, two parallel character sequences and the
    optional double-press and press-then-space results. *)
Record dead_key := {
  dk_char : str;
  dk_name : str;
  dk_base : str;
  dk_alt : str;
  dk_alt_space : option str;
  dk_alt_self : option str
}.

Definition set_base (v : str) (d : dead_key) : dead_key :=
  {| dk_char := dk_char d; dk_name := dk_name d; dk_base := v;
     dk_alt := dk_alt d; dk_alt_space := dk_alt_space d;
     dk_alt_self := dk_alt_self d |}.
Definition set_alt (v : str) (d : dead_key) : dead_key :=
  {| dk_char := dk_char d; dk_name := dk_name d; dk_base := dk_base d;
     dk_alt := v; dk_alt_space := dk_alt_space d;
     dk_alt_self := dk_alt_self d |}.
Definition set_alt_space (v : str) (d : dead_key) : dead_key :=
  {| dk_char := dk_char d; dk_name := dk_name d; dk_base := dk_base d;
     dk_alt := dk_alt d; dk_alt_space := Some v;
     dk_alt_self := dk_alt_self d |}.
Definition set_alt_self (v : str) (d : dead_key) : dead_key :=
  {| dk_char := dk_char d; dk_name := dk_name d; dk_base := dk_base d;
     dk_alt := dk_alt d; dk_alt_space := dk_alt_space d;
     dk_alt_self := Some v |}.

Abbreviation loc := nat.
Abbreviation heap := (list dead_key).

Definition dk_blank : dead_key :=
  {| dk_char := []; dk_name := []; dk_base := []; dk_alt := [];
     dk_alt_space := None; dk_alt_self := None |}.

(** The object a reference points to.  References handed out by [copy] and
    those of the catalog are always allocated. *)
Definition deref (h : heap) (l : loc) : dead_key := default dk_blank (h !! l).

(** Computations that read and write the heap and may raise.  The heap
    survives an exception: the catalog is a module-level object. *)
Definition M (A : Type) : Type := heap → result A * heap.

#[global] Instance M_ret : MRet M := λ A a h, (Ok a, h).
#[global] Instance M_bind : MBind M := λ A B f m h,
  match m h with
  | (Ok a, h') => f a h'
  | (Raise e, h') => (Raise e, h')
  end.

Definition lift {A} (r : result A) : M A := λ h, (r, h).

(** [dk[field]] *)
Definition load (l : loc) : M dead_key := λ h, (Ok (deref h l), h).

(** [dk[field] = v] *)
Definition store (l : loc) (f : dead_key → dead_key) : M unit :=
  λ h, (Ok tt, alter f l h).

(** [dk.copy()]: a new object with the same fields. *)
Definition copy (l : loc) : M loc :=
  λ h, (Ok (length h), h ++ [deref h l]).

(** [for x in l: s = body(s, x)] *)
Fixpoint for_each {A S : Type} (body : S → A → M S) (l : list A) (s : S)
  : M S :=
  match l with
  | [] => mret s
  | x :: l' => s' ← body s x; for_each body l' s'
  end.

Fixpoint for_each_r {A S : Type} (body : S → A → result S) (l : list A)
  (s : S) : result S :=
  match l with
  | [] => mret s
  | x :: l' => s' ← body s x; for_each_r body l' s'
  end.

(** ** The layout object *)

Record KeyboardLayout := {
  layers : list (dict str);
  dead_keys : dict loc;        (* dictionary subset of DEAD_KEYS *)
  dk_index : list str;         (* ordered keys of the above dictionary *)
  meta : dict value;
  has_altgr : bool;
  has_1dk : bool
}.

Definition with_layers (ls : list (dict str)) (self : KeyboardLayout) :=
  {| layers := ls; dead_keys := dead_keys self; dk_index := dk_index self;
     meta := meta self; has_altgr := has_altgr self;
     has_1dk := has_1dk self |}.
Definition with_dead_keys (d : dict loc) (self : KeyboardLayout) :=
  {| layers := layers self; dead_keys := d; dk_index := dk_index self;
     meta := meta self; has_altgr := has_altgr self;
     has_1dk := has_1dk self |}.
Definition with_dk_index (ix : list str) (self : KeyboardLayout) :=
  {| layers := layers self; dead_keys := dead_keys self; dk_index := ix;
     meta := meta self; has_altgr := has_altgr self;
     has_1dk := has_1dk self |}.
Definition with_meta (m : dict value) (self : KeyboardLayout) :=
  {| layers := layers self; dead_keys := dead_keys self;
     dk_index := dk_index self; meta := m; has_altgr := has_altgr self;
     has_1dk := has_1dk self |}.
Definition with_has_altgr (b : bool) (self : KeyboardLayout) :=
  {| layers := layers self; dead_keys := dead_keys self;
     dk_index := dk_index self; meta := meta self; has_altgr := b;
     has_1dk := has_1dk self |}.
Definition with_has_1dk (b : bool) (self : KeyboardLayout) :=
  {| layers := layers self; dead_keys := dead_keys self;
     dk_index := dk_index self; meta := meta self;
     has_altgr := has_altgr self; has_1dk := b |}.

(** [self.layers[n]] *)
Definition get_layer (self : KeyboardLayout) (n : nat) : result (dict str) :=
  match layers self !! n with
  | Some d => Ok d
  | None => Raise IndexError
  end.

(** [self.layers[n][key] = v] *)
Definition set_layer_item (self : KeyboardLayout) (n : nat) (key v : str)
  : result KeyboardLayout :=
  d ← get_layer self n;
  mret (with_layers (<[n := dict_set d key v]> (layers self)) self).

(** ** Main *)

Section layout.
Context `{CaseMap}.

(** The module-level data that [layout.py] imports: the dead-key catalog
    (references to its entries, in catalog order), the reserved trigger of
    the one-dead-key, the geometry table and [utils.text_to_lines]. *)
Variable DEAD_KEYS : list loc.
Variable ODK_ID : str.
Variable GEOMETRY : dict geometry.
Variable text_to_lines : str → list str.
(** [datetime.date.today().isoformat()] *)
Variable today : str.

(** *** [_parse_template] *)

(** [("*" if line[i - 1] == "*" else "") + line[i]] *)
Definition read_cell (line : str) (i : Z) : result str :=
  m ← py_index line (i - 1);
  g ← py_index line i;
  mret ((if decide (m = star) then [star] else []) ++ [g]).

(** The two presentation rules applied to the cells as read. *)
Definition expand_base (layer_number : nat) (base_key shift_key : str) : str :=
  if (layer_number =? Layer.BASE) && str_eqb base_key (py " ")
  then str_lower shift_key   (* 'shift' prevails *)
  else base_key.

Definition expand_shift (layer_number : nat) (base_key shift_key : str) : str :=
  if negb (layer_number =? Layer.BASE) && str_eqb shift_key (py " ")
  then upper_key base_key
  else shift_key.

(** [self.dead_keys[key] = dk.copy()] *)
Definition register_copy (key : str) (dk : loc) (self : KeyboardLayout)
  : M KeyboardLayout :=
  l ← copy dk;
  mret (with_dead_keys (dict_set (dead_keys self) key l) self).

(** The body of [for dk in DEAD_KEYS] *)
Definition register_dead_key (base_key shift_key : str)
  (self : KeyboardLayout) (dk : loc) : M KeyboardLayout :=
  d ← load dk;
  self ← (if str_eqb base_key (dk_char d)
          then register_copy base_key dk self else mret self);
  d ← load dk;
  if str_eqb shift_key (dk_char d)
  then register_copy shift_key dk self else mret self.

(** The body of [for key in keys], without the final [i += 6] *)
Definition parse_key (layer_number : nat) (base shift : str)
  (self : KeyboardLayout) (i : Z) (key : str) : M KeyboardLayout :=
  base_key ← lift (read_cell base i);
  shift_key ← lift (read_cell shift i);
  let base_key' := expand_base layer_number base_key shift_key in
  let shift_key' := expand_shift layer_number base_key' shift_key in
  self ← lift (if negb (str_eqb base_key' (py " "))
               then set_layer_item self (layer_number + 0) key base_key'
               else Ok self);
  self ← lift (if negb (str_eqb shift_key' (py " "))
               then set_layer_item self (layer_number + 1) key shift_key'
               else Ok self);
  for_each (register_dead_key base_key' shift_key') DEAD_KEYS self.

Definition col_offset (layer_number : nat) : Z :=
  if layer_number =? Layer.BASE then 0%Z else 2%Z.   (* AltGr or 1dk *)

(** The body of [for row in rows], without the final [j += 1] *)
Definition parse_row (template : list str) (layer_number : nat)
  (self : KeyboardLayout) (j : Z) (r : row) : M KeyboardLayout :=
  let i := (offset r + col_offset layer_number)%Z in
  base ← lift (py_index template (2 + j * 3));
  shift ← lift (py_index template (1 + j * 3));
  si ← for_each (λ '(self, i) key,
                   self ← parse_key layer_number base shift self i key;
                   mret (self, (i + 6)%Z))
                (keys r) (self, i);
  mret si.1.

(** Extract a keyboard layer from a template. *)
Definition _parse_template (self : KeyboardLayout) (template : list str)
  (rows : list row) (layer_number : nat) : M KeyboardLayout :=
  sj ← for_each (λ '(self, j) r,
                   self ← parse_row template layer_number self j r;
                   mret (self, (j + 1)%Z))
                rows (self, 0%Z);
  mret sj.1.

(** *** [_fill_template] *)

(** [len(key) == 2 and key[0] == "*"] *)
Definition is_dead (key : str) : bool :=
  match key with
  | [c; _] => bool_decide (c = star)
  | _ => false
  end.

(** [line[i] = key[-1]], then [line[i - 1] = "*"] for a dead key *)
Definition write_cell (line : str) (i : Z) (key : str) : result str :=
  c ← py_last key;
  line ← py_setitem line i c;
  if is_dead key then py_setitem line (i - 1) star else mret line.

(** [self.layers[n][key]] if present, else [" "] *)
Definition layer_cell (self : KeyboardLayout) (n : nat) (key : str)
  : result str :=
  d ← get_layer self n;
  mret (default (py " ") (dict_get d key)).

(** The body of [for key in keys], without the final [i += 6] *)
Definition fill_key (self : KeyboardLayout) (layer_number : nat)
  (base shift : str) (i : Z) (key : str) : result (str * str) :=
  let shift_prevails := layer_number =? Layer.BASE in
  base_key ← layer_cell self layer_number key;
  shift_key ← layer_cell self (layer_number + 1) key;
  if shift_prevails then
    shift ← write_cell shift i shift_key;
    base ← (if negb (str_eqb (upper_key base_key) shift_key)
            then write_cell base i base_key else mret base);
    mret (base, shift)
  else
    base ← write_cell base i base_key;
    shift ← (if negb (str_eqb (upper_key base_key) shift_key)
             then write_cell shift i shift_key else mret shift);
    mret (base, shift).

(** The body of [for row in rows], without the final [j += 1] *)
Definition fill_row (self : KeyboardLayout) (layer_number : nat)
  (template : list str) (j : Z) (r : row) : result (list str) :=
  let i := (offset r + col_offset layer_number)%Z in
  base ← py_index template (2 + j * 3);
  shift ← py_index template (1 + j * 3);
  bsi ← for_each_r (λ '(base, shift, i) key,
                      bs ← fill_key self layer_number base shift i key;
                      mret (bs.1, bs.2, (i + 6)%Z))
                   (keys r) (base, shift, i);
  template ← py_setitem template (2 + j * 3) bsi.1.1;
  py_setitem template (1 + j * 3) bsi.1.2.

(** Fill a template with a keyboard layer. *)
Definition _fill_template (self : KeyboardLayout) (template : list str)
  (rows : list row) (layer_number : nat) : result (list str) :=
  tj ← for_each_r (λ '(template, j) r,
                     template ← fill_row self layer_number template j r;
                     mret (template, (j + 1)%Z))
                  rows (template, 0%Z);
  mret tj.1.

(** *** [__init__] *)

(** A blank layout. *)
Definition blank_layout : KeyboardLayout :=
  {| layers := [[]; []; []; []; []; []];
     dead_keys := [];
     dk_index := [];
     meta := CONFIG;   (* default parameters, hardcoded *)
     has_altgr := false;
     has_1dk := false |}.

Definition is_dict (v : value) : bool :=
  match v with VMap _ => true | VStr _ => false end.

(** A string method or a slice applied to a descriptor value *)
Definition slice8 (v : value) : result value :=
  match v with
  | VStr s => Ok (VStr (py_prefix 8 s))
  | VMap _ => Raise TypeError
  end.
Definition lower_value (v : value) : result value :=
  match v with
  | VStr s => Ok (VStr (str_lower s))
  | VMap _ => Raise AttributeError
  end.
Definition as_text (v : value) : result str :=
  match v with
  | VStr s => Ok s
  | VMap _ => Raise AttributeError
  end.

(** The body of [for k in cfg] *)
Definition meta_step (cfg : dict value) (m : dict value) (k : str)
  : dict value :=
  match dict_get cfg k with
  | Some v =>
      if negb (str_eqb k (py "base")) && negb (str_eqb k (py "full"))
         && negb (str_eqb k (py "altgr")) && negb (is_dict v)
      then dict_set m k v else m
  | None => m
  end.

(** metadata: [self.meta].  [filename] is the descriptor's file name
    without directory and extension. *)
Definition init_meta (filename : str) (cfg : dict value)
  (self : KeyboardLayout) : result KeyboardLayout :=
  let m := foldl (meta_step cfg) (meta self) (dict_keys cfg) in
  let name := default (VStr filename) (dict_get cfg (py "name")) in
  let m := dict_set m (py "name") name in
  name8 ← match dict_get cfg (py "name8") with
           | Some v => Ok v
           | None => n ← dict_item m (py "name"); slice8 n
           end;
  let m := dict_set m (py "name8") name8 in
  n8 ← dict_item m (py "name8");
  file_name ← lower_value n8;
  let m := dict_set m (py "fileName") file_name in
  let m := dict_set m (py "lastChange") (VStr today) in
  mret (with_meta m self).

(** [GEOMETRY[self.meta["geometry"]]["rows"]] *)
Definition geometry_rows (self : KeyboardLayout) : result (list row) :=
  shape ← dict_item (meta self) (py "geometry");
  match shape with
  | VStr shape => g ← dict_item GEOMETRY shape; mret (rows g)
  | VMap _ => Raise TypeError
  end.

(** keyboard layers: [self.layers] and [self.dead_keys] *)
Definition init_layers (cfg : dict value) (rows : list row)
  (self : KeyboardLayout) : M KeyboardLayout :=
  if dict_in (py "full") cfg then
    v ← lift (dict_item cfg (py "full"));
    t ← lift (as_text v);
    let full := text_to_lines t in
    self ← _parse_template self full rows Layer.BASE;
    self ← _parse_template self full rows Layer.ALTGR;
    mret (with_has_altgr true self)
  else
    v ← lift (dict_item cfg (py "base"));
    t ← lift (as_text v);
    let base := text_to_lines t in
    self ← _parse_template self base rows Layer.BASE;
    self ← _parse_template self base rows Layer.ODK;
    if dict_in (py "altgr") cfg then
      let self := with_has_altgr true self in
      v ← lift (dict_item cfg (py "altgr"));
      t ← lift (as_text v);
      _parse_template self (text_to_lines t) rows Layer.ALTGR
    else mret self.

(** The body of [for k in cfg["spacebar"]] *)
Definition spacebar_step (d spc : dict str) (k : str) : dict str :=
  match dict_get d k with
  | Some v => dict_set spc k v
  | None => spc
  end.

(** space bar: the table [spc] *)
Definition spacebar_table (cfg : dict value) : result (dict str) :=
  match dict_get cfg (py "spacebar") with
  | None => Ok SPACEBAR
  | Some (VMap d) => Ok (foldl (spacebar_step d) SPACEBAR (dict_keys d))
  | Some (VStr []) => Ok SPACEBAR
  | Some (VStr (_ :: _)) => Raise TypeError
  end.

Definition init_spacebar (spc : dict str) (self : KeyboardLayout)
  : result KeyboardLayout :=
  self ← set_layer_item self Layer.BASE (py "spce") (py " ");
  v ← dict_item spc (py "shift");
  self ← set_layer_item self Layer.SHIFT (py "spce") v;
  v ← dict_item spc (py "1dk");
  self ← set_layer_item self Layer.ODK (py "spce") v;
  v ← (if dict_in (py "shift_1dk") spc
       then dict_item spc (py "shift_1dk") else dict_item spc (py "1dk"));
  self ← set_layer_item self Layer.ODK_SHIFT (py "spce") v;
  if has_altgr self then
    v ← dict_item spc (py "altgr");
    self ← set_layer_item self Layer.ALTGR (py "spce") v;
    v ← dict_item spc (py "altgr_shift");
    set_layer_item self Layer.ALTGR_SHIFT (py "spce") v
  else mret self.

(** active dead keys: [self.dk_index] *)
Definition init_dk_index (self : KeyboardLayout) : M KeyboardLayout :=
  for_each (λ self dk,
              d ← load dk;
              if dict_in (dk_char d) (dead_keys self)
              then d ← load dk;
                   mret (with_dk_index (dk_index self ++ [dk_char d]) self)
              else mret self)
           DEAD_KEYS self.

(** remove unused characters in [self.dead_keys[].{base,alt}] *)
Definition layer_has_char (self : KeyboardLayout) (char : str)
  (layer_index : nat) : result bool :=
  d ← get_layer self layer_index;
  mret (existsb (λ id, match dict_get d id with
                       | Some v => str_eqb v char
                       | None => false
                       end) (dict_keys d)).

(** The body of [for i in range(len(base))] *)
Definition prune_step (self : KeyboardLayout) (base alt : str)
  (used : str * str) (i : nat) : result (str * str) :=
  let keep (reachable : bool) : result (str * str) :=
    if reachable then
      b ← py_index base (Z.of_nat i);
      a ← py_index alt (Z.of_nat i);
      mret (used.1 ++ [b], used.2 ++ [a])
    else mret used in
  b ← py_index base (Z.of_nat i);
  in_base ← layer_has_char self [b] Layer.BASE;
  if in_base : bool then keep true
  else in_shift ← layer_has_char self [b] Layer.SHIFT; keep in_shift.

(** The body of [for dk_id in self.dead_keys] *)
Definition prune_dead_key (self : KeyboardLayout) (_ : unit) (dk_id : str)
  : M unit :=
  l ← lift (dict_item (dead_keys self) dk_id);
  d ← load l;
  let base := dk_base d in
  d ← load l;
  let alt := dk_alt d in
  used ← lift (for_each_r (prune_step self base alt)
                          (seq 0 (length base)) ([], []));
  _ ← store l (set_base used.1);
  store l (set_alt used.2).

Definition prune_dead_keys (self : KeyboardLayout) : M unit :=
  for_each (prune_dead_key self) (dict_keys (dead_keys self)) tt.

(** 1dk behavior: alt_self (double-press) *)
Definition odk_alt_self (self : KeyboardLayout) (odk : loc) : M unit :=
  lb ← lift (get_layer self Layer.BASE);
  match List.find (λ key, match dict_get lb key with
                          | Some v => str_eqb v ODK_ID
                          | None => false
                          end) (dict_keys lb) with
  | Some key =>
      lo ← lift (get_layer self Layer.ODK);
      v ← lift (dict_item lo key);
      store odk (set_alt_self v)
  | None => mret tt
  end.

(** The body of [for name, alt_char in self.layers[i + Layer.ODK].items()] *)
Definition odk_append (self : KeyboardLayout) (odk : loc) (i : nat)
  (_ : unit) (item : str * str) : M unit :=
  let '(name, alt_char) := item in
  li ← lift (get_layer self i);
  base_char ← lift (dict_item li name);
  if negb (str_eqb name (py "spce")) && negb (str_eqb base_char ODK_ID)
  then
    d ← load odk;
    _ ← store odk (set_base (dk_base d ++ base_char));
    d ← load odk;
    store odk (set_alt (dk_alt d ++ alt_char))
  else mret tt.

(** copy the 2nd and 3rd layers to the dead key *)
Definition odk_copy_layers (self : KeyboardLayout) (odk : loc) : M unit :=
  for_each (λ _ i,
              items ← lift (get_layer self (i + Layer.ODK));
              for_each (odk_append self odk i) items tt)
           [Layer.BASE; Layer.SHIFT] tt.

Definition odk_behavior (spc : dict str) (self : KeyboardLayout)
  : M KeyboardLayout :=
  if dict_in ODK_ID (dead_keys self) then
    let self := with_has_1dk true self in
    odk ← lift (dict_item (dead_keys self) ODK_ID);
    v ← lift (dict_item spc (py "1dk"));
    _ ← store odk (set_alt_space v);
    _ ← odk_alt_self self odk;
    _ ← odk_copy_layers self odk;
    mret self
  else mret self.

(** Import a keyboard layout to instantiate the object; [cfg] is the
    descriptor as [load_descriptor] returned it, its ancestor merged. *)
Definition init (filename : str) (cfg : dict value) : M KeyboardLayout :=
  self ← lift (init_meta filename cfg blank_layout);
  rows ← lift (geometry_rows self);
  self ← init_layers cfg rows self;
  spc ← lift (spacebar_table cfg);
  self ← lift (init_spacebar spc self);
  self ← init_dk_index self;
  _ ← prune_dead_keys self;
  odk_behavior spc self.

End layout.

(** ** Geometry views *)

(** [text.split("\n")] *)
Fixpoint split_nl_aux (cur : str) (s : str) : list str :=
  match s with
  | [] => [cur]
  | c :: s' =>
      if decide (c = 10%N) then cur :: split_nl_aux [] s'
      else split_nl_aux (cur ++ [c]) s'
  end.
Definition split_nl (s : str) : list str := split_nl_aux [] s.

(** [l[:-1]] *)
Definition drop_last {A} (l : list A) : list A := take (length l - 1) l.

Section views.
Context `{CaseMap}.
Variable GEOMETRY : dict geometry.

(** The [geometry] property: ANSI, ISO, ERGO. *)
Definition geometry_name (self : KeyboardLayout) : result str :=
  v ← dict_item (meta self) (py "geometry");
  match v with
  | VStr s => Ok (str_upper s)
  | VMap _ => Raise AttributeError
  end.

(** [geometry] view of the requested layers. *)
Definition _get_geometry (self : KeyboardLayout) (layers : list nat)
  : result (list str) :=
  name ← geometry_name self;
  g ← dict_item GEOMETRY name;
  let rows := rows g in
  name ← geometry_name self;
  g ← dict_item GEOMETRY name;
  let template := drop_last (split_nl (template g)) in
  for_each_r (λ template i, _fill_template self template rows i)
             layers template.

(** The [geometry] setter: ANSI, ISO, ERGO. *)
Definition set_geometry (self : KeyboardLayout) (value : str)
  : KeyboardLayout :=
  let shape := str_upper value in
  let shape :=
    if bool_decide (shape ∈ [py "ANSI"; py "ISO"; py "ERGO"]) then shape
    else py "ISO" in
  with_meta (dict_set (meta self) (py "geometry") (VStr shape)) self.
End views.

(** The three views of a layout: [base], [full] and [altgr]. *)
Module Views.
Section views.
Context `{CaseMap}.
Variable GEOMETRY : dict geometry.

(** Base + 1dk layers. *)
Definition base (self : KeyboardLayout) : result (list str) :=
  _get_geometry GEOMETRY self [0; Layer.ODK].

(** Base + AltGr layers. *)
Definition full (self : KeyboardLayout) : result (list str) :=
  _get_geometry GEOMETRY self [0; Layer.ALTGR].

(** AltGr layer only. *)
Definition altgr (self : KeyboardLayout) : result (list str) :=
  _get_geometry GEOMETRY self [Layer.ALTGR].
End views.
End Views.

(** ** Concrete data for examples

    The case tables, the geometry table and the dead-key catalog live
    outside [layout.py]; the examples below run the code on small instances
    of them. *)

Module Sample.

(** Python's [str.upper] and [str.lower] on one code point, for the code
    points of Basic Latin and Latin-1 (U+0000 to U+00FF) and the few others
    listed; the identity elsewhere, which is right only for characters
    without case. *)
Definition upper_cp (c : N) : str :=
  if (0x61 <=? c)%N && (c <=? 0x7a)%N then [(c - 32)%N]      (* a-z *)
  else if (c =? 0xb5)%N then [0x39c%N]                        (* µ Μ *)
  else if (c =? 0xdf)%N then [0x53%N; 0x53%N]                 (* ß SS *)
  else if (0xe0 <=? c)%N && (c <=? 0xfe)%N && negb (c =? 0xf7)%N
       then [(c - 32)%N]                                      (* à-þ *)
  else if (c =? 0xff)%N then [0x178%N]                        (* ÿ Ÿ *)
  else if (c =? 0x131)%N then [0x49%N]                        (* ı I *)
  else if (c =? 0x149)%N then [0x2bc%N; 0x4e%N]               (* ŉ ʼN *)
  else if (c =? 0xfb01)%N then [0x46%N; 0x49%N]               (* ﬁ FI *)
  else [c].

Definition lower_cp (c : N) : str :=
  if (0x41 <=? c)%N && (c <=? 0x5a)%N then [(c + 32)%N]      (* A-Z *)
  else if (0xc0 <=? c)%N && (c <=? 0xde)%N && negb (c =? 0xd7)%N
       then [(c + 32)%N]                                      (* À-Þ *)
  else if (c =? 0x130)%N then [0x69%N; 0x307%N]               (* İ i̇ *)
  else if (c =? 0x1e9e)%N then [0xdf%N]                       (* ẞ ß *)
  else [c].

#[export] Instance unicode : CaseMap := {|
  str_upper s := s ≫= upper_cp;
  str_lower s := s ≫= lower_cp
|}.

Definition ODK_ID : str := py "**".

(** A miniature ISO shape: two rows of three and two keys, six columns
    per key, the glyph column of the first key at the row's offset. *)
Definition iso_template : list str :=
  [ py "+-----+-----+-----+";
    py "|     |     |     |";
    py "|     |     |     |";
    py "+--+--+--+--+--+--+";
    py "   |     |     |   ";
    py "   |     |     |   " ].

Definition iso_rows : list row :=
  [ {| offset := 2; keys := [py "ae01"; py "ae02"; py "ae03"] |};
    {| offset := 5; keys := [py "ad01"; py "ad02"] |} ].

(** The text of a block: each line ended by a newline *)
Definition unlines (ls : list str) : str := ls ≫= (λ l, l ++ [10%N]).

Definition GEOMETRY : dict geometry :=
  [ (py "ISO", {| template := unlines iso_template; rows := iso_rows |}) ].

(** A two-entry catalog: the one-dead-key and the acute accent. *)
Definition catalog : heap :=
  [ {| dk_char := py "**"; dk_name := py "1dk";
       dk_base := []; dk_alt := [];
       dk_alt_space := None; dk_alt_self := None |};
    {| dk_char := [star; 0xb4%N]; dk_name := py "acute";
       dk_base := py "aeiouAE"; 
       dk_alt := [0xe1; 0xe9; 0xed; 0xf3; 0xfa; 0xc1; 0xc9]%N;
       dk_alt_space := Some [0xb4%N]; dk_alt_self := Some [0xb4%N] |} ].

Definition DEAD_KEYS : list loc := [0; 1].

Abbreviation compile :=
  (init (H := unicode) DEAD_KEYS ODK_ID GEOMETRY split_nl (py "2024-01-01")
     (py "layout")).

End Sample.

(** * Vocabulary of the statements *)

(** ** Running a heap computation

    [wp m Q E h]: run from [h], [m] either returns [a] in a heap [h'] with
    [Q a h'], or raises [e] in a heap [h'] with [E e h']. *)

Definition wp {A} (m : M A) (Q : A → heap → Prop) (E : exn → heap → Prop)
  (h : heap) : Prop :=
  match m h with
  | (Ok a, h') => Q a h'
  | (Raise e, h') => E e h'
  end.

(** ** Layers and cells *)

(** The value a layer holds for a key, if any. *)
Definition glyph (self : KeyboardLayout) (n : nat) (key : str) : option str :=
  layers self !! n ≫= λ d, dict_get d key.

Definition layer_items (self : KeyboardLayout) (n : nat) : dict str :=
  default [] (layers self !! n).

Definition layer_keys (self : KeyboardLayout) (n : nat) : list str :=
  match layers self !! n with Some d => dict_keys d | None => [] end.

(** The cell made of a marker column and a glyph column. *)
Definition cell (marker glyph : char) : str :=
  (if decide (marker = star) then [star] else []) ++ [glyph].

(** A dead-key value: two characters, the first one the marker. *)
Definition dead_value (v : str) : Prop := length v = 2 ∧ v !! 0 = Some star.

#[global] Instance dead_value_dec v : Decision (dead_value v).
Proof. unfold dead_value. apply _. Defined.

(** The line after the cell at column [i] has been written with [v]: the
    glyph column holds the last character of [v], the column to its left
    the marker when [v] is a dead-key value; every other column is kept. *)
Definition written (line v : str) (i : Z) (c : nat) : option char :=
  if decide (c = Z.to_nat i) then last v
  else if decide (c = Z.to_nat (i - 1) ∧ dead_value v) then Some star
  else line !! c.

(** A single character other than the space. *)
Definition plain_value (v : str) : Prop := ∃ c, v = [c] ∧ c ≠ space.

(** A dead-key cell: the marker and one character. *)
Definition marked_value (v : str) : Prop := ∃ c, v = [star; c].

Definition cell_shape (v : str) : Prop := plain_value v ∨ marked_value v.

(** What [_parse_template] can store: a non-blank cell as read, or the
    result of a case conversion. *)
Definition parsed_value {cm : CaseMap} (v : str) : Prop :=
  v ≠ py " " ∧
  (cell_shape v ∨
   (∃ m g, v = str_lower (cell m g)) ∨
   (∃ g, v = str_upper [g])).

Definition values_ok (P : str → Prop) (self : KeyboardLayout) : Prop :=
  ∀ n k v, glyph self n k = Some v → P v.

(** ** Dead keys as copies

    [h0] is the heap in which a compilation starts.  Every reference in
    [self.dead_keys] was allocated after that, no two of them are the same
    object, and right after parsing each object is a copy of a catalog
    entry with the same trigger. *)

Definition dk_alloc (h0 : heap) (self : KeyboardLayout) (h : heap) : Prop :=
  h0 `prefix_of` h ∧
  NoDup (dict_keys (dead_keys self)) ∧
  NoDup (dict_values (dead_keys self)) ∧
  ∀ id l, (id, l) ∈ dead_keys self → length h0 ≤ l < length h.

Definition dk_copies (DEAD_KEYS : list loc) (h0 : heap)
  (self : KeyboardLayout) (h : heap) : Prop :=
  ∀ id l, (id, l) ∈ dead_keys self →
    ∃ c, c ∈ DEAD_KEYS ∧
         (c < length h0 → dk_char (deref h0 c) = id ∧ deref h l = deref h0 c).

Definition dk_inv (DEAD_KEYS : list loc) (h0 : heap) (self : KeyboardLayout)
  (h : heap) : Prop :=
  dk_alloc h0 self h ∧ dk_copies DEAD_KEYS h0 self h.

(** What holds of the heap when an exception escapes. *)
Definition framed (h0 : heap) (_ : exn) (h : heap) : Prop := h0 `prefix_of` h.

(** ** Pruning *)

(** [occurs] is the closure [layer_has_char], for a single character. *)
Definition occurs (self : KeyboardLayout) (n : nat) (c : char) : bool :=
  existsb (λ id, bool_decide (glyph self n id = Some [c])) (layer_keys self n).

Definition reachable (self : KeyboardLayout) (c : char) : bool :=
  occurs self Layer.BASE c || occurs self Layer.SHIFT c.

(** The pairs of a dead key that survive the pruning, and the pruned
    dead key. *)
Definition pruned_pairs (self : KeyboardLayout) (d : dead_key)
  : list (char * char) :=
  filter (λ p, reachable self p.1) (zip (dk_base d) (dk_alt d)).

Definition pruned (self : KeyboardLayout) (d : dead_key) : dead_key :=
  set_alt (pruned_pairs self d).*2 (set_base (pruned_pairs self d).*1 d).

(** ** The one-dead-key *)

(** What one item of an ODK plane contributes: the value of the same key
    in the base plane [li], paired with the item's value, unless the key is
    the space bar or the base-plane value is the trigger itself. *)
Definition odk_item_pairs (ODK_ID : str) (li : dict str) (item : str * str)
  : list (str * str) :=
  match dict_get li item.1 with
  | Some base_char =>
      if negb (str_eqb item.1 (py "spce")) && negb (str_eqb base_char ODK_ID)
      then [(base_char, item.2)] else []
  | None => []
  end.

(** The pairs copied from the planes [i] and [i + ODK]. *)
Definition odk_pairs (ODK_ID : str) (self : KeyboardLayout) (i : nat)
  : list (str * str) :=
  layer_items self (i + Layer.ODK) ≫= odk_item_pairs ODK_ID (layer_items self i).

(** [dk["base"] += b; dk["alt"] += a] for each pair *)
Definition append_pairs (ps : list (str * str)) (d : dead_key) : dead_key :=
  set_alt (dk_alt d ++ mjoin ps.*2) (set_base (dk_base d ++ mjoin ps.*1) d).

(** A key of the plane [i + ODK] without a value in the plane [i]. *)
Definition odk_missing (self : KeyboardLayout) (i : nat) (name : str) : Prop :=
  name ∈ dict_keys (layer_items self (i + Layer.ODK)) ∧
  dict_get (layer_items self i) name = None.

(** The first key that carries the trigger on BASE. *)
Definition trigger_key (ODK_ID : str) (self : KeyboardLayout) : option str :=
  List.find (λ key, bool_decide (glyph self Layer.BASE key = Some ODK_ID))
    (dict_keys (layer_items self Layer.BASE)).

Definition alt_self_update (ODK_ID : str) (self : KeyboardLayout)
  (d : dead_key) : dead_key :=
  match trigger_key ODK_ID self with
  | Some key =>
      match dict_get (layer_items self Layer.ODK) key with
      | Some v => set_alt_self v d
      | None => d
      end
  | None => d
  end.

(** The one-dead-key after the synthesis, from what it was after pruning. *)
Definition odk_final (ODK_ID : str) (v : str) (self : KeyboardLayout)
  (d : dead_key) : dead_key :=
  append_pairs (odk_pairs ODK_ID self Layer.BASE
                ++ odk_pairs ODK_ID self Layer.SHIFT)
    (alt_self_update ODK_ID self (set_alt_space v d)).

(** The copied pairs as C5 words them: every key of the 1dk plane other
    than the space bar and other than the keys whose BASE value is the
    trigger. *)
Definition claimed_odk_pairs (ODK_ID : str) (self : KeyboardLayout) (i : nat)
  : list (str * str) :=
  layer_items self (i + Layer.ODK) ≫= λ item,
    match glyph self i item.1 with
    | Some base_char =>
        if negb (str_eqb item.1 (py "spce"))
           && negb (bool_decide (glyph self Layer.BASE item.1 = Some ODK_ID))
        then [(base_char, item.2)] else []
    | None => []
    end.

(** ** The finished model *)

(** [self'] differs from [self] in the content of the layers, the dead keys,
    their index and the two flags at most. *)
Definition stable (self self' : KeyboardLayout) : Prop :=
  length (layers self') = length (layers self) ∧ meta self' = meta self.

(** What the descriptor says about a scalar field, if anything. *)
Definition declared (cfg : dict value) (k : str) : option value :=
  match dict_get cfg k with
  | Some (VStr s) => Some (VStr s)
  | _ => None
  end.

(** The shape a descriptor selects: the declared one, or the default of
    [CONFIG]. *)
Definition selected_shape (cfg : dict value) : str :=
  match declared cfg (py "geometry") with
  | Some (VStr s) => s
  | _ => py "ISO"
  end.

(** What [__init__] leaves behind when it returns, started in the heap
    [h0] on the descriptor [cfg]. *)
Definition resolved (DEAD_KEYS : list loc) (ODK_ID : str)
  (GEOMETRY : dict geometry) (h0 : heap) (cfg : dict value)
  (self : KeyboardLayout) (h : heap) : Prop :=
  h0 `prefix_of` h ∧
  length (layers self) = 6 ∧
  NoDup (dict_keys (dead_keys self)) ∧
  NoDup (dict_values (dead_keys self)) ∧
  dict_get (meta self) (py "geometry") = Some (VStr (selected_shape cfg)) ∧
  is_Some (dict_get GEOMETRY (selected_shape cfg)) ∧
  (is_Some (dict_get (dead_keys self) ODK_ID) →
   (∀ i name, i = Layer.BASE ∨ i = Layer.SHIFT → ¬ odk_missing self i name) ∧
   (∀ key, trigger_key ODK_ID self = Some key →
           is_Some (dict_get (layer_items self Layer.ODK) key))) ∧
  ∃ v, (∃ spc, spacebar_table cfg = Ok spc ∧
               dict_get spc (py "1dk") = Some v) ∧
       glyph self Layer.ODK (py "spce") = Some v ∧
       ∀ id l, (id, l) ∈ dead_keys self →
         length h0 ≤ l < length h ∧
         ∃ c, c ∈ DEAD_KEYS ∧
              (c < length h0 →
               dk_char (deref h0 c) = id ∧
               deref h l
               = if decide (id = ODK_ID)
                 then odk_final ODK_ID v self (pruned self (deref h0 c))
                 else pruned self (deref h0 c)).

(** The heap after compiling the descriptors one after the other. *)
Definition compile_all {cm : CaseMap} (DEAD_KEYS : list loc) (ODK_ID : str)
  (GEOMETRY : dict geometry) (text_to_lines : str → list str) (today : str)
  (jobs : list (str * dict value)) (h : heap) : heap :=
  foldl (λ h job, (init DEAD_KEYS ODK_ID GEOMETRY text_to_lines today
                     job.1 job.2 h).2) h jobs.

(** ** Example canvases and descriptors *)

(** A canvas whose first key carries the ligature "ﬁ" (U+FB01) in the
    column of the second pair, with nothing above it. *)
Definition ligature_canvas : list str :=
  [ py "+-----+-----+-----+";
    py "|     |     |     |";
    py "|   " ++ [0xfb01%N] ++ py " |     |     |";
    py "+--+--+--+--+--+--+";
    py "   |     |     |   ";
    py "   |     |     |   " ].

(** A BASE/SHIFT canvas: the first key has "=" with nothing above it, the
    second the Turkish pair "ı" (U+0131) under "I", the third "|" under
    "¦" (U+00A6). *)
Definition lossy_canvas : list str :=
  [ py "+-----+-----+-----+";
    py "|     | I   | " ++ [0xa6%N] ++ py "   |";
    py "| =   | " ++ [0x131%N] ++ py "   | |   |";
    py "+--+--+--+--+--+--+";
    py "   |     |     |   ";
    py "   |     |     |   " ].

(** A layout on the miniature shape: "a"/"A" with "à" on the one-dead-key
    plane, a digit key whose two cells both read "1", the one-dead-key
    itself with "Q" above it, and "=" and "e"/"E" on the second row. *)
Definition demo_canvas : list str :=
  [ py "+-----+-----+-----+";
    py "| A   | 1 " ++ [0x201e%N] ++ py " | Q ! |";
    py "|   " ++ [0xe0%N] ++ py " | 1 " ++ [0xb4%N] ++ py " |** "
      ++ [0xa8%N] ++ py " |";
    py "+--+--+--+--+--+--+";
    py "   | =   | E   |   ";
    py "   |     |     |   " ].

Definition demo_cfg : dict value :=
  [ (py "name", VStr (py "demo"));
    (py "base", VStr (Sample.unlines demo_canvas));
    (py "spacebar",
     VMap [ (py "1dk", py "'"); (py "shift_1dk", [0xb4%N]) ]) ].

(** The same with an "x" on the one-dead-key plane of a key that has
    nothing on BASE and SHIFT. *)
Definition sparse_canvas : list str :=
  [ py "+-----+-----+-----+";
    py "| A   | 1 " ++ [0x201e%N] ++ py " | Q ! |";
    py "|   " ++ [0xe0%N] ++ py " | 1 " ++ [0xb4%N] ++ py " |** "
      ++ [0xa8%N] ++ py " |";
    py "+--+--+--+--+--+--+";
    py "   |     | E   |   ";
    py "   |   x |     |   " ].

Definition sparse_cfg : dict value :=
  [ (py "name", VStr (py "sparse"));
    (py "base", VStr (Sample.unlines sparse_canvas)) ].

(** A descriptor that declares a shape the table does not have. *)
Definition qwerty_cfg : dict value :=
  [ (py "name", VStr (py "demo"));
    (py "geometry", VStr (py "qwerty"));
    (py "base", VStr (Sample.unlines demo_canvas)) ].

(** The demo layout with the acute accent as a dead key on the second key,
    which has nothing on the one-dead-key planes. *)
Definition accent_canvas : list str :=
  [ py "+-----+-----+-----+";
    py "| A   |     | Q ! |";
    py "|   " ++ [0xe0%N] ++ py " |*" ++ [0xb4%N] ++ py "   |** "
      ++ [0xa8%N] ++ py " |";
    py "+--+--+--+--+--+--+";
    py "   | =   | E   |   ";
    py "   |     |     |   " ].

Definition accent_cfg : dict value :=
  [ (py "name", VStr (py "accent"));
    (py "base", VStr (Sample.unlines accent_canvas)) ].

(** The same with "e" under the acute accent on the second key, and "é" on
    its one-dead-key plane. *)
Definition marked_canvas : list str :=
  [ py "+-----+-----+-----+";
    py "| A   |*" ++ [0xb4%N] ++ py "   | Q ! |";
    py "|   " ++ [0xe0%N] ++ py " | e " ++ [0xe9%N] ++ py " |** "
      ++ [0xa8%N] ++ py " |";
    py "+--+--+--+--+--+--+";
    py "   | =   | E   |   ";
    py "   |     |     |   " ].

Definition marked_cfg : dict value :=
  [ (py "name", VStr (py "marked"));
    (py "base", VStr (Sample.unlines marked_canvas)) ].

(** ** Canvases and shapes *)

(** The glyph column of the [k]-th key of a row, for a pair of planes. *)
Definition key_column (ln : nat) (r : row) (k : nat) : Z :=
  (offset r + col_offset ln + 6 * Z.of_nat k)%Z.

(** [c] is the glyph column or the marker column of a key of the row. *)
Definition cell_column (ln : nat) (r : row) (c : nat) : Prop :=
  ∃ k, k < length (keys r) ∧
       (Z.of_nat c = key_column ln r k ∨ Z.of_nat c = key_column ln r k - 1)%Z.

(** The first glyph column of every row leaves room for a marker. *)
Definition margins (ln : nat) (rows : list row) : Prop :=
  Forall (λ r, (1 ≤ offset r + col_offset ln)%Z) rows.

(** The canvas has the two lines of every row, both long enough for the
    cells of its keys. *)
Definition fits (ln : nat) (rows : list row) (template : list str) : Prop :=
  margins ln rows ∧
  ∀ j r, rows !! j = Some r →
    ∃ nb ns,
      length <$> template !! (2 + 3 * j) = Some nb ∧
      length <$> template !! (1 + 3 * j) = Some ns ∧
      ∀ k, k < length (keys r) →
           (key_column ln r k < Z.of_nat nb)%Z ∧
           (key_column ln r k < Z.of_nat ns)%Z.

(** The names of all the keys of a shape, row after row. *)
Definition all_keys (rows : list row) : list str := rows ≫= keys.

(** The value [_fill_template] shows for a key: the layer's, or a blank. *)
Definition shown (self : KeyboardLayout) (n : nat) (key : str) : str :=
  default (py " ") (glyph self n key).

(** The second value of a key is the one [upper_key] infers from the
    first. *)
Definition compressed {cm : CaseMap} (self : KeyboardLayout) (ln : nat)
  (key : str) : Prop :=
  upper_key (shown self ln key) = shown self (ln + 1) key.

#[global] Instance compressed_dec {cm : CaseMap} self ln key :
  Decision (compressed self ln key).
Proof. unfold compressed. apply _. Defined.

(** The two lines of a row after its keys have been filled in, from what
    they were: same lengths; nothing changed outside the cells; in the cell
    of each key the value of the key, unless the filler leaves it out. *)
Definition row_filled {cm : CaseMap} (self : KeyboardLayout) (ln : nat)
  (r : row) (b0 s0 b s : str) : Prop :=
  length b = length b0 ∧ length s = length s0 ∧
  (∀ c, ¬ cell_column ln r c → b !! c = b0 !! c ∧ s !! c = s0 !! c) ∧
  ∀ k key, keys r !! k = Some key →
    ∀ c, (Z.of_nat c = key_column ln r k
          ∨ Z.of_nat c = key_column ln r k - 1)%Z →
      b !! c = (if decide (ln = Layer.BASE ∧ compressed self ln key)
                then b0 !! c
                else written b0 (shown self ln key) (key_column ln r k) c) ∧
      s !! c = (if decide (ln ≠ Layer.BASE ∧ compressed self ln key)
                then s0 !! c
                else written s0 (shown self (ln + 1) key)
                       (key_column ln r k) c).

(** The values a key gets from its two cells as read. *)
Definition base_value {cm : CaseMap} (ln : nat) (base_cell shift_cell : str)
  : str :=
  if decide (ln = Layer.BASE ∧ base_cell = py " ")
  then str_lower shift_cell else base_cell.

Definition shift_value {cm : CaseMap} (ln : nat) (base_cell shift_cell : str)
  : str :=
  if decide (ln ≠ Layer.BASE ∧ shift_cell = py " ")
  then upper_key (base_value ln base_cell shift_cell) else shift_cell.

(** What a layer holds for a key after a value has been read for it: a
    blank leaves the layer as it was. *)
Definition stored (v : str) (old : option str) : option str :=
  if decide (v = py " ") then old else Some v.

(** ** Vocabulary of the further properties *)

(** The key got its two values from the cells at column [i] of the two
    lines of its row. *)
Definition reads {cm : CaseMap} (ln : nat) (base shift : str) (i : Z)
  (key : str) (self self' : KeyboardLayout) : Prop :=
  ∃ b s, read_cell base i = Ok b ∧ read_cell shift i = Ok s ∧
    glyph self' ln key = stored (base_value ln b s) (glyph self ln key) ∧
    glyph self' (ln + 1) key
    = stored (shift_value ln b s) (glyph self (ln + 1) key).

(** What parsing the keys [ks] of a pair of planes changes: no other
    plane, no other key, and no value is removed. *)
Definition parsed_within (ln : nat) (ks : list str)
  (self self' : KeyboardLayout) : Prop :=
  (∀ n, n ≠ ln → n ≠ ln + 1 → layers self' !! n = layers self !! n) ∧
  (∀ n k, k ∉ ks → glyph self' n k = glyph self n k) ∧
  (∀ n k, is_Some (glyph self n k) → is_Some (glyph self' n k)).

(** [v] is the trigger of an entry of the catalog, as it is in [h0]. *)
Definition trigger (DEAD_KEYS : list loc) (h0 : heap) (v : str) : Prop :=
  ∃ c, c ∈ DEAD_KEYS ∧ dk_char (deref h0 c) = v.

(** Every trigger a layer holds has its dead key in [self.dead_keys]. *)
Definition registered (DEAD_KEYS : list loc) (h0 : heap)
  (self : KeyboardLayout) : Prop :=
  ∀ n k v, glyph self n k = Some v → trigger DEAD_KEYS h0 v →
           is_Some (dict_get (dead_keys self) v).

(** The canvas holds a space in the glyph column and in the marker column
    of every cell of the pair of planes, on both lines of every row. *)
Definition blank_cells (ln : nat) (rows : list row) (template : list str)
  : Prop :=
  ∀ j r k line, rows !! j = Some r → k < length (keys r) →
    template !! (2 + 3 * j) = Some line ∨ template !! (1 + 3 * j) = Some line →
    line !! Z.to_nat (key_column ln r k) = Some space ∧
    line !! Z.to_nat (key_column ln r k - 1) = Some space.

(** The character of a canvas at a line and a column. *)
Definition char_at (canvas : list str) (l c : nat) : option char :=
  canvas !! l ≫= λ line, line !! c.

(** The cell at column [i] of [line] is as it was in [line0]. *)
Definition cell_kept (line0 line : str) (i : Z) : Prop :=
  line !! Z.to_nat i = line0 !! Z.to_nat i ∧
  line !! Z.to_nat (i - 1) = line0 !! Z.to_nat (i - 1).

(** The cell at column [i] of [line] shows [v]: its last character in the
    glyph column, and the marker to its left when [v] is a dead-key value
    (the marker column is as it was in [line0] otherwise). *)
Definition cell_written (line0 line : str) (i : Z) (v : str) : Prop :=
  line !! Z.to_nat i = last v ∧
  line !! Z.to_nat (i - 1)
  = if decide (dead_value v) then Some star else line0 !! Z.to_nat (i - 1).

(** A small model on the miniature shape: "a"/"A" with "à"/"À" on the
    one-dead-key planes, the acute accent as a dead key on the one-dead-key
    plane of the second key, and the one-dead-key itself on the third. *)
Definition demo_model : KeyboardLayout :=
  with_layers
    [ [ (py "ae01", py "a"); (py "ae03", py "**") ];
      [ (py "ae01", py "A"); (py "ae03", py "Q") ];
      [ (py "ae01", [0xe0%N]); (py "ae02", [star; 0xb4%N]) ];
      [ (py "ae01", [0xc0%N]); (py "ae03", py "!") ];
      [];
      [] ]
    blank_layout.

(** The miniature template filled with the one-dead-key planes of the
    model. *)
Definition demo_filled : list str :=
  Eval vm_compute in
    match _fill_template (H := Sample.unicode) demo_model Sample.iso_template
            Sample.iso_rows Layer.ODK with
    | Ok t => t
    | Raise _ => []
    end.

(** The BASE/SHIFT planes of [demo_canvas], parsed into a blank layout with
    the sample catalog. *)
Definition demo_parse : result KeyboardLayout * heap :=
  Eval vm_compute in
    _parse_template (H := Sample.unicode) Sample.DEAD_KEYS blank_layout
      demo_canvas Sample.iso_rows Layer.BASE Sample.catalog.

Definition demo_parsed : KeyboardLayout :=
  Eval vm_compute in
    match demo_parse.1 with Ok self => self | Raise _ => blank_layout end.

(** The one-dead-key planes of [demo_canvas], parsed into a blank layout
    with the sample catalog. *)
Definition demo_odk_parse : result KeyboardLayout * heap :=
  Eval vm_compute in
    _parse_template (H := Sample.unicode) Sample.DEAD_KEYS blank_layout
      demo_canvas Sample.iso_rows Layer.ODK Sample.catalog.

Definition demo_odk_parsed : KeyboardLayout :=
  Eval vm_compute in
    match demo_odk_parse.1 with Ok self => self | Raise _ => blank_layout end.

(** What the descriptor says for a field of the space bar, if anything. *)
Definition spacebar_override (cfg : dict value) (k : str) : option str :=
  match dict_get cfg (py "spacebar") with
  | Some (VMap d) => dict_get d k
  | _ => None
  end.

(** The demo descriptor, compiled with the sample catalog. *)
Definition demo_run : result KeyboardLayout * heap :=
  Eval vm_compute in Sample.compile demo_cfg Sample.catalog.

Definition demo_layout : KeyboardLayout :=
  Eval vm_compute in
    match demo_run.1 with Ok self => self | Raise _ => blank_layout end.

(** The [base] view of the compiled demo descriptor. *)
Definition demo_base_view : list str :=
  Eval vm_compute in
    match Views.base (H := Sample.unicode) Sample.GEOMETRY demo_layout with
    | Ok t => t
    | Raise _ => []
    end.

(** The accent descriptor, compiled with the sample catalog. *)
Definition accent_run : result KeyboardLayout * heap :=
  Eval vm_compute in Sample.compile accent_cfg Sample.catalog.

Definition accent_layout : KeyboardLayout :=
  Eval vm_compute in
    match accent_run.1 with Ok self => self | Raise _ => blank_layout end.

(** * Properties *)

(** ** Sequences and dictionaries *)

Lemma norm_index_nonneg (n : nat) (i : Z) :
  (0 ≤ i < Z.of_nat n)%Z → norm_index n i = Some (Z.to_nat i).
Proof.
  intros Hi. unfold norm_index.
  destruct (Z.ltb_spec i 0); [lia|].
  destruct (Z.leb_spec 0 i); [|lia].
  destruct (Z.ltb_spec i (Z.of_nat n)); [done|lia].
Qed.

Lemma norm_index_lt (n : nat) (i : Z) (k : nat) :
  norm_index n i = Some k → k < n.
Proof.
  unfold norm_index. intros Hk.
  repeat match type of Hk with
         | context [(?a <? ?b)%Z] => destruct (Z.ltb_spec a b)
         | context [(?a <=? ?b)%Z] => destruct (Z.leb_spec a b)
         end; simpl in Hk; simplify_eq; lia.
Qed.

Lemma py_index_nonneg {A} (l : list A) (i : Z) (x : A) :
  (0 ≤ i)%Z → l !! Z.to_nat i = Some x → py_index l i = Ok x.
Proof.
  intros Hi Hx. unfold py_index.
  rewrite norm_index_nonneg, Hx; [done|].
  apply lookup_lt_Some in Hx. lia.
Qed.

Lemma py_index_nat {A} (l : list A) (k : nat) (x : A) :
  l !! k = Some x → py_index l (Z.of_nat k) = Ok x.
Proof.
  intros Hx. apply py_index_nonneg; [lia|]. by rewrite Nat2Z.id.
Qed.

Lemma py_setitem_nonneg {A} (l : list A) (i : Z) (x : A) :
  (0 ≤ i < Z.of_nat (length l))%Z →
  py_setitem l i x = Ok (<[Z.to_nat i := x]> l).
Proof. intros Hi. unfold py_setitem. by rewrite norm_index_nonneg. Qed.

Lemma py_setitem_length {A} (l l' : list A) (i : Z) (x : A) :
  py_setitem l i x = Ok l' → length l' = length l.
Proof.
  unfold py_setitem. destruct (norm_index _ _); [|done].
  intros [= <-]. apply length_insert.
Qed.

Section dict_facts.
Context {V : Type}.
Implicit Types (d : dict V) (k : str) (v : V).

Lemma dict_get_set_eq d k v : dict_get (dict_set d k v) k = Some v.
Proof.
  induction d as [|[k' v'] d IH]; simpl.
  - by rewrite decide_True.
  - destruct (decide (k' = k)) as [->|Hne]; simpl.
    + by rewrite decide_True.
    + by rewrite decide_False.
Qed.

Lemma dict_get_set_ne d k k' v :
  k ≠ k' → dict_get (dict_set d k v) k' = dict_get d k'.
Proof.
  intros Hne. induction d as [|[k0 v0] d IH]; simpl.
  - by rewrite decide_False.
  - destruct (decide (k0 = k)) as [->|Hne0]; simpl.
    + by rewrite !decide_False.
    + destruct (decide (k0 = k')); [done|apply IH].
Qed.

Lemma dict_get_set d k k' v :
  dict_get (dict_set d k v) k' =
    if decide (k = k') then Some v else dict_get d k'.
Proof.
  destruct (decide (k = k')) as [->|Hne];
    [apply dict_get_set_eq | by apply dict_get_set_ne].
Qed.

Lemma dict_get_Some_elem d k v : dict_get d k = Some v → (k, v) ∈ d.
Proof.
  induction d as [|[k' v'] d IH]; simpl; [done|].
  destruct (decide (k' = k)) as [->|Hne].
  - intros [= ->]. left.
  - intros Hget. right. by apply IH.
Qed.

Lemma dict_get_None_keys d k : dict_get d k = None ↔ k ∉ dict_keys d.
Proof.
  induction d as [|[k' v'] d IH]; simpl.
  - split; [intros _; apply not_elem_of_nil|done].
  - rewrite not_elem_of_cons. destruct (decide (k' = k)) as [->|Hne].
    + split; [done|]. by intros [? _].
    + rewrite IH. split; [by intros ?; split|by intros [_ ?]].
Qed.

(** Every entry of an updated dictionary is the new one or an old one. *)
Lemma dict_set_elem d k v k' v' :
  (k', v') ∈ dict_set d k v → (k', v') = (k, v) ∨ (k', v') ∈ d.
Proof.
  induction d as [|[k0 v0] d IH]; simpl.
  - intros Hin. apply list_elem_of_singleton in Hin. by left.
  - destruct (decide (k0 = k)) as [->|Hne]; intros Hin;
      apply elem_of_cons in Hin as [Heq|Hin].
    + by left.
    + right. by right.
    + right. rewrite Heq. left.
    + destruct (IH Hin) as [?|?]; [by left|]. right. by right.
Qed.

Lemma dict_set_values d k v v' :
  v' ∈ dict_values (dict_set d k v) → v' = v ∨ v' ∈ dict_values d.
Proof.
  unfold dict_values. intros ([k' w] & -> & Hin)%list_elem_of_fmap.
  apply dict_set_elem in Hin as [[= -> ->]|Hin]; [by left|right].
  apply list_elem_of_fmap. by exists (k', w).
Qed.
End dict_facts.

(** ** The uppercase-inference helper *)

Lemma py_literal_space : py " " = [space].
Proof. reflexivity. Qed.

Lemma custom_alpha_single (k v : str) :
  dict_get custom_alpha k = Some v → length k = 1.
Proof.
  unfold custom_alpha. simpl dict_get.
  repeat (case_decide; [by subst|]). done.
Qed.

(** C6. [upper_key] is a function of its argument alone (and of the Unicode
    case tables): for an input whose length is not 1 it returns the blank
    [" "]; for a character of the override table it returns the tabulated
    counterpart, in particular ["ẞ"] for ["ß"] and the blank for ["µ"];
    for any other single character it returns [letter.upper()] when that
    differs from [letter.lower()], so ["A"] for ["a"], and the blank when
    the two agree, as for ["="]. *)
Theorem upper_key_spec {cm : CaseMap} (letter : str) :
  (length letter ≠ 1 → upper_key letter = py " ") ∧
  (∀ v, dict_get custom_alpha letter = Some v → upper_key letter = v) ∧
  (length letter = 1 → dict_get custom_alpha letter = None →
   str_upper letter ≠ str_lower letter → upper_key letter = str_upper letter) ∧
  (length letter = 1 → dict_get custom_alpha letter = None →
   str_upper letter = str_lower letter → upper_key letter = py " ") ∧
  upper_key [0xdf%N] = [0x1e9e%N] ∧
  upper_key [0xb5%N] = py " " ∧
  (str_upper (py "a") = py "A" → str_lower (py "a") = py "a" →
   upper_key (py "a") = py "A") ∧
  (str_upper (py "=") = str_lower (py "=") → upper_key (py "=") = py " ").
Proof.
  assert (Hgen : ∀ l : str, length l = 1 → dict_get custom_alpha l = None →
            upper_key l = if decide (str_upper l = str_lower l)
                          then py " " else str_upper l).
  { intros l Hlen Hnone. unfold upper_key, str_eqb.
    rewrite Hlen, Hnone. simpl.
    destruct (decide (str_upper l = str_lower l));
      [rewrite bool_decide_eq_true_2 | rewrite bool_decide_eq_false_2];
      done. }
  repeat split.
  - intros Hlen. unfold upper_key.
    destruct (Nat.eqb_spec (length letter) 1); done.
  - intros v Hv. unfold upper_key.
    rewrite (custom_alpha_single _ _ Hv), Hv. done.
  - intros Hlen Hnone Hne. rewrite Hgen by done. by rewrite decide_False.
  - intros Hlen Hnone Heq. rewrite Hgen by done. by rewrite decide_True.
  - intros Hu Hl. rewrite Hgen by done. rewrite Hu, Hl. done.
  - intros Heq. rewrite Hgen by done. by rewrite decide_True.
Qed.

Lemma upper_key_spec_witness :
  upper_key (H := Sample.unicode) (py "a") = py "A" ∧
  upper_key (H := Sample.unicode) (py "=") = py " ".
Proof.
  destruct (upper_key_spec (cm := Sample.unicode) (py "a"))
    as (_ & _ & _ & _ & _ & _ & Ha & Heq).
  split; [apply Ha; reflexivity | apply Heq; reflexivity].
Defined.

(** ** Reasoning about heap computations *)

Lemma wp_ret {A} (a : A) Q E h : Q a h → wp (mret a) Q E h.
Proof. done. Qed.

Lemma wp_bind {A B} (m : M A) (f : A → M B) Q E h :
  wp m (λ a h', wp (f a) Q E h') E h → wp (m ≫= f) Q E h.
Proof.
  unfold wp, mbind, M_bind. by destruct (m h) as [[a|e] h'].
Qed.

Lemma wp_lift {A} (r : result A) (Q : A → heap → Prop) E h :
  match r with Ok a => Q a h | Raise e => E e h end → wp (lift r) Q E h.
Proof. by destruct r. Qed.

Lemma wp_load l (Q : dead_key → heap → Prop) E h :
  Q (deref h l) h → wp (load l) Q E h.
Proof. done. Qed.

Lemma wp_store l f (Q : unit → heap → Prop) E h :
  Q tt (alter f l h) → wp (store l f) Q E h.
Proof. done. Qed.

Lemma wp_copy l (Q : loc → heap → Prop) E h :
  Q (length h) (h ++ [deref h l]) → wp (copy l) Q E h.
Proof. done. Qed.

Lemma wp_mono {A} (m : M A) (Q Q' : A → heap → Prop)
  (E E' : exn → heap → Prop) h :
  (∀ a h', Q a h' → Q' a h') → (∀ e h', E e h' → E' e h') →
  wp m Q E h → wp m Q' E' h.
Proof.
  unfold wp. intros HQ HE. destruct (m h) as [[a|e] h']; auto.
Qed.

Lemma wp_run {A} (m : M A) Q E h :
  wp m Q E h →
  (∀ a h', m h = (Ok a, h') → Q a h') ∧
  (∀ e h', m h = (Raise e, h') → E e h').
Proof. unfold wp. intros Hwp. split; intros ? ? Heq; by rewrite Heq in Hwp. Qed.

(** The loop rule: the invariant may mention the elements already visited. *)
Lemma wp_for_each {A S} (body : S → A → M S) (l : list A)
  (I : list A → S → heap → Prop) (E : exn → heap → Prop) s h :
  (∀ done x todo s h, l = done ++ x :: todo → I done s h →
     wp (body s x) (I (done ++ [x])) E h) →
  I [] s h →
  wp (for_each body l s) (I l) E h.
Proof.
  intros Hbody.
  assert (Hgen : ∀ todo done s h, l = done ++ todo → I done s h →
            wp (for_each body todo s) (I l) E h).
  { induction todo as [|x todo IH]; intros done s' h' Hl HI; simpl.
    - apply wp_ret. by rewrite Hl, app_nil_r.
    - apply wp_bind. eapply wp_mono; [| |by eapply Hbody]; [|done].
      intros s'' h'' HI'. apply (IH (done ++ [x])); [|done].
      by rewrite <-app_assoc. }
  intros HI. by apply (Hgen l []).
Qed.

(** The same with an invariant blind to the position. *)
Lemma wp_for_each_inv {A S} (body : S → A → M S) (l : list A)
  (I : S → heap → Prop) (E : exn → heap → Prop) s h :
  (∀ x s h, x ∈ l → I s h → wp (body s x) I E h) →
  I s h →
  wp (for_each body l s) I E h.
Proof.
  intros Hbody HI. apply (wp_for_each body l (λ _, I)); [|done].
  intros done x todo s' h' -> HI'. apply Hbody; [|done].
  apply elem_of_app. right. left.
Qed.

(** The loops of the [result] monad. *)
Lemma for_each_r_inv {A S} (body : S → A → result S) (l : list A)
  (I : list A → S → Prop) s s' :
  (∀ done x todo s s', l = done ++ x :: todo → I done s →
     body s x = Ok s' → I (done ++ [x]) s') →
  I [] s →
  for_each_r body l s = Ok s' → I l s'.
Proof.
  intros Hbody.
  assert (Hgen : ∀ todo done s, l = done ++ todo → I done s →
            for_each_r body todo s = Ok s' → I l s').
  { induction todo as [|x todo IH]; intros done s0 Hl HI; simpl.
    - intros [= <-]. by rewrite Hl, app_nil_r.
    - destruct (body s0 x) as [s1|e] eqn:Hb; [|done]. simpl.
      apply (IH (done ++ [x])); [by rewrite <-app_assoc|].
      by eapply Hbody. }
  by apply (Hgen l []).
Qed.

Lemma bind_Ok {A B} (r : result A) (f : A → result B) (b : B) :
  r ≫= f = Ok b ↔ ∃ a, r = Ok a ∧ f a = Ok b.
Proof.
  destruct r as [a|e]; simpl; [|split; [done|by intros (? & ? & ?)]].
  split; [by exists a|by intros (? & [= <-] & ?)].
Qed.

(** ** The grid parser *)

Lemma read_cell_spec (line : str) (i : Z) (m g : char) :
  (1 ≤ i)%Z → line !! Z.to_nat (i - 1) = Some m → line !! Z.to_nat i = Some g →
  read_cell line i = Ok (cell m g).
Proof.
  intros Hi Hm Hg. unfold read_cell.
  rewrite (py_index_nonneg line (i - 1) m) by (done || lia). simpl.
  rewrite (py_index_nonneg line i g) by (done || lia). done.
Qed.

Lemma read_cell_inv (line : str) (i : Z) (v : str) :
  read_cell line i = Ok v → ∃ m g, v = cell m g.
Proof.
  unfold read_cell. intros Hv.
  apply bind_Ok in Hv as (m & _ & Hv). apply bind_Ok in Hv as (g & _ & Hv).
  injection Hv as <-. by exists m, g.
Qed.

Lemma set_layer_item_Ok self n key v d :
  layers self !! n = Some d →
  set_layer_item self n key v
  = Ok (with_layers (<[n := dict_set d key v]> (layers self)) self).
Proof. intros Hd. unfold set_layer_item, get_layer. by rewrite Hd. Qed.

Lemma set_layer_item_inv self n key v self' :
  set_layer_item self n key v = Ok self' →
  ∃ d, layers self !! n = Some d ∧
       self' = with_layers (<[n := dict_set d key v]> (layers self)) self.
Proof.
  unfold set_layer_item, get_layer.
  destruct (layers self !! n) as [d|]; [|done].
  intros [= <-]. by exists d.
Qed.

Lemma glyph_set_layer_item self n key v d n' key' :
  layers self !! n = Some d →
  glyph (with_layers (<[n := dict_set d key v]> (layers self)) self) n' key'
  = if decide (n = n' ∧ key = key') then Some v else glyph self n' key'.
Proof.
  intros Hd. unfold glyph. simpl.
  destruct (decide (n = n')) as [<-|Hn].
  - rewrite list_lookup_insert_eq by (by eapply lookup_lt_Some). simpl.
    rewrite dict_get_set, Hd. simpl.
    destruct (decide (key = key')); [by rewrite decide_True|].
    rewrite decide_False; [done|]. by intros [_ ?].
  - rewrite list_lookup_insert_ne by done.
    rewrite decide_False; [done|]. by intros [? _].
Qed.

Section parse_facts.
Context {cm : CaseMap}.
Variable DEAD_KEYS : list loc.

(** Registering dead keys never fails and only touches [dead_keys]. *)
Lemma register_dead_keys_total (b s : str) self h :
  wp (for_each (register_dead_key b s) DEAD_KEYS self)
     (λ self' _, ∃ d, self' = with_dead_keys d self) (λ _ _, False) h.
Proof.
  apply (wp_for_each_inv _ _
    (λ self' _, ∃ d, self' = with_dead_keys d self) (λ _ _, False)).
  - intros dk self' h' _ [d ->]. unfold register_dead_key.
    apply wp_bind, wp_load.
    apply wp_bind.
    assert (Hcopy : ∀ key d0 h0,
      wp (register_copy key dk (with_dead_keys d0 self))
         (λ self' _, ∃ d, self' = with_dead_keys d self) (λ _ _, False) h0).
    { intros key d0 h0. unfold register_copy. apply wp_bind, wp_copy.
      apply wp_ret. by eexists. }
    eapply wp_mono; [| |destruct (str_eqb b _);
                        [apply Hcopy|apply wp_ret; by eexists]]; [|done].
    intros self'' h'' [d' ->]. simpl.
    apply wp_bind, wp_load.
    destruct (str_eqb s _); [apply Hcopy|apply wp_ret; by eexists].
  - exists (dead_keys self). by destruct self.
Qed.

Lemma parse_key_layers ln base shift self i key h self' h' :
  parse_key DEAD_KEYS ln base shift self i key h = (Ok self', h') →
  ∃ b s,
    read_cell base i = Ok b ∧ read_cell shift i = Ok s ∧
    let bv := expand_base ln b s in
    let sv := expand_shift ln bv s in
    ∃ self1 self2 d,
      (if negb (str_eqb bv (py " "))
       then set_layer_item self (ln + 0) key bv else Ok self) = Ok self1 ∧
      (if negb (str_eqb sv (py " "))
       then set_layer_item self1 (ln + 1) key sv else Ok self1) = Ok self2 ∧
      self' = with_dead_keys d self2.
Proof.
  unfold parse_key, mbind at 1 2 3 4, M_bind, lift.
  destruct (read_cell base i) as [b|]; [|done].
  destruct (read_cell shift i) as [s|]; [|done].
  cbv zeta.
  destruct (if negb (str_eqb (expand_base ln b s) _) then _ else _)
    as [self1|] eqn:H1; [|done].
  destruct (if negb (str_eqb (expand_shift ln _ s) _) then _ else _)
    as [self2|] eqn:H2; [|done].
  intros Hreg. exists b, s. do 2 (split; [done|]).
  exists self1, self2.
  destruct (wp_run _ _ _ _ (register_dead_keys_total
    (expand_base ln b s) (expand_shift ln (expand_base ln b s) s) self2 h))
    as [Hok _].
  destruct (Hok _ _ Hreg) as [d ->]. by exists d.
Qed.
End parse_facts.

Lemma str_eqb_decide (a b : str) :
  str_eqb a b = if decide (a = b) then true else false.
Proof. apply bool_decide_decide. Qed.

Lemma expand_base_spec {cm : CaseMap} ln b s :
  expand_base ln b s
  = if decide (ln = Layer.BASE ∧ b = py " ") then str_lower s else b.
Proof.
  unfold expand_base. rewrite str_eqb_decide.
  destruct (Nat.eqb_spec ln Layer.BASE), (decide (b = py " ")); simpl;
    by (rewrite decide_True by done) || (rewrite decide_False by tauto).
Qed.

Lemma expand_shift_spec {cm : CaseMap} ln b s :
  expand_shift ln b s
  = if decide (ln ≠ Layer.BASE ∧ s = py " ") then upper_key b else s.
Proof.
  unfold expand_shift. rewrite str_eqb_decide.
  destruct (Nat.eqb_spec ln Layer.BASE), (decide (s = py " ")); simpl;
    by (rewrite decide_True by done) || (rewrite decide_False by tauto).
Qed.

(** [if v != " ": self.layers[n][key] = v] *)
Lemma store_glyph self n key v :
  n < length (layers self) →
  ∃ self1,
    (if negb (str_eqb v (py " ")) then set_layer_item self n key v
     else Ok self) = Ok self1 ∧
    length (layers self1) = length (layers self) ∧
    ∀ n' k', glyph self1 n' k'
             = if decide ((n = n' ∧ key = k') ∧ v ≠ py " ") then Some v
               else glyph self n' k'.
Proof.
  intros Hn. destruct (lookup_lt_is_Some_2 _ _ Hn) as [d Hd].
  rewrite str_eqb_decide. destruct (decide (v = py " ")) as [Hv|Hv]; simpl.
  - exists self. do 2 (split; [done|]). intros n' k'.
    rewrite decide_False; [done|]. by intros [_ ?].
  - eexists. split; [by apply set_layer_item_Ok|]. split.
    + simpl. apply length_insert.
    + intros n' k'. rewrite glyph_set_layer_item by done.
      destruct (decide (n = n' ∧ key = k')).
      * by rewrite decide_True.
      * rewrite decide_False; [done|]. by intros [? _].
Qed.

(** Parsing one key: with [base_cell] and [shift_cell] the cells read
    at column [i] of the base and shift lines, on the BASE/SHIFT pair a
    blank base cell makes the base value the lowercase of the shift cell; on
    any other pair a blank shift cell makes the shift value [upper_key] of
    the base value; a value is inserted in its layer exactly when it is not
    blank, so a blank inference leaves the shift entry as it was (absent in
    a new layout); no other key and no other layer is touched. *)
Theorem parse_key_expansion {cm : CaseMap} (DEAD_KEYS : list loc) (ln : nat)
  (base shift : str) (self : KeyboardLayout) (i : Z) (key : str) (h : heap)
  (mb gb ms gs : char) :
  (1 ≤ i)%Z →
  base !! Z.to_nat (i - 1) = Some mb → base !! Z.to_nat i = Some gb →
  shift !! Z.to_nat (i - 1) = Some ms → shift !! Z.to_nat i = Some gs →
  ln + 1 < length (layers self) →
  let base_cell := cell mb gb in
  let shift_cell := cell ms gs in
  let base_value :=
    if decide (ln = Layer.BASE ∧ base_cell = py " ")
    then str_lower shift_cell else base_cell in
  let shift_value :=
    if decide (ln ≠ Layer.BASE ∧ shift_cell = py " ")
    then upper_key base_value else shift_cell in
  ∃ self' h',
    parse_key DEAD_KEYS ln base shift self i key h = (Ok self', h') ∧
    glyph self' ln key
    = (if decide (base_value = py " ") then glyph self ln key
       else Some base_value) ∧
    glyph self' (ln + 1) key
    = (if decide (shift_value = py " ") then glyph self (ln + 1) key
       else Some shift_value) ∧
    (∀ n k, ¬ ((n = ln ∨ n = ln + 1) ∧ k = key) →
            glyph self' n k = glyph self n k).
Proof.
  intros Hi Hmb Hgb Hms Hgs Hlen base_cell shift_cell base_value shift_value.
  unfold parse_key, mbind at 1 2 3 4, M_bind, lift.
  rewrite (read_cell_spec base i mb gb), (read_cell_spec shift i ms gs)
    by done.
  cbv zeta. rewrite expand_base_spec. fold base_cell shift_cell base_value.
  rewrite expand_shift_spec. fold shift_value.
  destruct (store_glyph self (ln + 0) key base_value) as (self1 & -> & Hl1 & Hg1);
    [lia|].
  destruct (store_glyph self1 (ln + 1) key shift_value)
    as (self2 & -> & Hl2 & Hg2); [lia|].
  pose proof (register_dead_keys_total DEAD_KEYS base_value shift_value
                self2 h) as Hreg.
  unfold wp in Hreg.
  destruct (for_each _ DEAD_KEYS self2 h) as [[self'|e] h']; [|done].
  destruct Hreg as [d ->]. exists (with_dead_keys d self2), h'.
  split; [done|].
  assert (Hg : ∀ n k, glyph (with_dead_keys d self2) n k = glyph self2 n k)
    by done.
  rewrite Nat.add_0_r in Hg1.
  repeat split.
  - rewrite Hg, Hg2, Hg1. rewrite decide_False by lia.
    destruct (decide (base_value = py " ")).
    + rewrite decide_False; [done|]. by intros [_ ?].
    + by rewrite decide_True.
  - rewrite Hg, Hg2.
    destruct (decide (shift_value = py " ")).
    + rewrite decide_False by (by intros [_ ?]).
      rewrite Hg1. rewrite decide_False; [done|]. lia.
    + by rewrite decide_True.
  - intros n k Hnk. rewrite Hg, Hg2, Hg1.
    rewrite !decide_False; [done| |]; intros [[? ?] _]; apply Hnk; split;
      auto.
Qed.

Lemma parse_key_expansion_witness :
  ∃ self' h',
    parse_key (H := Sample.unicode) [] Layer.ODK (py "| a e |") (py "|     |")
      blank_layout 4 (py "ae01") [] = (Ok self', h') ∧
    glyph self' Layer.ODK (py "ae01") = Some (py "e") ∧
    glyph self' Layer.ODK_SHIFT (py "ae01") = Some (py "E").
Proof.
  destruct (parse_key_expansion (cm := Sample.unicode) [] Layer.ODK
              (py "| a e |") (py "|     |") blank_layout 4 (py "ae01") []
              space 101%N space space)
    as (self' & h' & Hp & Hb & Hs & _);
    [lia | reflexivity | reflexivity | reflexivity | reflexivity
    | simpl; lia | ].
  exists self', h'. split; [exact Hp|]. split; [exact Hb | exact Hs].
Defined.

(** ** The grid filler *)

Lemma is_dead_spec (v : str) : is_dead v = true ↔ dead_value v.
Proof.
  unfold is_dead, dead_value.
  destruct v as [|c [|c' [|c'' v]]]; simpl;
    try (split; [done|intros [? ?]; done]).
  rewrite bool_decide_eq_true. split; [by intros ->|by intros [_ [= ->]]].
Qed.

Lemma py_last_spec (v : str) : v ≠ [] → ∃ c, py_last v = Ok c ∧ last v = Some c.
Proof.
  intros Hv. unfold py_last, py_index, norm_index.
  assert (0 < length v) by (destruct v; [done|simpl; lia]).
  destruct (Z.ltb_spec (-1) 0); [|lia].
  destruct (Z.leb_spec 0 (-1 + Z.of_nat (length v))); [|lia].
  destruct (Z.ltb_spec (-1 + Z.of_nat (length v)) (Z.of_nat (length v)));
    [|lia].
  simpl. rewrite last_lookup.
  replace (Z.to_nat (-1 + Z.of_nat (length v))) with (pred (length v)) by lia.
  destruct (lookup_lt_is_Some_2 v (pred (length v))) as [c Hc]; [lia|].
  rewrite Hc. by exists c.
Qed.

Lemma write_cell_spec (line : str) (i : Z) (v : str) :
  (1 ≤ i < Z.of_nat (length line))%Z → v ≠ [] →
  ∃ line', write_cell line i v = Ok line' ∧ length line' = length line ∧
           ∀ c, line' !! c = written line v i c.
Proof.
  intros Hi Hv. unfold write_cell.
  destruct (py_last_spec v Hv) as (g & -> & Hlast). simpl.
  rewrite py_setitem_nonneg by lia. simpl.
  destruct (is_dead v) eqn:Hdead.
  - apply is_dead_spec in Hdead.
    rewrite py_setitem_nonneg by (rewrite length_insert; lia).
    eexists. split; [done|]. split; [by rewrite !length_insert|].
    intros c. unfold written.
    destruct (decide (c = Z.to_nat i)) as [->|Hc].
    + rewrite list_lookup_insert_ne by lia.
      rewrite list_lookup_insert_eq by lia. done.
    + destruct (decide (c = Z.to_nat (i - 1) ∧ dead_value v)) as [[-> _]|Hn].
      * rewrite list_lookup_insert_eq by (rewrite length_insert; lia). done.
      * rewrite !list_lookup_insert_ne; [done|congruence|].
        intros <-. by apply Hn.
  - assert (¬ dead_value v) as Hnd.
    { rewrite <-is_dead_spec. by rewrite Hdead. }
    eexists. split; [done|]. split; [by rewrite length_insert|].
    intros c. unfold written.
    destruct (decide (c = Z.to_nat i)) as [->|Hc].
    + rewrite list_lookup_insert_eq by lia. done.
    + rewrite decide_False by (by intros [_ ?]).
      by rewrite list_lookup_insert_ne.
Qed.

Lemma layer_cell_Ok self n key d :
  layers self !! n = Some d →
  layer_cell self n key = Ok (default (py " ") (dict_get d key)).
Proof. intros Hd. unfold layer_cell, get_layer. by rewrite Hd. Qed.

(** Filling one key: on the BASE/SHIFT pair the shift cell is always
    written and the base cell is written exactly when [upper_key] of the
    base value differs from the shift value; on any other pair the base cell
    is always written and the shift cell exactly when [upper_key] of the
    base value differs from the shift value.  Writing a cell ([written])
    puts the last character of the value in the glyph column and, for a
    two-character value that starts with the marker, ["*"] in the column
    immediately to its left; a cell that is not written keeps its line. *)
Theorem fill_key_compression {cm : CaseMap} (self : KeyboardLayout) (ln : nat)
  (base shift : str) (i : Z) (key : str) (d0 d1 : dict str) :
  (1 ≤ i < Z.of_nat (length base))%Z → (i < Z.of_nat (length shift))%Z →
  layers self !! ln = Some d0 → layers self !! (ln + 1) = Some d1 →
  let base_key := default (py " ") (dict_get d0 key) in
  let shift_key := default (py " ") (dict_get d1 key) in
  base_key ≠ [] → shift_key ≠ [] →
  ∃ base' shift',
    fill_key self ln base shift i key = Ok (base', shift') ∧
    if decide (ln = Layer.BASE) then
      (∀ c, shift' !! c = written shift shift_key i c) ∧
      (if decide (upper_key base_key = shift_key) then base' = base
       else ∀ c, base' !! c = written base base_key i c)
    else
      (∀ c, base' !! c = written base base_key i c) ∧
      (if decide (upper_key base_key = shift_key) then shift' = shift
       else ∀ c, shift' !! c = written shift shift_key i c).
Proof.
  intros Hib His Hd0 Hd1 base_key shift_key Hb Hs.
  unfold fill_key.
  rewrite (layer_cell_Ok _ _ _ _ Hd0), (layer_cell_Ok _ _ _ _ Hd1).
  simpl. fold base_key shift_key. rewrite str_eqb_decide.
  destruct (write_cell_spec base i base_key) as (base' & Hwb & _ & Hbase');
    [done..|].
  destruct (write_cell_spec shift i shift_key) as (shift' & Hws & _ & Hshift');
    [lia|done|].
  destruct (decide (ln = Layer.BASE)) as [Hln|Hln].
  - rewrite (proj2 (Nat.eqb_eq _ _) Hln). rewrite Hws. simpl.
    destruct (decide (upper_key base_key = shift_key)); simpl.
    + by exists base, shift'.
    + rewrite Hwb. simpl. by exists base', shift'.
  - rewrite (proj2 (Nat.eqb_neq _ _) Hln). rewrite Hwb. simpl.
    destruct (decide (upper_key base_key = shift_key)); simpl.
    + by exists base', shift.
    + rewrite Hws. simpl. by exists base', shift'.
Qed.

Lemma fill_key_compression_witness :
  ∃ base' shift',
    fill_key (H := Sample.unicode)
      (with_layers [[]; []; [(py "ae01", [star; 0xb4%N])]; []; []; []]
         blank_layout)
      Layer.ODK (py "|     |") (py "|     |") 4 (py "ae01")
    = Ok (base', shift') ∧
    base' !! 3 = Some star ∧ base' !! 4 = Some 0xb4%N ∧
    shift' = py "|     |".
Proof.
  destruct (fill_key_compression (cm := Sample.unicode)
              (with_layers [[]; []; [(py "ae01", [star; 0xb4%N])]; []; []; []]
                 blank_layout)
              Layer.ODK (py "|     |") (py "|     |") 4 (py "ae01")
              [(py "ae01", [star; 0xb4%N])] [])
    as (base' & shift' & Hf & Hbase & Hshift);
    [simpl; lia | simpl; lia | reflexivity | reflexivity | done | done | ].
  exists base', shift'. split; [exact Hf|].
  split; [exact (Hbase 3)|]. split; [exact (Hbase 4)|exact Hshift].
Defined.

(** ** What the parser stores *)

Lemma wp_intro {A} (m : M A) (Q : A → heap → Prop) (E : exn → heap → Prop) h :
  (∀ a h', m h = (Ok a, h') → Q a h') →
  (∀ e h', m h = (Raise e, h') → E e h') →
  wp m Q E h.
Proof. unfold wp. intros HQ HE. destruct (m h) as [[a|e] h']; auto. Qed.

Lemma cell_cases (m g : char) :
  cell m g = py " " ∨ cell_shape (cell m g).
Proof.
  unfold cell. destruct (decide (m = star)); simpl.
  - right. right. by exists g.
  - destruct (decide (g = space)) as [->|Hg]; [by left|].
    right. left. by exists g.
Qed.

Lemma custom_alpha_values (k v : str) :
  dict_get custom_alpha k = Some v → v = py " " ∨ plain_value v.
Proof.
  unfold custom_alpha. simpl dict_get.
  repeat (case_decide;
          [intros [= <-]; (by left) || (right; by eexists)|]).
  done.
Qed.

Lemma upper_key_cases {cm : CaseMap} (b : str) :
  upper_key b = py " " ∨ plain_value (upper_key b) ∨
  ∃ g, upper_key b = str_upper [g].
Proof.
  unfold upper_key.
  destruct (Nat.eqb_spec (length b) 1) as [Hlen|Hlen]; cbn [negb];
    [|by left].
  destruct (dict_get custom_alpha b) as [v|] eqn:Hv.
  - destruct (custom_alpha_values _ _ Hv); auto.
  - destruct (negb _); [|by left]. right. right.
    destruct b as [|g [|? ?]]; try done. by exists g.
Qed.

Lemma values_ok_store (P : str → Prop) self n key v self1 :
  values_ok P self → (v ≠ py " " → P v) →
  (if negb (str_eqb v (py " ")) then set_layer_item self n key v
   else Ok self) = Ok self1 →
  values_ok P self1.
Proof.
  intros Hok Hv. rewrite str_eqb_decide.
  destruct (decide (v = py " ")) as [Hb|Hb]; simpl; [by intros [= <-]|].
  intros (d & Hd & ->)%set_layer_item_inv. intros n' k' v'.
  rewrite glyph_set_layer_item by done.
  destruct (decide _); [intros [= <-]; auto|apply Hok].
Qed.

Section parse_values.
Context {cm : CaseMap}.
Variable DEAD_KEYS : list loc.

Lemma parse_key_values ln base shift self i key h self' h' :
  values_ok parsed_value self →
  parse_key DEAD_KEYS ln base shift self i key h = (Ok self', h') →
  values_ok parsed_value self'.
Proof.
  intros Hok (b & s & Hb & Hs & Hrest)%parse_key_layers.
  cbv zeta in Hrest. destruct Hrest as (self1 & self2 & d & H1 & H2 & ->).
  apply read_cell_inv in Hb as (mb & gb & ->).
  apply read_cell_inv in Hs as (ms & gs & ->).
  assert (values_ok parsed_value self2) as Hok2; [|done].
  assert (∀ v, v ≠ py " " → (∃ m g, v = cell m g) → parsed_value v)
    as Hcell.
  { intros v Hv (m & g & ->). split; [done|]. left.
    by destruct (cell_cases m g). }
  eapply values_ok_store; [| |exact H2].
  - eapply values_ok_store; [exact Hok| |exact H1].
    rewrite expand_base_spec. case_decide.
    + intros Hv. split; [done|]. right. left. by exists ms, gs.
    + intros Hv. apply Hcell; [done|]. by exists mb, gb.
  - rewrite expand_shift_spec. case_decide.
    + intros Hv. split; [done|].
      destruct (upper_key_cases (expand_base ln (cell mb gb) (cell ms gs)))
        as [?|[?|?]]; [done|by left; left|by right; right].
    + intros Hv. apply Hcell; [done|]. by exists ms, gs.
Qed.

Lemma parse_template_values template rows ln self h :
  values_ok parsed_value self →
  wp (_parse_template DEAD_KEYS self template rows ln)
     (λ self' _, values_ok parsed_value self') (λ _ _, True) h.
Proof.
  intros Hok. unfold _parse_template. apply wp_bind.
  eapply wp_mono; [| |apply (wp_for_each_inv _ rows
    (λ sj _, values_ok parsed_value sj.1) (λ _ _, True))].
  - intros sj h' Hsj. by apply wp_ret.
  - done.
  - intros r [self1 j] h1 _ Hok1. simpl in Hok1.
    apply wp_bind. unfold parse_row.
    apply wp_bind, wp_lift. destruct (py_index _ _) as [base|]; [|done].
    apply wp_bind, wp_lift. destruct (py_index _ _) as [shift|]; [|done].
    apply wp_bind.
    eapply wp_mono; [| |apply (wp_for_each_inv _ (keys r)
      (λ si _, values_ok parsed_value si.1) (λ _ _, True))].
    + intros si h2 Hsi. apply wp_ret. by apply wp_ret.
    + done.
    + intros key [self2 i] h2 _ Hok2. simpl in Hok2.
      apply wp_bind. apply wp_intro; [|done].
      intros self3 h3 Hp. apply wp_ret. simpl.
      by eapply parse_key_values.
    + done.
  - done.
Qed.
End parse_values.

(** C10, amended. After [_parse_template] has run, every value of the
    layer maps is different from the blank [" "]: it is a single character
    other than the space, or the marker ["*"] followed by one character, or
    the result of a case conversion, that is [str.lower] of a cell (a base
    value inferred on BASE/SHIFT) or [str.upper] of a single character (a
    shift value inferred on another pair), whatever string Unicode gives
    for it.  Such a value is not empty as long as the case conversions
    keep non-empty strings non-empty. *)
Theorem parse_template_stores {cm : CaseMap} (DEAD_KEYS : list loc)
  (template : list str) (rows : list row) (ln : nat)
  (self self' : KeyboardLayout) (h h' : heap) :
  values_ok parsed_value self →
  _parse_template DEAD_KEYS self template rows ln h = (Ok self', h') →
  ∀ n key v, glyph self' n key = Some v →
    v ≠ py " " ∧
    (plain_value v ∨ marked_value v ∨
     (∃ m g, v = str_lower (cell m g)) ∨ (∃ g, v = str_upper [g])) ∧
    ((∀ s, s ≠ [] → str_upper s ≠ [] ∧ str_lower s ≠ []) → v ≠ []).
Proof.
  intros Hok Hp n key v Hv.
  destruct (wp_run _ _ _ _
    (parse_template_values DEAD_KEYS template rows ln self h Hok)) as [Hrun _].
  destruct (Hrun _ _ Hp n key v Hv) as [Hblank Hshape].
  split; [done|]. split.
  - destruct Hshape as [[?|?]|[?|?]]; auto.
  - intros Hcase.
    destruct Hshape as [[(c & -> & _)|(c & ->)]|[(m & g & ->)|(g & ->)]];
      try done.
    + apply Hcase. unfold cell. by destruct (decide _).
    + by apply Hcase.
Qed.

Lemma parse_template_stores_witness :
  py "FI" ≠ py " " ∧
  (plain_value (py "FI") ∨ marked_value (py "FI") ∨
   (∃ m g, py "FI" = str_lower (CaseMap := Sample.unicode) (cell m g)) ∨
   (∃ g, py "FI" = str_upper (CaseMap := Sample.unicode) [g])) ∧
  ((∀ s, s ≠ [] → str_upper (CaseMap := Sample.unicode) s ≠ [] ∧
                  str_lower (CaseMap := Sample.unicode) s ≠ []) →
   py "FI" ≠ []).
Proof.
  assert (∃ self' h',
            _parse_template (H := Sample.unicode) [] blank_layout
              ligature_canvas Sample.iso_rows Layer.ODK [] = (Ok self', h') ∧
            glyph self' Layer.ODK_SHIFT (py "ae01") = Some (py "FI"))
    as (self' & h' & Hp & Hg).
  { eexists _, _. split; [vm_compute; reflexivity|reflexivity]. }
  assert (values_ok (parsed_value (cm := Sample.unicode)) blank_layout)
    as Hblank.
  { intros n k v Hv. by destruct n as [|[|[|[|[|[|n]]]]]]. }
  exact (parse_template_stores (cm := Sample.unicode) [] ligature_canvas
           Sample.iso_rows Layer.ODK blank_layout self' [] h' Hblank Hp
           _ _ _ Hg).
Defined.

(** C10 as stated fails: the shift value inferred for "ﬁ" is the
    two-character string "FI", which is neither a single character nor a
    dead-key cell. *)
Lemma parse_template_shape_counterexample :
  ∃ self' h',
    _parse_template (H := Sample.unicode) [] blank_layout ligature_canvas
      Sample.iso_rows Layer.ODK [] = (Ok self', h') ∧
    glyph self' Layer.ODK_SHIFT (py "ae01") = Some (py "FI") ∧
    ¬ cell_shape (py "FI").
Proof.
  eexists _, _. split; [vm_compute; reflexivity|].
  split; [reflexivity|].
  intros [(c & Hc & _)|(c & Hc)]; discriminate.
Qed.

(** ** Round trip through the grid *)

(** C1 fails on the BASE/SHIFT pair.  Parsing [lossy_canvas], filling a
    fresh template from the model and parsing the result again loses the
    "=" (the filler omits the base cell because [upper_key "="] is the
    blank shift value, and the parser finds two blank cells), turns "ı" into
    "i" and "|" into "¦" (the filler omits a base cell whenever [upper_key]
    of it is the shift value, the parser restores it with [str.lower]). *)
Theorem roundtrip_base_pair_loses_keys :
  ∃ model h filled model' h',
    _parse_template (H := Sample.unicode) [] blank_layout lossy_canvas
      Sample.iso_rows Layer.BASE [] = (Ok model, h) ∧
    _fill_template (H := Sample.unicode) model Sample.iso_template
      Sample.iso_rows Layer.BASE = Ok filled ∧
    _parse_template (H := Sample.unicode) [] blank_layout filled
      Sample.iso_rows Layer.BASE [] = (Ok model', h') ∧
    glyph model Layer.BASE (py "ae01") = Some (py "=") ∧
    glyph model' Layer.BASE (py "ae01") = None ∧
    glyph model Layer.BASE (py "ae02") = Some [0x131%N] ∧
    glyph model' Layer.BASE (py "ae02") = Some (py "i") ∧
    glyph model Layer.BASE (py "ae03") = Some (py "|") ∧
    glyph model' Layer.BASE (py "ae03") = Some [0xa6%N].
Proof.
  eexists _, _, _, _, _.
  split; [vm_compute; reflexivity|].
  split; [vm_compute; reflexivity|].
  split; [vm_compute; reflexivity|].
  repeat split; reflexivity.
Qed.

(** ** Dictionaries with distinct keys, heaps *)

Section dict_nodup.
Context {V : Type}.
Implicit Types (d : dict V) (k : str) (v : V).

Lemma dict_keys_set d k v :
  dict_keys (dict_set d k v)
  = if decide (k ∈ dict_keys d) then dict_keys d else dict_keys d ++ [k].
Proof.
  unfold dict_keys. induction d as [|[k' v'] d IH]; [done|].
  cbn [dict_set fmap list_fmap fst].
  destruct (decide (k' = k)) as [->|Hne]; cbn [fmap list_fmap fst].
  - rewrite decide_True; [done|]. left.
  - rewrite IH. destruct (decide (k ∈ fst <$> d)) as [Hin|Hnin].
    + rewrite decide_True; [done|]. by right.
    + rewrite decide_False; [done|].
      intros [?|?]%elem_of_cons; congruence.
Qed.

Lemma dict_set_NoDup_keys d k v :
  NoDup (dict_keys d) → NoDup (dict_keys (dict_set d k v)).
Proof.
  intros Hnd. rewrite dict_keys_set. case_decide; [done|].
  apply NoDup_app. split; [done|]. split; [|apply NoDup_singleton].
  intros x Hx ->%list_elem_of_singleton. done.
Qed.

Lemma dict_set_NoDup_values d k v :
  NoDup (dict_values d) → v ∉ dict_values d →
  NoDup (dict_values (dict_set d k v)).
Proof.
  unfold dict_values.
  induction d as [|[k' v'] d IH]; simpl; intros Hnd Hv.
  - apply NoDup_singleton.
  - apply NoDup_cons in Hnd as [Hv' Hnd].
    apply not_elem_of_cons in Hv as [Hne Hv].
    destruct (decide (k' = k)) as [->|Hk]; simpl.
    + apply NoDup_cons. by split.
    + apply NoDup_cons. split; [|by apply IH].
      intros [?|?]%(dict_set_values d k v v'); [congruence|done].
Qed.

Lemma dict_get_elem d k v :
  NoDup (dict_keys d) → (k, v) ∈ d → dict_get d k = Some v.
Proof.
  induction d as [|[k' v'] d IH]; simpl; intros Hnd Hin.
  - by apply elem_of_nil in Hin.
  - apply NoDup_cons in Hnd as [Hk' Hnd].
    apply elem_of_cons in Hin as [[= -> ->]|Hin].
    + by rewrite decide_True.
    + rewrite decide_False; [by apply IH|].
      intros ->. apply Hk'. apply list_elem_of_fmap. by exists (k, v).
Qed.

Lemma dict_values_inj d k k' v :
  NoDup (dict_values d) → (k, v) ∈ d → (k', v) ∈ d → k = k'.
Proof.
  unfold dict_values.
  induction d as [|[k0 v0] d IH]; simpl; intros Hnd Hin Hin'.
  - by apply elem_of_nil in Hin.
  - apply NoDup_cons in Hnd as [Hv0 Hnd].
    apply elem_of_cons in Hin as [Heq|Hin];
      apply elem_of_cons in Hin' as [Heq'|Hin']; simplify_eq.
    + done.
    + destruct Hv0. apply list_elem_of_fmap. by exists (k', v0).
    + destruct Hv0. apply list_elem_of_fmap. by exists (k, v0).
    + by apply IH.
Qed.
End dict_nodup.

Lemma deref_app_l (h k : heap) (l : loc) :
  l < length h → deref (h ++ k) l = deref h l.
Proof. intros Hl. unfold deref. by rewrite lookup_app_l. Qed.

Lemma deref_app_new (h : heap) (d : dead_key) :
  deref (h ++ [d]) (length h) = d.
Proof. unfold deref. by rewrite list_lookup_middle. Qed.

Lemma deref_prefix (h0 h : heap) (l : loc) :
  h0 `prefix_of` h → l < length h0 → deref h l = deref h0 l.
Proof. intros [k ->] Hl. by apply deref_app_l. Qed.

Lemma deref_alter_eq (h : heap) (l : loc) f :
  l < length h → deref (alter f l h) l = f (deref h l).
Proof.
  intros Hl. unfold deref. rewrite list_lookup_alter_eq.
  destruct (lookup_lt_is_Some_2 h l Hl) as [d ->]. done.
Qed.

Lemma deref_alter_ne (h : heap) (l l' : loc) f :
  l ≠ l' → deref (alter f l h) l' = deref h l'.
Proof. intros Hl. unfold deref. by rewrite list_lookup_alter_ne. Qed.

Lemma prefix_alter_ge (h0 h : heap) (l : loc) f :
  h0 `prefix_of` h → length h0 ≤ l → h0 `prefix_of` alter f l h.
Proof.
  intros [k ->] Hl. rewrite alter_app_r_alt by done. by eexists.
Qed.

(** ** The dead keys of a layout are copies *)

Section copies.
Context {cm : CaseMap}.
Variable DEAD_KEYS : list loc.
Variable h0 : heap.

Lemma dk_inv_ext self self' h :
  dead_keys self' = dead_keys self → (dk_inv DEAD_KEYS h0) self h → (dk_inv DEAD_KEYS h0) self' h.
Proof. unfold dk_inv, dk_alloc, dk_copies. by intros ->. Qed.

Lemma dk_inv_framed self h e : (dk_inv DEAD_KEYS h0) self h → (framed h0) e h.
Proof. by intros [[? _] _]. Qed.

Lemma register_copy_inv key c self h :
  (dk_inv DEAD_KEYS h0) self h → c ∈ DEAD_KEYS → key = dk_char (deref h c) →
  wp (register_copy key c self) (dk_inv DEAD_KEYS h0) (framed h0) h.
Proof.
  intros [(Hpre & Hk & Hv & Hfresh) Hcopies] Hc Hkey.
  unfold register_copy. apply wp_bind, wp_copy, wp_ret.
  assert (length h ∉ dict_values (dead_keys self)) as Hnew.
  { intros ([id l] & Hl & Hin)%list_elem_of_fmap. simpl in Hl. subst l.
    apply Hfresh in Hin. lia. }
  split; [split; [|split; [|split]]|]; simpl.
  - by apply prefix_app_r.
  - by apply dict_set_NoDup_keys.
  - by apply dict_set_NoDup_values.
  - intros id l [[= -> ->]|Hin]%dict_set_elem.
    + apply prefix_length in Hpre. rewrite length_app. simpl. lia.
    + apply Hfresh in Hin. rewrite length_app. simpl. lia.
  - intros id l [[= -> ->]|Hin]%dict_set_elem.
    + exists c. split; [done|]. intros Hlt.
      rewrite deref_app_new, Hkey. by rewrite (deref_prefix h0 h).
    + destruct (Hcopies _ _ Hin) as (c' & Hc' & Hcopy).
      exists c'. split; [done|]. intros Hlt.
      destruct (Hcopy Hlt) as [? ?]. split; [done|].
      rewrite deref_app_l; [done|]. apply Hfresh in Hin. lia.
Qed.

Lemma register_dead_key_inv b s self c h :
  (dk_inv DEAD_KEYS h0) self h → c ∈ DEAD_KEYS →
  wp (register_dead_key b s self c) (dk_inv DEAD_KEYS h0) (framed h0) h.
Proof.
  intros Hinv Hc. unfold register_dead_key.
  apply wp_bind, wp_load, wp_bind.
  eapply wp_mono with (Q := (dk_inv DEAD_KEYS h0)) (E := (framed h0)); [|done|].
  - intros self' h' Hinv'. apply wp_bind, wp_load.
    rewrite str_eqb_decide. case_decide.
    + by apply register_copy_inv.
    + by apply wp_ret.
  - rewrite str_eqb_decide. case_decide.
    + by apply register_copy_inv.
    + by apply wp_ret.
Qed.

Lemma store_glyph_dead_keys self n key v self1 :
  (if negb (str_eqb v (py " ")) then set_layer_item self n key v
   else Ok self) = Ok self1 →
  dead_keys self1 = dead_keys self.
Proof.
  destruct (negb _); [|by intros [= <-]].
  by intros (d & _ & ->)%set_layer_item_inv.
Qed.

Lemma parse_key_inv ln base shift self i key h :
  (dk_inv DEAD_KEYS h0) self h →
  wp (parse_key DEAD_KEYS ln base shift self i key) (dk_inv DEAD_KEYS h0) (framed h0) h.
Proof.
  intros Hinv. unfold parse_key.
  apply wp_bind, wp_lift. destruct (read_cell base i) as [b|];
    [|by eapply dk_inv_framed].
  apply wp_bind, wp_lift. destruct (read_cell shift i) as [s|];
    [|by eapply dk_inv_framed].
  cbv zeta.
  apply wp_bind, wp_lift.
  destruct (if negb (str_eqb (expand_base ln b s) _) then _ else _)
    as [self1|] eqn:H1; [|by eapply dk_inv_framed].
  apply wp_bind, wp_lift.
  destruct (if negb (str_eqb (expand_shift ln _ s) _) then _ else _)
    as [self2|] eqn:H2; [|by eapply dk_inv_framed].
  apply store_glyph_dead_keys in H1, H2.
  apply wp_for_each_inv.
  - intros c self3 h3 Hc Hinv3. by apply register_dead_key_inv.
  - eapply dk_inv_ext; [|exact Hinv]. congruence.
Qed.

Lemma parse_template_inv template rows ln self h :
  (dk_inv DEAD_KEYS h0) self h →
  wp (_parse_template DEAD_KEYS self template rows ln) (dk_inv DEAD_KEYS h0) (framed h0) h.
Proof.
  intros Hinv. unfold _parse_template. apply wp_bind.
  eapply wp_mono; [| |apply (wp_for_each_inv _ rows
    (λ sj h, (dk_inv DEAD_KEYS h0) sj.1 h) (framed h0))].
  - intros sj h' Hsj. by apply wp_ret.
  - done.
  - intros r [self1 j] h1 _ Hinv1. simpl in Hinv1.
    apply wp_bind. unfold parse_row.
    apply wp_bind, wp_lift. destruct (py_index _ _) as [base|];
      [|by eapply dk_inv_framed].
    apply wp_bind, wp_lift. destruct (py_index _ _) as [shift|];
      [|by eapply dk_inv_framed].
    apply wp_bind.
    eapply wp_mono; [| |apply (wp_for_each_inv _ (keys r)
      (λ si h, (dk_inv DEAD_KEYS h0) si.1 h) (framed h0))].
    + intros si h2 Hsi. apply wp_ret. by apply wp_ret.
    + done.
    + intros key [self2 i] h2 _ Hinv2. simpl in Hinv2.
      apply wp_bind.
      eapply wp_mono; [| |by apply parse_key_inv]; [|done].
      intros self3 h3 Hinv3. by apply wp_ret.
    + done.
  - done.
Qed.
End copies.

(** ** Pruning *)

Lemma py_index_nat_inv {A} (l : list A) (k : nat) (x : A) :
  py_index l (Z.of_nat k) = Ok x → l !! k = Some x.
Proof.
  unfold py_index, norm_index.
  destruct (Z.ltb_spec (Z.of_nat k) 0); [lia|].
  destruct (Z.leb_spec 0 (Z.of_nat k)); [|lia].
  destruct (Z.ltb_spec (Z.of_nat k) (Z.of_nat (length l))); [|done].
  simpl. rewrite Nat2Z.id. by destruct (l !! k); intros [= ->].
Qed.

Lemma seq_middle (n : nat) (done todo : list nat) (x : nat) :
  seq 0 n = done ++ x :: todo → x = length done.
Proof.
  intros Hseq.
  assert (seq 0 n !! length done = Some x) as Hx
    by (rewrite Hseq; apply list_lookup_middle; done).
  apply lookup_seq in Hx as [-> _]. done.
Qed.

Lemma occurs_spec self n c :
  occurs self n c = true ↔ ∃ key, glyph self n key = Some [c].
Proof.
  unfold occurs. rewrite existsb_exists. split.
  - intros (key & _ & Hkey). apply bool_decide_eq_true in Hkey. by exists key.
  - intros [key Hkey]. exists key. split; [|by apply bool_decide_eq_true].
    apply list_elem_of_In. unfold glyph, layer_keys in *.
    destruct (layers self !! n) as [d|]; [|done]. simpl in Hkey.
    destruct (decide (key ∈ dict_keys d)) as [|Hnin]; [done|].
    apply dict_get_None_keys in Hnin. congruence.
Qed.

Lemma existsb_pointwise {A} (f g : A → bool) (l : list A) :
  (∀ x, f x = g x) → existsb f l = existsb g l.
Proof. intros Hfg. induction l as [|x l IH]; simpl; [done|]. by rewrite Hfg, IH. Qed.

Lemma find_pointwise {A} (f g : A → bool) (l : list A) :
  (∀ x, f x = g x) → List.find f l = List.find g l.
Proof. intros Hfg. induction l as [|x l IH]; simpl; [done|]. by rewrite Hfg, IH. Qed.

Lemma value_test (o : option str) (v : str) :
  match o with Some w => str_eqb w v | None => false end
  = bool_decide (o = Some v).
Proof.
  destruct o as [w|]; [|done]. unfold str_eqb.
  apply bool_decide_ext. split; [by intros ->|by intros [= ->]].
Qed.

Lemma layer_has_char_inv self c n r :
  layer_has_char self [c] n = Ok r → r = occurs self n c.
Proof.
  unfold layer_has_char, get_layer, occurs, layer_keys, glyph.
  destruct (layers self !! n) as [d|]; [|done]. intros [= <-].
  simpl. apply existsb_pointwise. intros id. apply value_test.
Qed.

Lemma prune_step_inv self base alt used i used' :
  prune_step self base alt used i = Ok used' →
  ∃ b, base !! i = Some b ∧
       if reachable self b
       then ∃ a, alt !! i = Some a ∧ used' = (used.1 ++ [b], used.2 ++ [a])
       else used' = used.
Proof.
  unfold prune_step. intros Hstep.
  apply bind_Ok in Hstep as (b & Hb & Hstep).
  apply bind_Ok in Hstep as (in_base & Hin_base & Hstep).
  apply py_index_nat_inv in Hb. apply layer_has_char_inv in Hin_base.
  exists b. split; [done|]. unfold reachable. rewrite <-Hin_base.
  assert (∀ r : result (str * str),
            (b0 ← py_index base (Z.of_nat i);
             a ← py_index alt (Z.of_nat i);
             mret (used.1 ++ [b0], used.2 ++ [a])) = r → r = Ok used' →
            ∃ a, alt !! i = Some a ∧ used' = (used.1 ++ [b], used.2 ++ [a]))
    as Hkeep.
  { intros r <- Hr. apply bind_Ok in Hr as (b0 & Hb0 & Hr).
    apply bind_Ok in Hr as (a & Ha & Hr).
    apply py_index_nat_inv in Hb0, Ha. cbv [mret result_ret] in Hr.
    simplify_eq. by exists a. }
  destruct in_base; simpl.
  - by eapply Hkeep.
  - apply bind_Ok in Hstep as (in_shift & Hin_shift & Hstep).
    apply layer_has_char_inv in Hin_shift. rewrite <-Hin_shift.
    destruct in_shift; [by eapply Hkeep|].
    cbv [mret result_ret] in Hstep. by simplify_eq.
Qed.

Lemma prune_loop self base alt used :
  for_each_r (prune_step self base alt) (seq 0 (length base)) ([], [])
  = Ok used →
  used = ((filter (λ p, reachable self p.1) (zip base alt)).*1,
          (filter (λ p, reachable self p.1) (zip base alt)).*2).
Proof.
  intros Hloop.
  set (P := λ p : char * char, Is_true (reachable self p.1)).
  set (I := λ (done : list nat) (u : str * str),
         u = ((filter P (take (length done) (zip base alt))).*1,
              (filter P (take (length done) (zip base alt))).*2)).
  assert (I (seq 0 (length base)) used) as Hfinal.
  { apply (for_each_r_inv (prune_step self base alt) _ I ([], []));
      [|done|exact Hloop].
    clear Hloop. intros done x todo u u' Hseq Hu Hstep.
    unfold I in *. subst u.
    apply seq_middle in Hseq as ->.
    apply prune_step_inv in Hstep as (b & Hb & Hstep).
    rewrite length_app, Nat.add_1_r. simpl in Hstep.
    destruct (reachable self b) eqn:Hreach.
    - destruct Hstep as (a & Ha & ->).
      rewrite (take_S_r _ _ (b, a)).
      2: { apply lookup_zip_with_Some. by exists b, a. }
      rewrite filter_app, (filter_singleton_True P (b, a) []), !fmap_app;
        [done|].
      unfold P. simpl. by rewrite Hreach.
    - subst u'. destruct (alt !! length done) as [a|] eqn:Ha.
      + rewrite (take_S_r _ _ (b, a)).
        2: { apply lookup_zip_with_Some. by exists b, a. }
        rewrite filter_app, (filter_singleton_False P (b, a) []), app_nil_r;
          [done|].
        unfold P. simpl. rewrite Hreach. by intros [].
      + assert (length (zip base alt) ≤ length done) as Hlen.
        { apply lookup_ge_None. apply lookup_zip_with_None. by right. }
        rewrite !take_ge by lia. done. }
  unfold I in Hfinal. rewrite Hfinal, length_seq, take_ge; [done|].
  rewrite length_zip_with. lia.
Qed.

Section pruning.
Variable h0 : heap.

Lemma prune_dead_key_spec self id l h :
  dict_get (dead_keys self) id = Some l →
  wp (prune_dead_key self tt id)
     (λ _ h', h' = alter (set_alt (pruned_pairs self (deref h l)).*2) l
                     (alter (set_base (pruned_pairs self (deref h l)).*1) l h))
     (λ _ h', h' = h) h.
Proof.
  intros Hl. unfold prune_dead_key, dict_item. rewrite Hl.
  apply wp_bind, wp_lift, wp_bind, wp_load, wp_bind, wp_load.
  apply wp_bind, wp_lift.
  destruct (for_each_r _ _ _) as [used|] eqn:Hloop; [|done].
  apply prune_loop in Hloop as ->.
  apply wp_bind, wp_store, wp_store. done.
Qed.

Lemma prune_dead_keys_spec self hb :
  dk_alloc h0 self hb →
  wp (prune_dead_keys self)
     (λ _ h, h0 `prefix_of` h ∧ length h = length hb ∧
             ∀ id l, (id, l) ∈ dead_keys self →
                     deref h l = pruned self (deref hb l))
     (framed h0) hb.
Proof.
  intros (Hpre & Hk & Hv & Hfresh). unfold prune_dead_keys.
  eapply wp_mono; [| |apply (wp_for_each _ _
    (λ done _ h, h0 `prefix_of` h ∧ length h = length hb ∧
       ∀ id l, (id, l) ∈ dead_keys self →
         deref h l = if decide (id ∈ done) then pruned self (deref hb l)
                     else deref hb l) (framed h0))].
  - intros [] h (? & ? & Hall). do 2 (split; [done|]).
    intros id l Hin. rewrite (Hall id l Hin). rewrite decide_True; [done|].
    apply list_elem_of_fmap. by exists (id, l).
  - done.
  - intros done x todo [] h Hkeys (Hpre' & Hlen & Hall).
    assert (x ∉ done) as Hx.
    { rewrite Hkeys in Hk. apply NoDup_app in Hk as (_ & Hk & _).
      intros Hin. apply (Hk x Hin). left. }
    destruct (dict_get (dead_keys self) x) as [l|] eqn:Hl.
    2: { apply dict_get_None_keys in Hl. destruct Hl. rewrite Hkeys.
         apply elem_of_app. right. left. }
    pose proof (dict_get_Some_elem _ _ _ Hl) as Hin.
    pose proof (Hfresh _ _ Hin) as Hrange.
    eapply wp_mono; [| |by apply prune_dead_key_spec].
    + intros [] h' ->.
      split; [apply prefix_alter_ge; [apply prefix_alter_ge|]; (done || lia)|].
      split; [by rewrite !length_alter|].
      intros id' l' Hin'. destruct (decide (id' = x)) as [->|Hne].
      * assert (l' = l) as ->.
        { apply (dict_get_elem _ _ _ Hk) in Hin'. congruence. }
        rewrite decide_True by (apply elem_of_app; right; left).
        rewrite deref_alter_eq by (rewrite length_alter; lia).
        rewrite deref_alter_eq by lia.
        rewrite (Hall _ _ Hin), decide_False by done. done.
      * assert (l ≠ l') as Hll.
        { intros <-. apply Hne. by eapply dict_values_inj. }
        rewrite !deref_alter_ne by done. rewrite (Hall _ _ Hin').
        destruct (decide (id' ∈ done)).
        -- rewrite decide_True; [done|]. apply elem_of_app. by left.
        -- rewrite decide_False; [done|].
           intros [?|?%list_elem_of_singleton]%elem_of_app; done.
    + intros e h' ->. done.
  - do 2 (split; [done|]). intros id l _. rewrite decide_False; [done|].
    apply not_elem_of_nil.
Qed.
End pruning.

(** ** The one-dead-key *)

Lemma append_pairs_nil d : append_pairs [] d = d.
Proof.
  unfold append_pairs, set_alt, set_base. destruct d. simpl.
  by rewrite !app_nil_r.
Qed.

Lemma append_pairs_app ps qs d :
  append_pairs qs (append_pairs ps d) = append_pairs (ps ++ qs) d.
Proof.
  unfold append_pairs, set_alt, set_base. simpl.
  by rewrite !fmap_app, !join_app, !app_assoc.
Qed.

Lemma alter_append_pairs ps qs (odk : loc) (h : heap) :
  alter (append_pairs qs) odk (alter (append_pairs ps) odk h)
  = alter (append_pairs (ps ++ qs)) odk h.
Proof.
  rewrite list_alter_alter_eq. apply list_alter_ext; [|done].
  intros d _. apply append_pairs_app.
Qed.

Section odk.
Variable ODK_ID : str.

Lemma odk_append_spec self odk i li item h :
  layers self !! i = Some li → odk < length h →
  wp (odk_append ODK_ID self odk i tt item)
     (λ _ h', is_Some (dict_get li item.1) ∧
              h' = alter (append_pairs (odk_item_pairs ODK_ID li item)) odk h)
     (λ e h', e = KeyError item.1 ∧ dict_get li item.1 = None ∧ h' = h) h.
Proof.
  intros Hli Hodk. destruct item as [name alt_char].
  unfold odk_append, get_layer, dict_item, odk_item_pairs. rewrite Hli.
  simpl. apply wp_bind, wp_lift, wp_bind, wp_lift.
  destruct (dict_get li name) as [base_char|]; [|done].
  destruct (negb _ && negb _).
  - apply wp_bind, wp_load, wp_bind, wp_store, wp_bind, wp_load, wp_store.
    split; [done|].
    rewrite list_alter_alter_eq. apply list_alter_ext; [|done].
    intros d Hd. rewrite deref_alter_eq by done. unfold deref. rewrite Hd.
    simpl. unfold append_pairs. simpl. by rewrite !app_nil_r.
  - apply wp_ret. split; [done|]. symmetry. apply list_alter_id.
    apply append_pairs_nil.
Qed.

Lemma odk_append_loop self odk i li items h :
  layers self !! i = Some li → odk < length h →
  wp (for_each (odk_append ODK_ID self odk i) items tt)
     (λ _ h', Forall (λ item, is_Some (dict_get li item.1)) items ∧
              h' = alter (append_pairs (items ≫= odk_item_pairs ODK_ID li))
                     odk h)
     (λ e h', ∃ item ps, item ∈ items ∧ e = KeyError item.1 ∧
                         dict_get li item.1 = None ∧
                         h' = alter (append_pairs ps) odk h) h.
Proof.
  intros Hli Hodk.
  eapply wp_mono; [| |apply (wp_for_each _ items
    (λ done _ h',
       Forall (λ item, is_Some (dict_get li item.1)) done ∧
       h' = alter (append_pairs (done ≫= odk_item_pairs ODK_ID li)) odk h)
    (λ e h', ∃ item ps, item ∈ items ∧ e = KeyError item.1 ∧
                        dict_get li item.1 = None ∧
                        h' = alter (append_pairs ps) odk h))].
  - done.
  - done.
  - intros done item todo [] h' Hitems [Hall ->].
    eapply wp_mono; [| |apply (odk_append_spec _ _ _ li)]; try done.
    + intros [] h'' [Hsome ->]. split.
      * apply Forall_app. split; [done|]. by apply Forall_singleton.
      * rewrite alter_append_pairs, bind_app, bind_singleton. done.
    + intros e h'' (-> & Hnone & ->). exists item. eexists.
      split; [|done]. rewrite Hitems. apply elem_of_app. right. left.
    + by rewrite length_alter.
  - split; [done|]. symmetry. apply list_alter_id, append_pairs_nil.
Qed.

(** The loop raises as soon as a key of the ODK plane misses in the base
    plane. *)
Lemma odk_append_loop_raises self odk i li items h :
  layers self !! i = Some li → odk < length h →
  ¬ Forall (λ item : str * str, is_Some (dict_get li item.1)) items →
  ∃ item h', for_each (odk_append ODK_ID self odk i) items tt h
             = (Raise (KeyError item.1), h') ∧
             item ∈ items ∧ dict_get li item.1 = None.
Proof.
  intros Hli Hodk Hmiss.
  pose proof (odk_append_loop self odk i li items h Hli Hodk) as Hwp.
  unfold wp in Hwp.
  destruct (for_each _ items tt h) as [[[]|e] h'].
  - by destruct Hwp as [? _].
  - destruct Hwp as (item & ps & Hin & -> & Hnone & _). by exists item, h'.
Qed.
End odk.

Section odk_behavior.
Variable ODK_ID : str.

Lemma layer_items_lookup self n :
  n < length (layers self) → layers self !! n = Some (layer_items self n).
Proof.
  intros Hn. unfold layer_items.
  by destruct (lookup_lt_is_Some_2 _ _ Hn) as [d ->].
Qed.

Lemma get_layer_items self n :
  n < length (layers self) → get_layer self n = Ok (layer_items self n).
Proof. intros Hn. unfold get_layer. by rewrite layer_items_lookup. Qed.

Lemma odk_alt_self_spec self odk h :
  length (layers self) = 6 →
  wp (odk_alt_self ODK_ID self odk)
     (λ _ h', (∀ key, trigger_key ODK_ID self = Some key →
                      is_Some (dict_get (layer_items self Layer.ODK) key)) ∧
              h' = alter (alt_self_update ODK_ID self) odk h)
     (λ e h', (∃ k, e = KeyError k) ∧ h' = h) h.
Proof.
  intros Hlen. unfold odk_alt_self, alt_self_update, trigger_key.
  rewrite (get_layer_items self Layer.BASE) by (unfold Layer.BASE; lia).
  apply wp_bind, wp_lift.
  rewrite (find_pointwise _
    (λ key, bool_decide (glyph self Layer.BASE key = Some ODK_ID))).
  2: { intros key. rewrite value_test. unfold glyph.
       rewrite (layer_items_lookup self Layer.BASE)
         by (unfold Layer.BASE; lia). done. }
  destruct (List.find _ _) as [key|]; simpl.
  - rewrite (get_layer_items self Layer.ODK) by (unfold Layer.ODK; lia).
    apply wp_bind, wp_lift, wp_bind, wp_lift. unfold dict_item.
    destruct (dict_get _ key) as [v|] eqn:Hv; [|by eauto].
    apply wp_store. split; [|done]. intros key' [= <-]. by rewrite Hv.
  - apply wp_ret. split; [done|]. symmetry. by apply list_alter_id.
Qed.

Lemma odk_copy_layers_spec self odk h :
  length (layers self) = 6 → odk < length h →
  wp (odk_copy_layers ODK_ID self odk)
     (λ _ h', (∀ i name, i = Layer.BASE ∨ i = Layer.SHIFT →
                         ¬ odk_missing self i name) ∧
              h' = alter (append_pairs (odk_pairs ODK_ID self Layer.BASE
                                        ++ odk_pairs ODK_ID self Layer.SHIFT))
                     odk h)
     (λ e h', (∃ i name, (i = Layer.BASE ∨ i = Layer.SHIFT) ∧
                         e = KeyError name ∧ odk_missing self i name) ∧
              ∃ g, h' = alter g odk h) h.
Proof.
  intros Hlen Hodk. unfold odk_copy_layers. cbn [for_each].
  assert (∀ i, i = Layer.BASE ∨ i = Layer.SHIFT →
            layers self !! i = Some (layer_items self i) ∧
            get_layer self (i + Layer.ODK)
            = Ok (layer_items self (i + Layer.ODK))) as Hlayers.
  { intros i [-> | ->]; (split;
      [apply layer_items_lookup|apply get_layer_items]);
      unfold Layer.BASE, Layer.SHIFT, Layer.ODK; lia. }
  assert (∀ i name,
            Forall (λ item : str * str,
                      is_Some (dict_get (layer_items self i) item.1))
                   (layer_items self (i + Layer.ODK)) →
            ¬ odk_missing self i name) as Hpresent.
  { intros i name Hall [Hin Hnone].
    apply list_elem_of_fmap in Hin as ([name' v] & -> & Hin).
    rewrite Forall_forall in Hall. apply Hall in Hin. simpl in *.
    rewrite Hnone in Hin. by destruct Hin. }
  assert (∀ i item, item ∈ layer_items self (i + Layer.ODK) →
            dict_get (layer_items self i) item.1 = None →
            odk_missing self i item.1) as Hmissing.
  { intros i item Hin Hnone. split; [|done]. by apply list_elem_of_fmap_2. }
  destruct (Hlayers Layer.BASE) as [Hb Hbo]; [by left|].
  destruct (Hlayers Layer.SHIFT) as [Hs Hso]; [by right|].
  apply wp_bind, wp_bind. rewrite Hbo. apply wp_lift.
  eapply wp_mono; [| |by apply (odk_append_loop ODK_ID self odk _ _ _ h Hb)].
  - intros [] h1 [Hall1 ->]. apply wp_bind, wp_bind. rewrite Hso.
    apply wp_lift.
    eapply wp_mono; [| |apply (odk_append_loop ODK_ID self odk _ _ _ _ Hs)].
    + intros [] h2 [Hall2 ->]. apply wp_ret. split.
      * intros i name [-> | ->]; by apply Hpresent.
      * apply alter_append_pairs.
    + intros e h2 (item & ps & Hin & -> & Hnone & ->). split.
      * exists Layer.SHIFT, item.1. split; [by right|]. split; [done|].
        by apply Hmissing.
      * rewrite alter_append_pairs. by eexists.
    + by rewrite length_alter.
  - intros e h1 (item & ps & Hin & -> & Hnone & ->). split.
    + exists Layer.BASE, item.1. split; [by left|]. split; [done|].
      by apply Hmissing.
    + by eexists.
Qed.
End odk_behavior.

Lemma wp_conj {A} (m : M A) (Q1 Q2 : A → heap → Prop)
  (E1 E2 : exn → heap → Prop) h :
  wp m Q1 E1 h → wp m Q2 E2 h →
  wp m (λ a h', Q1 a h' ∧ Q2 a h') (λ e h', E1 e h' ∧ E2 e h') h.
Proof. unfold wp. by destruct (m h) as [[a|e] h']. Qed.

Section odk_synthesis.
Variable ODK_ID : str.

Lemma odk_behavior_spec spc self h :
  length (layers self) = 6 →
  (∀ odk, dict_get (dead_keys self) ODK_ID = Some odk → odk < length h) →
  wp (odk_behavior ODK_ID spc self)
     (λ self' h',
        match dict_get (dead_keys self) ODK_ID with
        | Some odk =>
            self' = with_has_1dk true self ∧
            ((∀ i name, i = Layer.BASE ∨ i = Layer.SHIFT →
                        ¬ odk_missing self i name) ∧
             (∀ key, trigger_key ODK_ID self = Some key →
                     is_Some (dict_get (layer_items self Layer.ODK) key))) ∧
            ∃ v, dict_get spc (py "1dk") = Some v ∧
                 h' = alter (odk_final ODK_ID v self) odk h
        | None => self' = self ∧ h' = h
        end)
     (λ e h', (∃ k, e = KeyError k) ∧
              ∃ odk g, dict_get (dead_keys self) ODK_ID = Some odk ∧
                       h' = alter g odk h) h.
Proof.
  intros Hlen Hvalid. unfold odk_behavior, dict_in.
  destruct (dict_get (dead_keys self) ODK_ID) as [odk|] eqn:Hodk;
    [|by apply wp_ret].
  specialize (Hvalid odk eq_refl).
  cbv zeta. change (dead_keys (with_has_1dk true self)) with (dead_keys self).
  unfold dict_item. rewrite Hodk.
  apply wp_bind, wp_lift, wp_bind, wp_lift.
  destruct (dict_get spc (py "1dk")) as [v|].
  2: { split; [by eauto|]. exists odk, id. split; [done|].
       symmetry. by apply list_alter_id. }
  apply wp_bind, wp_store, wp_bind.
  eapply wp_mono;
    [| |apply (odk_alt_self_spec ODK_ID (with_has_1dk true self)); done].
  - intros [] h1 [Htrigger ->]. apply wp_bind.
    eapply wp_mono;
      [| |apply (odk_copy_layers_spec ODK_ID (with_has_1dk true self));
          [done|by rewrite !length_alter]].
    + intros [] h2 [Hpresent ->]. apply wp_ret.
      split; [done|]. split; [by split|]. exists v. split; [done|].
      rewrite !list_alter_alter_eq. done.
    + intros e h2 [(i & name & _ & -> & _) [g ->]]. split; [by eauto|].
      exists odk. eexists. split; [done|].
      rewrite !list_alter_alter_eq. done.
  - intros e h1 [Hk ->]. split; [done|]. exists odk. by eexists.
Qed.
End odk_synthesis.

(** ** The phases of [__init__] keep what they do not assign *)

Lemma stable_refl self : stable self self.
Proof. done. Qed.

Lemma stable_trans s1 s2 s3 : stable s1 s2 → stable s2 s3 → stable s1 s3.
Proof. intros [? ?] [? ?]. split; congruence. Qed.

Lemma set_layer_item_stable self n key v self' :
  set_layer_item self n key v = Ok self' → stable self self'.
Proof.
  intros (d & _ & ->)%set_layer_item_inv. split; [|done].
  simpl. apply length_insert.
Qed.

Lemma store_glyph_stable self n key v self1 :
  (if negb (str_eqb v (py " ")) then set_layer_item self n key v
   else Ok self) = Ok self1 →
  stable self self1.
Proof.
  destruct (negb _); [apply set_layer_item_stable|by intros [= <-]].
Qed.

Section stable_parse.
Context {cm : CaseMap}.
Variable DEAD_KEYS : list loc.

Lemma parse_key_stable ln base shift self i key h self' h' :
  parse_key DEAD_KEYS ln base shift self i key h = (Ok self', h') →
  stable self self'.
Proof.
  intros (b & s & _ & _ & Hrest)%parse_key_layers.
  cbv zeta in Hrest. destruct Hrest as (self1 & self2 & d & H1 & H2 & ->).
  apply store_glyph_stable in H1, H2.
  eapply stable_trans; [exact H1|]. eapply stable_trans; [exact H2|]. done.
Qed.

Lemma parse_template_stable template rows ln self h :
  wp (_parse_template DEAD_KEYS self template rows ln)
     (λ self' _, stable self self') (λ _ _, True) h.
Proof.
  unfold _parse_template. apply wp_bind.
  eapply wp_mono; [| |apply (wp_for_each_inv _ rows
    (λ sj _, stable self sj.1) (λ _ _, True))].
  - intros sj h' Hsj. by apply wp_ret.
  - done.
  - intros r [self1 j] h1 _ Hst1. simpl in Hst1.
    apply wp_bind. unfold parse_row.
    apply wp_bind, wp_lift. destruct (py_index _ _) as [base|]; [|done].
    apply wp_bind, wp_lift. destruct (py_index _ _) as [shift|]; [|done].
    apply wp_bind.
    eapply wp_mono; [| |apply (wp_for_each_inv _ (keys r)
      (λ si _, stable self si.1) (λ _ _, True))].
    + intros si h2 Hsi. apply wp_ret. by apply wp_ret.
    + done.
    + intros key [self2 i] h2 _ Hst2. simpl in Hst2.
      apply wp_bind. apply wp_intro; [|done].
      intros self3 h3 Hp. apply wp_ret. simpl.
      eapply stable_trans; [exact Hst2|]. by eapply parse_key_stable.
    + done.
  - done.
Qed.
End stable_parse.

Lemma set_layer_item_effect self n key v self' :
  set_layer_item self n key v = Ok self' →
  stable self self' ∧ dead_keys self' = dead_keys self ∧
  has_altgr self' = has_altgr self ∧
  ∀ n' k', glyph self' n' k'
           = if decide (n = n' ∧ key = k') then Some v else glyph self n' k'.
Proof.
  intros Hset. split; [by eapply set_layer_item_stable|].
  apply set_layer_item_inv in Hset as (d & Hd & ->).
  do 2 (split; [done|]). intros n' k'. by apply glyph_set_layer_item.
Qed.

Lemma init_spacebar_inv spc self self' :
  init_spacebar spc self = Ok self' →
  stable self self' ∧ dead_keys self' = dead_keys self ∧
  ∃ v, dict_get spc (py "1dk") = Some v ∧
       glyph self' Layer.ODK (py "spce") = Some v.
Proof.
  unfold init_spacebar. intros Hinit.
  apply bind_Ok in Hinit as (s1 & H1 & Hinit).
  apply bind_Ok in Hinit as (v1 & _ & Hinit).
  apply bind_Ok in Hinit as (s2 & H2 & Hinit).
  apply bind_Ok in Hinit as (v & Hv & Hinit).
  apply bind_Ok in Hinit as (s3 & H3 & Hinit).
  apply bind_Ok in Hinit as (v3 & _ & Hinit).
  apply bind_Ok in Hinit as (s4 & H4 & Hinit).
  apply set_layer_item_effect in H1 as (St1 & D1 & _ & _).
  apply set_layer_item_effect in H2 as (St2 & D2 & _ & _).
  apply set_layer_item_effect in H3 as (St3 & D3 & _ & G3).
  apply set_layer_item_effect in H4 as (St4 & D4 & _ & G4).
  assert (dict_get spc (py "1dk") = Some v) as Hv'.
  { unfold dict_item in Hv. by destruct (dict_get spc _); simplify_eq. }
  assert (stable self s4) as St by eauto using stable_trans.
  assert (glyph s4 Layer.ODK (py "spce") = Some v) as G.
  { rewrite G4, decide_False by (by intros [? _]).
    rewrite G3. by rewrite decide_True. }
  destruct (has_altgr s4).
  - apply bind_Ok in Hinit as (v5 & _ & Hinit).
    apply bind_Ok in Hinit as (s5 & H5 & Hinit).
    apply bind_Ok in Hinit as (v6 & _ & H6).
    apply set_layer_item_effect in H5 as (St5 & D5 & _ & G5).
    apply set_layer_item_effect in H6 as (St6 & D6 & _ & G6).
    split; [eauto using stable_trans|]. split; [congruence|].
    exists v. split; [done|].
    rewrite G6, decide_False by (by intros [? _]).
    rewrite G5, decide_False by (by intros [? _]). done.
  - cbv [mret result_ret] in Hinit. simplify_eq.
    split; [done|]. split; [congruence|]. by exists v.
Qed.

Lemma init_dk_index_spec DEAD_KEYS self h :
  wp (init_dk_index DEAD_KEYS self)
     (λ self' h', h' = h ∧ ∃ ix, self' = with_dk_index ix self)
     (λ _ _, False) h.
Proof.
  unfold init_dk_index. apply wp_for_each_inv.
  - intros dk self' h' _ [-> [ix ->]].
    apply wp_bind, wp_load. destruct (dict_in _ _).
    + apply wp_bind, wp_load, wp_ret. split; [done|]. by eexists.
    + apply wp_ret. split; [done|]. by eexists.
  - split; [done|]. exists (dk_index self). by destruct self.
Qed.

Section init_layers.
Context {cm : CaseMap}.
Variable DEAD_KEYS : list loc.
Variable text_to_lines : str → list str.
Variable h0 : heap.

Lemma parse_template_ok template rows ln self h :
  dk_inv DEAD_KEYS h0 self h →
  wp (_parse_template DEAD_KEYS self template rows ln)
     (λ self' h', dk_inv DEAD_KEYS h0 self' h' ∧ stable self self')
     (framed h0) h.
Proof.
  intros Hinv.
  eapply wp_mono; [| |apply wp_conj;
    [by apply (parse_template_inv DEAD_KEYS h0)
    |apply (parse_template_stable DEAD_KEYS)]].
  - done.
  - by intros e h' [? _].
Qed.

Lemma init_layers_ok cfg rows self h :
  dk_inv DEAD_KEYS h0 self h →
  wp (init_layers DEAD_KEYS text_to_lines cfg rows self)
     (λ self' h', dk_inv DEAD_KEYS h0 self' h' ∧ stable self self')
     (framed h0) h.
Proof.
  intros Hinv. unfold init_layers.
  assert (∀ k (K : str → M KeyboardLayout),
            (∀ t, wp (K t)
                    (λ self' h', dk_inv DEAD_KEYS h0 self' h' ∧
                                 stable self self') (framed h0) h) →
            wp (v ← lift (dict_item cfg k); t ← lift (as_text v); K t)
               (λ self' h', dk_inv DEAD_KEYS h0 self' h' ∧ stable self self')
               (framed h0) h) as Htext.
  { intros k K HK. apply wp_bind, wp_lift.
    destruct (dict_item cfg k) as [v|]; [|by eapply dk_inv_framed].
    apply wp_bind, wp_lift.
    destruct (as_text v) as [t|]; [|by eapply dk_inv_framed]. apply HK. }
  destruct (dict_in (py "full") cfg).
  - apply Htext. intros t. apply wp_bind.
    eapply wp_mono; [|done|by apply parse_template_ok].
    intros self1 h1 [Hinv1 Hst1]. apply wp_bind.
    eapply wp_mono; [|done|by apply parse_template_ok].
    intros self2 h2 [Hinv2 Hst2]. apply wp_ret. split.
    + by eapply dk_inv_ext; [|exact Hinv2].
    + eapply stable_trans; [exact Hst1|]. by destruct Hst2.
  - apply Htext. intros t. apply wp_bind.
    eapply wp_mono; [|done|by apply parse_template_ok].
    intros self1 h1 [Hinv1 Hst1]. apply wp_bind.
    eapply wp_mono; [|done|by apply parse_template_ok].
    intros self2 h2 [Hinv2 Hst2].
    assert (stable self self2) as Hst by eauto using stable_trans.
    destruct (dict_in (py "altgr") cfg); [|by apply wp_ret].
    cbv zeta. apply wp_bind, wp_lift.
    destruct (dict_item cfg _) as [v|]; [|by eapply dk_inv_framed].
    apply wp_bind, wp_lift.
    destruct (as_text v) as [t'|]; [|by eapply dk_inv_framed].
    eapply wp_mono; [|done|apply parse_template_ok].
    + intros self3 h3 [Hinv3 Hst3]. split; [done|].
      eapply stable_trans; [exact Hst|]. by destruct Hst3.
    + by eapply dk_inv_ext; [|exact Hinv2].
Qed.
End init_layers.

(** ** Metadata and the choice of the shape *)

Section metadata.
Context {cm : CaseMap}.
Variable today : str.

Lemma meta_step_get cfg m k0 k :
  k ≠ py "base" → k ≠ py "full" → k ≠ py "altgr" →
  dict_get (meta_step cfg m k0) k
  = if decide (k0 = k) then from_option Some (dict_get m k) (declared cfg k)
    else dict_get m k.
Proof.
  intros Hb Hf Ha. unfold meta_step, declared.
  destruct (decide (k0 = k)) as [->|Hne].
  - rewrite !str_eqb_decide, !decide_False by done. simpl.
    destruct (dict_get cfg k) as [[s|d]|]; simpl; [|done..].
    by rewrite dict_get_set_eq.
  - destruct (dict_get cfg k0) as [v|]; [|done].
    destruct (_ && _); [|done]. by rewrite dict_get_set_ne.
Qed.

Lemma meta_loop_get cfg keys m k :
  k ≠ py "base" → k ≠ py "full" → k ≠ py "altgr" →
  dict_get (foldl (meta_step cfg) m keys) k
  = if decide (k ∈ keys) then from_option Some (dict_get m k) (declared cfg k)
    else dict_get m k.
Proof.
  intros Hb Hf Ha. revert m.
  induction keys as [|k0 keys IH]; intros m; [done|].
  cbn [foldl]. rewrite IH, meta_step_get by done.
  destruct (decide (k0 = k)) as [->|Hne].
  - rewrite (decide_True (P := k ∈ k :: keys)) by left.
    destruct (declared cfg k); simpl; by destruct (decide _).
  - destruct (decide (k ∈ keys)) as [Hin|Hnin].
    + rewrite decide_True by (by right). done.
    + rewrite decide_False; [done|].
      intros [?|?]%elem_of_cons; congruence.
Qed.

Lemma init_meta_inv filename cfg self self' :
  init_meta today filename cfg self = Ok self' →
  dead_keys self' = dead_keys self ∧ layers self' = layers self ∧
  dict_get (meta self') (py "geometry")
  = from_option Some (dict_get (meta self) (py "geometry"))
      (declared cfg (py "geometry")).
Proof.
  unfold init_meta. intros Hinit.
  apply bind_Ok in Hinit as (name8 & _ & Hinit).
  apply bind_Ok in Hinit as (n8 & _ & Hinit).
  apply bind_Ok in Hinit as (file_name & _ & Hinit).
  cbv [mret result_ret] in Hinit. simplify_eq. simpl.
  do 2 (split; [done|]).
  rewrite !dict_get_set_ne by done.
  change (foldl _ (meta self) (dict_keys cfg))
    with (foldl (meta_step cfg) (meta self) (dict_keys cfg)).
  rewrite meta_loop_get by done.
  destruct (decide (py "geometry" ∈ dict_keys cfg)) as [Hin|Hnin]; [done|].
  apply dict_get_None_keys in Hnin. unfold declared. by rewrite Hnin.
Qed.
End metadata.

(** ** The finished model *)

Section compile.
Context {cm : CaseMap}.
Variable DEAD_KEYS : list loc.
Variable ODK_ID : str.
Variable GEOMETRY : dict geometry.
Variable text_to_lines : str → list str.
Variable today : str.

Lemma geometry_rows_inv self rows :
  geometry_rows GEOMETRY self = Ok rows →
  ∃ shape g, dict_get (meta self) (py "geometry") = Some (VStr shape) ∧
             dict_get GEOMETRY shape = Some g.
Proof.
  unfold geometry_rows, dict_item.
  destruct (dict_get (meta self) _) as [[shape|d]|]; simpl; [|done..].
  destruct (dict_get GEOMETRY shape) as [g|] eqn:Hg; [|done].
  intros _. by exists shape, g.
Qed.

Lemma init_meta_shape filename cfg self1 :
  init_meta today filename cfg blank_layout = Ok self1 →
  dict_get (meta self1) (py "geometry") = Some (VStr (selected_shape cfg)).
Proof.
  intros (_ & _ & ->)%init_meta_inv. unfold selected_shape, declared.
  by destruct (dict_get cfg (py "geometry")) as [[s|d]|].
Qed.
End compile.

Lemma pruned_layers self self' d :
  layers self' = layers self → pruned self' d = pruned self d.
Proof.
  intros Hl.
  unfold pruned, pruned_pairs, reachable, occurs, layer_keys, glyph.
  by rewrite Hl.
Qed.

Lemma odk_final_layers ODK_ID v self self' d :
  layers self' = layers self →
  odk_final ODK_ID v self' d = odk_final ODK_ID v self d.
Proof.
  intros Hl.
  unfold odk_final, odk_pairs, alt_self_update, trigger_key, layer_items,
    glyph.
  by rewrite Hl.
Qed.

Lemma odk_missing_layers self self' i name :
  layers self' = layers self →
  odk_missing self' i name ↔ odk_missing self i name.
Proof. intros Hl. unfold odk_missing, layer_items. by rewrite Hl. Qed.

Section compile_spec.
Context {cm : CaseMap}.
Variable DEAD_KEYS : list loc.
Variable ODK_ID : str.
Variable GEOMETRY : dict geometry.
Variable text_to_lines : str → list str.
Variable today : str.

Lemma dk_inv_blank h0 self :
  dead_keys self = [] → dk_inv DEAD_KEYS h0 self h0.
Proof.
  intros Hd. unfold dk_inv, dk_alloc, dk_copies. rewrite Hd.
  split; [split; [done|]; split; [apply NoDup_nil_2|];
          split; [apply NoDup_nil_2|]|];
    by intros id l ?%elem_of_nil.
Qed.

Lemma framed_refl (h0 : heap) e : framed h0 e h0.
Proof. by unfold framed. Qed.

Lemma init_spec filename cfg h0 :
  wp (init DEAD_KEYS ODK_ID GEOMETRY text_to_lines today filename cfg)
     (resolved DEAD_KEYS ODK_ID GEOMETRY h0 cfg) (framed h0) h0.
Proof.
  unfold init.
  apply wp_bind, wp_lift.
  destruct (init_meta _ _ _ _) as [self1|] eqn:Hmeta;
    [|apply framed_refl].
  pose proof (init_meta_shape _ _ _ _ Hmeta) as Hshape.
  apply init_meta_inv in Hmeta as (Hd1 & Hl1 & _).
  apply wp_bind, wp_lift.
  destruct (geometry_rows _ _) as [rows|] eqn:Hrows; [|apply framed_refl].
  apply geometry_rows_inv in Hrows as (shape & g & Hshape' & Hg).
  assert (shape = selected_shape cfg) as -> by congruence.
  apply wp_bind.
  eapply wp_mono; [|done|
    apply (init_layers_ok DEAD_KEYS text_to_lines h0), dk_inv_blank;
    by rewrite Hd1].
  intros self2 h2 [[Halloc2 Hcopies2] [Hlen2 Hmeta2]].
  pose proof Halloc2 as (Hpre2 & Hk2 & Hv2 & Hfresh2).
  apply wp_bind, wp_lift.
  destruct (spacebar_table cfg) as [spc|] eqn:Hspc; [|exact Hpre2].
  apply wp_bind, wp_lift.
  destruct (init_spacebar spc self2) as [self3|] eqn:Hsp; [|exact Hpre2].
  apply init_spacebar_inv in Hsp as ([Hlen3 Hmeta3] & Hd3 & v & Hv & Hglyph).
  apply wp_bind.
  eapply wp_mono; [| |apply init_dk_index_spec]; [|done].
  intros self4 h4 [-> [ix ->]].
  apply wp_bind.
  eapply wp_mono; [|done|apply (prune_dead_keys_spec h0)].
  2: { unfold dk_alloc. simpl. by rewrite Hd3. }
  intros [] h5 (Hpre5 & Hlen5 & Hpruned).
  simpl in Hpruned. rewrite Hd3 in Hpruned.
  assert (length (layers self3) = 6) as Hsix.
  { rewrite Hlen3, Hlen2, Hl1. done. }
  eapply wp_mono; [| |apply odk_behavior_spec].
  - intros self' h'. cbv beta.
    change (dead_keys (with_dk_index ix self3)) with (dead_keys self3).
    rewrite Hd3. intros Hodk.
    assert (layers self' = layers self3 ∧ dead_keys self' = dead_keys self2
            ∧ meta self' = meta self3) as (Hl' & Hd' & Hm').
    { destruct (dict_get (dead_keys self2) ODK_ID);
        [destruct Hodk as (-> & _)|destruct Hodk as [-> _]]; by rewrite ?Hd3. }
    assert (h0 `prefix_of` h' ∧ length h' = length h5) as [Hpre' Hlen'].
    { destruct (dict_get (dead_keys self2) ODK_ID) as [odk|] eqn:E.
      - destruct Hodk as (_ & _ & v' & _ & ->).
        split; [|by rewrite length_alter].
        apply prefix_alter_ge; [done|].
        apply dict_get_Some_elem, Hfresh2 in E. lia.
      - by destruct Hodk as [_ ->]. }
    unfold resolved. rewrite Hl', Hd', Hm', Hmeta3, Hmeta2.
    do 6 (split; [done|]).
    split.
    { intros [odk Hsome]. rewrite Hsome in Hodk.
      destruct Hodk as (_ & [Hpresent Htrigger] & _). split.
      - intros i name Hi.
        rewrite (odk_missing_layers _ _ _ _ Hl').
        rewrite <-(odk_missing_layers self3 (with_dk_index ix self3)) by done.
        by apply Hpresent.
      - intros key. unfold trigger_key, layer_items, glyph. rewrite Hl'.
        apply Htrigger. }
    exists v. split; [by exists spc|]. split.
    { unfold glyph. by rewrite Hl'. }
    intros id l Hin. pose proof (Hfresh2 _ _ Hin) as Hrange.
    split; [lia|].
    destruct (Hcopies2 _ _ Hin) as (c & Hc & Hcopy).
    exists c. split; [done|]. intros Hlt.
    destruct (Hcopy Hlt) as [Hchar Hderef]. split; [done|].
    rewrite (pruned_layers _ _ _ Hl'), (odk_final_layers _ _ _ _ _ Hl').
    rewrite <-Hderef.
    rewrite <-(pruned_layers self3 (with_dk_index ix self3)) by done.
    rewrite <-(Hpruned _ _ Hin).
    destruct (decide (id = ODK_ID)) as [->|Hne].
    + rewrite (dict_get_elem _ _ _ Hk2 Hin) in Hodk.
      destruct Hodk as (_ & _ & v' & Hv' & ->).
      assert (v' = v) as -> by congruence.
      rewrite deref_alter_eq by lia.
      by apply odk_final_layers.
    + destruct (dict_get (dead_keys self2) ODK_ID) as [odk|] eqn:E.
      * destruct Hodk as (_ & _ & v' & _ & ->). apply deref_alter_ne.
        intros <-. apply Hne. symmetry.
        eapply dict_values_inj; [exact Hv2| |exact Hin].
        by apply dict_get_Some_elem.
      * by destruct Hodk as [_ ->].
  - intros e h' [_ (odk & g0 & Hodk & ->)]. simpl in Hodk.
    rewrite Hd3 in Hodk. apply prefix_alter_ge; [done|].
    apply dict_get_Some_elem, Hfresh2 in Hodk. lia.
  - done.
  - intros odk. simpl. rewrite Hd3. intros Hodk.
    apply dict_get_Some_elem, Hfresh2 in Hodk. lia.
Qed.
End compile_spec.

(** ** Example descriptors *)

(** ** The catalog is never written *)

(** C9. Compiling a layout leaves every object that existed before
    unchanged, whether [__init__] returns or raises: the heap only grows.
    The dead keys of the new layout are objects allocated during the
    compilation, so none of them is a catalog entry, and after any number
    of compilations each catalog entry has the fields it had. *)
Theorem catalog_frame {cm : CaseMap} (DEAD_KEYS : list loc) (ODK_ID : str)
  (GEOMETRY : dict geometry) (text_to_lines : str → list str) (today : str)
  (h0 : heap) :
  (∀ filename cfg,
     let run := init DEAD_KEYS ODK_ID GEOMETRY text_to_lines today
                  filename cfg h0 in
     h0 `prefix_of` run.2 ∧
     ∀ self, run.1 = Ok self →
       ∀ id l, dict_get (dead_keys self) id = Some l →
               length h0 ≤ l < length run.2 ∧ l ∉ filter (λ c, c < length h0) DEAD_KEYS) ∧
  (∀ jobs c,
     c < length h0 →
     deref (compile_all DEAD_KEYS ODK_ID GEOMETRY text_to_lines today jobs h0) c
     = deref h0 c).
Proof.
  assert (Hone : ∀ filename cfg h,
            h `prefix_of` (init DEAD_KEYS ODK_ID GEOMETRY text_to_lines today
                             filename cfg h).2).
  { intros filename cfg h.
    pose proof (init_spec DEAD_KEYS ODK_ID GEOMETRY text_to_lines today
                  filename cfg h) as Hwp.
    unfold wp in Hwp. destruct (init _ _ _ _ _ _ _ _) as [[self|e] h'];
      simpl; [by destruct Hwp|done]. }
  split.
  - intros filename cfg run. split; [apply Hone|].
    intros self Hrun id l Hl.
    pose proof (init_spec DEAD_KEYS ODK_ID GEOMETRY text_to_lines today
                  filename cfg h0) as Hwp.
    unfold wp in Hwp. fold run in Hwp.
    destruct run as [r h']. simpl in *. subst r.
    destruct Hwp as (_ & _ & _ & _ & _ & _ & _ & v & _ & _ & Hall).
    destruct (Hall id l (dict_get_Some_elem _ _ _ Hl)) as [Hrange _].
    split; [done|]. intros [Hlt _]%list_elem_of_filter. lia.
  - intros jobs c Hc. apply deref_prefix; [|done].
    unfold compile_all. generalize h0.
    induction jobs as [|[filename cfg] jobs IH]; intros h; simpl; [done|].
    etransitivity; [apply (Hone filename cfg h)|apply IH].
Qed.

Lemma catalog_frame_witness :
  deref (compile_all (cm := Sample.unicode) Sample.DEAD_KEYS Sample.ODK_ID
           Sample.GEOMETRY split_nl (py "2024-01-01")
           [(py "demo", demo_cfg); (py "sparse", sparse_cfg)] Sample.catalog) 0
  = deref Sample.catalog 0.
Proof.
  apply (proj2 (catalog_frame (cm := Sample.unicode) Sample.DEAD_KEYS
                  Sample.ODK_ID Sample.GEOMETRY split_nl (py "2024-01-01")
                  Sample.catalog)).
  simpl. lia.
Defined.

(** ** Pruning and synthesis in the finished model *)

Lemma glyph_layer_items self n key :
  glyph self n key = dict_get (layer_items self n) key.
Proof. unfold glyph, layer_items. by destruct (layers self !! n). Qed.

Lemma reachable_spec self ch :
  reachable self ch = true ↔
  ∃ key, glyph self Layer.BASE key = Some [ch] ∨
         glyph self Layer.SHIFT key = Some [ch].
Proof.
  unfold reachable. rewrite orb_true_iff, !occurs_spec.
  split; [intros [[k ?]|[k ?]]; exists k; auto|].
  intros [k [?|?]]; [left|right]; by exists k.
Qed.

Lemma odk_pairs_elem ODK_ID self i b a :
  (b, a) ∈ odk_pairs ODK_ID self i ↔
  ∃ key, (key, a) ∈ layer_items self (i + Layer.ODK) ∧
         glyph self i key = Some b ∧ key ≠ py "spce" ∧ b ≠ ODK_ID.
Proof.
  unfold odk_pairs. rewrite list_elem_of_bind. unfold odk_item_pairs. split.
  - intros ([key a'] & Hin & Hitem). simpl in Hin. exists key.
    rewrite glyph_layer_items.
    destruct (dict_get (layer_items self i) key) as [b'|];
      [|by apply elem_of_nil in Hin].
    rewrite !str_eqb_decide in Hin.
    destruct (decide (key = py "spce")), (decide (b' = ODK_ID)); simpl in Hin;
      try (by apply elem_of_nil in Hin).
    apply list_elem_of_singleton in Hin. by simplify_eq.
  - intros (key & Hin & Hb & Hspce & Hodk). exists (key, a). split; [|done].
    simpl. rewrite <-glyph_layer_items, Hb, !str_eqb_decide.
    rewrite !decide_False by done. simpl. by apply list_elem_of_singleton.
Qed.

Lemma alt_self_update_fields ODK_ID self d :
  dk_base (alt_self_update ODK_ID self d) = dk_base d ∧
  dk_alt (alt_self_update ODK_ID self d) = dk_alt d ∧
  dk_alt_space (alt_self_update ODK_ID self d) = dk_alt_space d.
Proof.
  unfold alt_self_update. destruct (trigger_key ODK_ID self) as [key|]; [|done].
  by destruct (dict_get _ key).
Qed.

Lemma odk_final_fields ODK_ID v self d :
  let copied := odk_pairs ODK_ID self Layer.BASE
                ++ odk_pairs ODK_ID self Layer.SHIFT in
  dk_base (odk_final ODK_ID v self d) = dk_base d ++ mjoin copied.*1 ∧
  dk_alt (odk_final ODK_ID v self d) = dk_alt d ++ mjoin copied.*2 ∧
  dk_alt_space (odk_final ODK_ID v self d) = Some v ∧
  dk_alt_self (odk_final ODK_ID v self d)
  = match trigger_key ODK_ID self with
    | Some key =>
        match glyph self Layer.ODK key with
        | Some w => Some w
        | None => dk_alt_self d
        end
    | None => dk_alt_self d
    end.
Proof.
  intros copied. unfold odk_final. fold copied. simpl.
  destruct (alt_self_update_fields ODK_ID self (set_alt_space v d))
    as (-> & -> & ->).
  do 3 (split; [done|]).
  unfold alt_self_update. destruct (trigger_key ODK_ID self) as [key|]; [|done].
  rewrite glyph_layer_items. by destruct (dict_get _ key).
Qed.

Section finished.
Context {cm : CaseMap}.
Variable DEAD_KEYS : list loc.
Variable ODK_ID : str.
Variable GEOMETRY : dict geometry.
Variable text_to_lines : str → list str.
Variable today : str.

Lemma init_resolved filename cfg h0 self h :
  init DEAD_KEYS ODK_ID GEOMETRY text_to_lines today filename cfg h0
  = (Ok self, h) →
  resolved DEAD_KEYS ODK_ID GEOMETRY h0 cfg self h.
Proof.
  intros Hinit.
  by destruct (wp_run _ _ _ _
    (init_spec DEAD_KEYS ODK_ID GEOMETRY text_to_lines today filename cfg h0))
    as [Hok _]; apply Hok.
Qed.

(** Each dead key of the finished model is the pruned copy of a catalog
    entry with its trigger; the one-dead-key is this copy after the
    synthesis. *)
Lemma init_dead_key filename cfg h0 self h id l :
  Forall (λ c, c < length h0) DEAD_KEYS →
  init DEAD_KEYS ODK_ID GEOMETRY text_to_lines today filename cfg h0
  = (Ok self, h) →
  dict_get (dead_keys self) id = Some l →
  ∃ c v, c ∈ DEAD_KEYS ∧ dk_char (deref h0 c) = id ∧
         glyph self Layer.ODK (py "spce") = Some v ∧
         deref h l = (if decide (id = ODK_ID)
                      then odk_final ODK_ID v self (pruned self (deref h0 c))
                      else pruned self (deref h0 c)) ∧
         (id = ODK_ID →
          ∀ key, trigger_key ODK_ID self = Some key →
                 is_Some (glyph self Layer.ODK key)).
Proof.
  intros Hvalid Hinit Hl. apply init_resolved in Hinit.
  destruct Hinit as (_ & _ & _ & _ & _ & _ & Hodk & v & _ & Hspce & Hall).
  destruct (Hall id l (dict_get_Some_elem _ _ _ Hl)) as [_ (c & Hc & Hcopy)].
  rewrite Forall_forall in Hvalid.
  destruct (Hcopy (Hvalid c Hc)) as [Hchar Hderef].
  exists c, v. do 4 (split; [done|]).
  intros -> key Hkey. rewrite glyph_layer_items.
  destruct Hodk as [_ Htrigger]; [by rewrite Hl|]. by apply Htrigger.
Qed.
End finished.

Lemma accent_compiles :
  Sample.compile accent_cfg Sample.catalog = (Ok accent_layout, accent_run.2).
Proof. vm_compute. reflexivity. Qed.

(** Pairs of one-character strings are pairs of characters. *)
Lemma single_pairs (ps : list (str * str)) :
  Forall (λ p, length p.1 = 1 ∧ length p.2 = 1) ps →
  ∃ cs : list (char * char),
    ps = (λ p, ([p.1], [p.2])) <$> cs ∧
    mjoin ps.*1 = cs.*1 ∧ mjoin ps.*2 = cs.*2.
Proof.
  induction 1 as [|[b a] ps [Hb Ha] _ (cs & Hps & IH1 & IH2)].
  - by exists [].
  - simpl in Hb, Ha.
    destruct b as [|cb [|??]]; try done. destruct a as [|ca [|??]]; try done.
    exists ((cb, ca) :: cs). rewrite !fmap_cons. cbn [fst snd].
    split; [by rewrite <- Hps|].
    split; [exact (f_equal (cons cb) IH1)|exact (f_equal (cons ca) IH2)].
Qed.

(** C2, amended. In the finished model every dead key is the copy of a
    catalog entry with the same trigger.  Its [base] and [alt] have the
    same length and start with the pairs [kept] of that entry, in the
    entry's order and with the entry's pairing: the pairs whose base
    character is the value of some key on BASE or SHIFT.  For every dead
    key but the one-dead-key that is all.  The one-dead-key has in addition
    the pairs [appended] by the synthesis, each the value of a key other
    than the space bar on BASE (resp. SHIFT) with the value of the same key
    on ODK (resp. ODK_SHIFT), when all the values the synthesis copies are
    single characters.  So every character of [base] is the value of a key
    on BASE or SHIFT.  Pruning pairs no character with two [alt]s unless
    the catalog entry does; the appended pairs are not compared with each
    other nor with the kept ones. *)
Theorem pruning_sound {cm : CaseMap} (DEAD_KEYS : list loc) (ODK_ID : str)
  (GEOMETRY : dict geometry) (text_to_lines : str → list str) (today : str)
  (filename : str) (cfg : dict value) (h0 h : heap) (self : KeyboardLayout)
  (id : str) (l : loc) :
  Forall (λ c, c < length h0) DEAD_KEYS →
  init DEAD_KEYS ODK_ID GEOMETRY text_to_lines today filename cfg h0
  = (Ok self, h) →
  dict_get (dead_keys self) id = Some l →
  (id = ODK_ID →
   Forall (λ p, length p.1 = 1 ∧ length p.2 = 1)
     (odk_pairs ODK_ID self Layer.BASE ++ odk_pairs ODK_ID self Layer.SHIFT)) →
  ∃ c, c ∈ DEAD_KEYS ∧ dk_char (deref h0 c) = id ∧
    let entry := zip (dk_base (deref h0 c)) (dk_alt (deref h0 c)) in
    let kept := filter (λ p, reachable self p.1) entry in
    let base := dk_base (deref h l) in
    let alt := dk_alt (deref h l) in
    (∀ ch, ch ∈ base →
           ∃ key, glyph self Layer.BASE key = Some [ch] ∨
                  glyph self Layer.SHIFT key = Some [ch]) ∧
    length base = length alt ∧
    (∀ ch, reachable self ch = true ↔
           ∃ key, glyph self Layer.BASE key = Some [ch] ∨
                  glyph self Layer.SHIFT key = Some [ch]) ∧
    ((∀ ch a1 a2, (ch, a1) ∈ entry → (ch, a2) ∈ entry → a1 = a2) →
     ∀ ch a1 a2, (ch, a1) ∈ kept → (ch, a2) ∈ kept → a1 = a2) ∧
    ∃ appended : list (char * char),
      base = kept.*1 ++ appended.*1 ∧
      alt = kept.*2 ++ appended.*2 ∧
      (id ≠ ODK_ID → appended = []) ∧
      (id = ODK_ID →
       odk_pairs ODK_ID self Layer.BASE ++ odk_pairs ODK_ID self Layer.SHIFT
       = (λ p, ([p.1], [p.2])) <$> appended) ∧
      (∀ b a, (b, a) ∈ appended →
              ∃ i key, (i = Layer.BASE ∨ i = Layer.SHIFT) ∧
                       key ≠ py "spce" ∧
                       glyph self i key = Some [b] ∧
                       (key, [a]) ∈ layer_items self (i + Layer.ODK)).
Proof.
  intros Hvalid Hinit Hl Hsingle.
  destruct (init_dead_key _ _ _ _ _ _ _ _ _ _ _ _ Hvalid Hinit Hl)
    as (c & v & Hc & Hchar & _ & Hderef & _).
  exists c. do 2 (split; [done|]). intros entry kept base alt.
  set (copied := odk_pairs ODK_ID self Layer.BASE
                 ++ odk_pairs ODK_ID self Layer.SHIFT) in *.
  assert (∃ appended : list (char * char),
            base = kept.*1 ++ appended.*1 ∧ alt = kept.*2 ++ appended.*2 ∧
            (id ≠ ODK_ID → appended = []) ∧
            (id = ODK_ID → copied = (λ p, ([p.1], [p.2])) <$> appended))
    as (appended & Hbase & Halt & Hnone & Hcopied).
  { unfold base, alt. rewrite Hderef.
    destruct (decide (id = ODK_ID)) as [Hid|Hid].
    - destruct (single_pairs copied (Hsingle Hid)) as (cs & Hcs & H1 & H2).
      exists cs.
      destruct (odk_final_fields ODK_ID v self (pruned self (deref h0 c)))
        as (-> & -> & _).
      fold copied. rewrite H1, H2. done.
    - exists []. simpl. by rewrite !app_nil_r. }
  assert (∀ b a, (b, a) ∈ appended →
            ∃ i key, (i = Layer.BASE ∨ i = Layer.SHIFT) ∧ key ≠ py "spce" ∧
                     glyph self i key = Some [b] ∧
                     (key, [a]) ∈ layer_items self (i + Layer.ODK))
    as Happended.
  { intros b a Hin.
    destruct (decide (id = ODK_ID)) as [Hid|Hid];
      [|rewrite (Hnone Hid) in Hin; by apply elem_of_nil in Hin].
    assert (([b], [a]) ∈ copied) as Hpair.
    { rewrite (Hcopied Hid). apply list_elem_of_fmap. by exists (b, a). }
    unfold copied in Hpair.
    apply elem_of_app in Hpair as [Hpair|Hpair];
      apply odk_pairs_elem in Hpair as (key & Hitem & Hb & Hspce & _).
    + exists Layer.BASE, key. auto.
    + exists Layer.SHIFT, key. auto. }
  assert (∀ ch, ch ∈ kept.*1 → reachable self ch = true) as Hkept.
  { intros ch ([ch' a] & -> & [Hreach _]%list_elem_of_filter)%list_elem_of_fmap.
    by apply Is_true_eq_true. }
  split; [|split; [|split; [apply reachable_spec|split]]].
  - intros ch. rewrite Hbase. intros [Hin|Hin]%elem_of_app.
    + by apply reachable_spec, Hkept.
    + apply list_elem_of_fmap in Hin as ([b a] & -> & Hin).
      destruct (Happended b a Hin) as (i & key & [-> | ->] & _ & Hb & _);
        exists key; auto.
  - by rewrite Hbase, Halt, !length_app, !length_fmap.
  - intros Hfun ch a1 a2 [_ H1]%list_elem_of_filter [_ H2]%list_elem_of_filter.
    by eapply Hfun.
  - by exists appended.
Qed.

Lemma demo_compiles :
  ∃ self h,
    Sample.compile demo_cfg Sample.catalog = (Ok self, h) ∧
    dict_get (dead_keys self) (py "**") = Some 2 ∧
    dk_base (deref h 2) = py "a1A1Q" ∧
    dk_alt (deref h 2) = [0xe0; 0xb4; 0xc0; 0x201e; 0x21]%N ∧
    dk_alt_space (deref h 2) = Some (py "'") ∧
    dk_alt_self (deref h 2) = Some [0xa8%N] ∧
    glyph self Layer.BASE (py "ae01") = Some (py "a") ∧
    glyph self Layer.ODK (py "ae01") = Some [0xe0%N] ∧
    glyph self Layer.BASE (py "ae03") = Some (py "**") ∧
    glyph self Layer.SHIFT (py "ae03") = Some (py "Q") ∧
    glyph self Layer.ODK_SHIFT (py "ae03") = Some (py "!") ∧
    glyph self Layer.ODK (py "spce") = Some (py "'").
Proof.
  eexists _, _. split; [vm_compute; reflexivity|].
  repeat (split; [reflexivity|]). reflexivity.
Qed.

Lemma sample_catalog_valid :
  Forall (λ c, c < length Sample.catalog) Sample.DEAD_KEYS.
Proof. repeat constructor. Qed.

Lemma pruning_sound_witness :
  dict_get (dead_keys accent_layout) [star; 0xb4%N] = Some 2 ∧
  dk_base (deref accent_run.2 2) = py "aeAE" ∧
  dk_alt (deref accent_run.2 2) = [0xe1; 0xe9; 0xc1; 0xc9]%N ∧
  dict_get (dead_keys accent_layout) (py "**") = Some 3 ∧
  length (dk_base (deref accent_run.2 3))
  = length (dk_alt (deref accent_run.2 3)) ∧
  ∀ ch, ch ∈ dk_base (deref accent_run.2 3) →
        ∃ key, glyph accent_layout Layer.BASE key = Some [ch] ∨
               glyph accent_layout Layer.SHIFT key = Some [ch].
Proof.
  assert (dict_get (dead_keys accent_layout) [star; 0xb4%N] = Some 2)
    as Hacute by reflexivity.
  assert (dict_get (dead_keys accent_layout) (py "**") = Some 3) as Hodk
    by reflexivity.
  destruct (pruning_sound (cm := Sample.unicode) Sample.DEAD_KEYS
              Sample.ODK_ID Sample.GEOMETRY split_nl (py "2024-01-01")
              (py "layout") accent_cfg Sample.catalog accent_run.2
              accent_layout [star; 0xb4%N] 2
              sample_catalog_valid accent_compiles Hacute)
    as (c & Hc & Hchar & _ & _ & _ & _ & appended & Hbase & Halt & Hnone & _);
    [discriminate|].
  destruct (pruning_sound (cm := Sample.unicode) Sample.DEAD_KEYS
              Sample.ODK_ID Sample.GEOMETRY split_nl (py "2024-01-01")
              (py "layout") accent_cfg Sample.catalog accent_run.2
              accent_layout (py "**") 3
              sample_catalog_valid accent_compiles Hodk)
    as (_ & _ & _ & Hvalues & Hlength & _).
  { intros _.
    apply (bool_decide_unpack
             (Forall (λ p : str * str, length p.1 = 1 ∧ length p.2 = 1)
                (odk_pairs Sample.ODK_ID accent_layout Layer.BASE
                 ++ odk_pairs Sample.ODK_ID accent_layout Layer.SHIFT))).
    vm_compute. exact I. }
  split; [exact Hacute|].
  rewrite (Hnone ltac:(discriminate)) in Hbase, Halt.
  apply elem_of_cons in Hc as [->|Hc]; [discriminate|].
  apply list_elem_of_singleton in Hc as ->.
  split; [rewrite Hbase; vm_compute; reflexivity|].
  split; [rewrite Halt; vm_compute; reflexivity|].
  split; [exact Hodk|]. split; [exact Hlength|exact Hvalues].
Defined.

(** C2 as stated fails on the entries appended to the one-dead-key: in the
    finished model of [demo_cfg] its [base] holds "1" twice, once with
    "´" (from BASE and ODK) and once with "„" (from SHIFT and ODK_SHIFT). *)
Lemma pruning_duplicates_counterexample :
  ∃ self h l,
    Sample.compile demo_cfg Sample.catalog = (Ok self, h) ∧
    dict_get (dead_keys self) (py "**") = Some l ∧
    dk_base (deref h l) !! 1 = Some 0x31%N ∧
    dk_alt (deref h l) !! 1 = Some 0xb4%N ∧
    dk_base (deref h l) !! 3 = Some 0x31%N ∧
    dk_alt (deref h l) !! 3 = Some 0x201e%N.
Proof.
  eexists _, _, _. split; [vm_compute; reflexivity|].
  repeat (split; [reflexivity|]). reflexivity.
Qed.

(** What the amended statement leaves out.  The synthesis appends the
    values as they are: in the finished model of [marked_cfg] the second
    key has the dead key "*´" on SHIFT and "É" on ODK_SHIFT, so [base] gets
    the two characters "*´" where [alt] gets the one character "É"; "*" is
    the value of no key, and from there on [base] and [alt] no longer go
    by pairs. *)
Lemma synthesis_marked_value_example :
  ∃ self h l,
    Sample.compile marked_cfg Sample.catalog = (Ok self, h) ∧
    dict_get (dead_keys self) (py "**") = Some l ∧
    glyph self Layer.SHIFT (py "ae02") = Some [star; 0xb4%N] ∧
    glyph self Layer.ODK_SHIFT (py "ae02") = Some [0xc9%N] ∧
    dk_base (deref h l) = py "aeA*" ++ [0xb4%N] ++ py "Q" ∧
    dk_alt (deref h l) = [0xe0; 0xe9; 0xc0; 0xc9; 0x21]%N.
Proof.
  eexists _, _, _. split; [vm_compute; reflexivity|].
  repeat (split; [reflexivity|]). reflexivity.
Qed.

Lemma trigger_key_Some ODK_ID self key :
  trigger_key ODK_ID self = Some key → glyph self Layer.BASE key = Some ODK_ID.
Proof.
  unfold trigger_key. intros [_ Hkey]%find_some.
  by apply bool_decide_eq_true in Hkey.
Qed.

Lemma trigger_key_None ODK_ID self key :
  trigger_key ODK_ID self = None → glyph self Layer.BASE key ≠ Some ODK_ID.
Proof.
  unfold trigger_key. intros Hnone Hkey.
  assert (key ∈ dict_keys (layer_items self Layer.BASE)) as Hin.
  { destruct (decide (key ∈ dict_keys (layer_items self Layer.BASE)))
      as [|Hnin]; [done|].
    apply dict_get_None_keys in Hnin. rewrite glyph_layer_items in Hkey.
    congruence. }
  apply list_elem_of_In in Hin.
  pose proof (find_none _ _ Hnone key Hin) as Hf. simpl in Hf.
  by apply bool_decide_eq_false in Hf.
Qed.

(** C5, amended. When the one-dead-key is active in the finished model,
    its [base]/[alt] arrays are the pruned arrays of its catalog entry
    followed by the pairs copied first from BASE and ODK, then from SHIFT
    and ODK_SHIFT: for each key of the 1dk plane other than the space bar,
    the value of the key on the base plane with its value on the 1dk
    plane, unless that base-plane value, the BASE value in the first pass
    and the SHIFT value in the second, is the trigger itself.  [alt_space]
    is the space bar's ODK value; [alt_self] is the ODK value of the first
    key that bears the trigger on BASE, and is left as the catalog has it
    when no key does. *)
Theorem odk_synthesis {cm : CaseMap} (DEAD_KEYS : list loc) (ODK_ID : str)
  (GEOMETRY : dict geometry) (text_to_lines : str → list str) (today : str)
  (filename : str) (cfg : dict value) (h0 h : heap) (self : KeyboardLayout)
  (l : loc) :
  Forall (λ c, c < length h0) DEAD_KEYS →
  init DEAD_KEYS ODK_ID GEOMETRY text_to_lines today filename cfg h0
  = (Ok self, h) →
  dict_get (dead_keys self) ODK_ID = Some l →
  ∃ c, c ∈ DEAD_KEYS ∧ dk_char (deref h0 c) = ODK_ID ∧
    let kept := filter (λ p, reachable self p.1)
                  (zip (dk_base (deref h0 c)) (dk_alt (deref h0 c))) in
    let copied := odk_pairs ODK_ID self Layer.BASE
                  ++ odk_pairs ODK_ID self Layer.SHIFT in
    dk_base (deref h l) = kept.*1 ++ mjoin copied.*1 ∧
    dk_alt (deref h l) = kept.*2 ++ mjoin copied.*2 ∧
    (∀ i b a, (b, a) ∈ odk_pairs ODK_ID self i ↔
              ∃ key, (key, a) ∈ layer_items self (i + Layer.ODK) ∧
                     glyph self i key = Some b ∧
                     key ≠ py "spce" ∧ b ≠ ODK_ID) ∧
    dk_alt_space (deref h l) = glyph self Layer.ODK (py "spce") ∧
    match trigger_key ODK_ID self with
    | Some key =>
        glyph self Layer.BASE key = Some ODK_ID ∧
        dk_alt_self (deref h l) = glyph self Layer.ODK key
    | None =>
        (∀ key, glyph self Layer.BASE key ≠ Some ODK_ID) ∧
        dk_alt_self (deref h l) = dk_alt_self (deref h0 c)
    end.
Proof.
  intros Hvalid Hinit Hl.
  destruct (init_dead_key _ _ _ _ _ _ _ _ _ _ _ _ Hvalid Hinit Hl)
    as (c & v & Hc & Hchar & Hspce & Hderef & Htrigger).
  exists c. do 2 (split; [done|]). intros kept copied.
  rewrite decide_True in Hderef by done. rewrite Hderef, Hspce.
  destruct (odk_final_fields ODK_ID v self (pruned self (deref h0 c)))
    as (-> & -> & -> & ->).
  do 2 (split; [done|]). split; [intros i b a; apply odk_pairs_elem|].
  split; [done|].
  destruct (trigger_key ODK_ID self) as [key|] eqn:Hkey.
  - split; [by apply trigger_key_Some|].
    destruct (Htrigger eq_refl key eq_refl) as [w ->]. done.
  - split; [|done]. intros key. by apply trigger_key_None.
Qed.

Lemma odk_synthesis_witness :
  ∃ self h l,
    Sample.compile demo_cfg Sample.catalog = (Ok self, h) ∧
    dict_get (dead_keys self) (py "**") = Some l ∧
    (py "a", [0xe0%N]) ∈ odk_pairs (py "**") self Layer.BASE ∧
    dk_alt_space (deref h l) = Some (py "'").
Proof.
  destruct demo_compiles
    as (self & h & Hinit & Hl & _ & _ & _ & _ & Ha & Ha' & _ & _ & _ & Hsp).
  exists self, h, 2.
  destruct (odk_synthesis (cm := Sample.unicode) Sample.DEAD_KEYS
              Sample.ODK_ID Sample.GEOMETRY split_nl (py "2024-01-01")
              (py "layout") demo_cfg Sample.catalog h self 2
              sample_catalog_valid Hinit Hl)
    as (c & _ & _ & _ & _ & Hpairs & Hspace & _).
  split; [exact Hinit|]. split; [exact Hl|]. split.
  - apply Hpairs. exists (py "ae01"). split; [|split; [exact Ha|split]].
    + rewrite glyph_layer_items in Ha'.
      exact (dict_get_Some_elem _ _ _ Ha').
    + discriminate.
    + discriminate.
  - rewrite Hspace. exact Hsp.
Defined.

(** C5 as stated fails: in the finished model of [demo_cfg] the key "ae03"
    bears the trigger on BASE, and its SHIFT and ODK_SHIFT values "Q" and
    "!" are copied all the same; the catalog entry contributes nothing, its
    [base] being empty. *)
Lemma odk_trigger_key_counterexample :
  ∃ self h l,
    Sample.compile demo_cfg Sample.catalog = (Ok self, h) ∧
    dict_get (dead_keys self) (py "**") = Some l ∧
    dk_base (deref Sample.catalog 0) = [] ∧
    glyph self Layer.BASE (py "ae03") = Some (py "**") ∧
    glyph self Layer.SHIFT (py "ae03") = Some (py "Q") ∧
    glyph self Layer.ODK_SHIFT (py "ae03") = Some (py "!") ∧
    dk_base (deref h l) = py "a1A1Q" ∧
    mjoin (claimed_odk_pairs (py "**") self Layer.BASE
           ++ claimed_odk_pairs (py "**") self Layer.SHIFT).*1 = py "a1A1" ∧
    dk_base (deref h l)
    ≠ mjoin (claimed_odk_pairs (py "**") self Layer.BASE
             ++ claimed_odk_pairs (py "**") self Layer.SHIFT).*1.
Proof.
  eexists _, _, _. split; [vm_compute; reflexivity|].
  repeat (split; [reflexivity|]). discriminate.
Qed.

(** ** Keys of the one-dead-key plane without a base glyph *)

(** C4, amended. During the synthesis a key that has a value on the ODK
    (resp. ODK_SHIFT) plane and none on BASE (resp. SHIFT) is not skipped:
    the lookup [self.layers[i][name]] fails and the synthesis raises
    [KeyError].  Hence a compilation that returns with the one-dead-key
    active has a BASE (resp. SHIFT) value for every key of the ODK (resp.
    ODK_SHIFT) plane. *)
Theorem odk_sparse_key_raises {cm : CaseMap} (DEAD_KEYS : list loc)
  (ODK_ID : str) (GEOMETRY : dict geometry) (text_to_lines : str → list str)
  (today : str) :
  (∀ spc self h odk i name,
     length (layers self) = 6 →
     dict_get (dead_keys self) ODK_ID = Some odk → odk < length h →
     i = Layer.BASE ∨ i = Layer.SHIFT →
     name ∈ dict_keys (layer_items self (i + Layer.ODK)) →
     glyph self i name = None →
     ∃ k h', odk_behavior ODK_ID spc self h = (Raise (KeyError k), h')) ∧
  (∀ filename cfg h0 self h i name,
     init DEAD_KEYS ODK_ID GEOMETRY text_to_lines today filename cfg h0
     = (Ok self, h) →
     is_Some (dict_get (dead_keys self) ODK_ID) →
     i = Layer.BASE ∨ i = Layer.SHIFT →
     name ∈ dict_keys (layer_items self (i + Layer.ODK)) →
     is_Some (glyph self i name)).
Proof.
  split.
  - intros spc self h odk i name Hlen Hodk Hvalid Hi Hin Hnone.
    rewrite glyph_layer_items in Hnone.
    pose proof (odk_behavior_spec ODK_ID spc self h Hlen) as Hwp.
    unfold wp in Hwp. rewrite Hodk in Hwp.
    destruct (odk_behavior ODK_ID spc self h) as [[self'|e] h'].
    + destruct Hwp as (_ & [Hpresent _] & _); [by intros ? [= <-]|].
      by destruct (Hpresent i name Hi).
    + destruct Hwp as [[k ->] _]; [by intros ? [= <-]|]. by exists k, h'.
  - intros filename cfg h0 self h i name Hinit Hodk Hi Hin.
    apply init_resolved in Hinit.
    destruct Hinit as (_ & _ & _ & _ & _ & _ & Hsynth & _).
    destruct (Hsynth Hodk) as [Hpresent _].
    rewrite glyph_layer_items.
    destruct (dict_get (layer_items self i) name) eqn:Hget; [done|].
    by destruct (Hpresent i name Hi).
Qed.

Lemma odk_sparse_key_raises_witness :
  ∃ k h',
    odk_behavior (py "**") SPACEBAR
      (with_dead_keys [(py "**", 0)]
         (with_layers [[]; []; [(py "ad01", py "x")]; []; []; []]
            blank_layout))
      [dk_blank]
    = (Raise (KeyError k), h').
Proof.
  apply (proj1 (odk_sparse_key_raises (cm := Sample.unicode) [] (py "**") []
                  split_nl []) SPACEBAR _ [dk_blank] 0 Layer.BASE (py "ad01")).
  - reflexivity.
  - reflexivity.
  - simpl. lia.
  - left. reflexivity.
  - simpl. left.
  - reflexivity.
Defined.

(** C4 as stated fails: in [sparse_cfg] the key "ad01" has "x" on the ODK
    plane and nothing on BASE; the compilation raises [KeyError]. *)
Lemma sparse_key_counterexample :
  ∃ parsed h1 h',
    init_layers (H := Sample.unicode) Sample.DEAD_KEYS split_nl sparse_cfg
      Sample.iso_rows blank_layout Sample.catalog = (Ok parsed, h1) ∧
    glyph parsed Layer.ODK (py "ad01") = Some (py "x") ∧
    glyph parsed Layer.BASE (py "ad01") = None ∧
    Sample.compile sparse_cfg Sample.catalog
    = (Raise (KeyError (py "ad01")), h').
Proof.
  eexists _, _, _. split; [vm_compute; reflexivity|].
  split; [reflexivity|]. split; [reflexivity|]. vm_compute. reflexivity.
Qed.

(** ** The shape of a layout *)

(** C3, amended. A descriptor that declares a shape missing from the
    geometry table makes [GEOMETRY[self.meta["geometry"]]] raise [KeyError]
    with that name, once the metadata have been computed, and nothing has
    been written by then; a descriptor that declares no geometry is
    compiled with the rows of the shape "ISO", which the finished model
    records as its geometry. *)
Theorem shape_selection {cm : CaseMap} (DEAD_KEYS : list loc) (ODK_ID : str)
  (GEOMETRY : dict geometry) (text_to_lines : str → list str) (today : str)
  (filename : str) (cfg : dict value) (h0 : heap) :
  (∀ shape self1,
     dict_get cfg (py "geometry") = Some (VStr shape) →
     dict_get GEOMETRY shape = None →
     init_meta today filename cfg blank_layout = Ok self1 →
     init DEAD_KEYS ODK_ID GEOMETRY text_to_lines today filename cfg h0
     = (Raise (KeyError shape), h0)) ∧
  (dict_get cfg (py "geometry") = None →
   (∀ self1,
      init_meta today filename cfg blank_layout = Ok self1 →
      geometry_rows GEOMETRY self1
      = (g ← dict_item GEOMETRY (py "ISO"); mret (rows g))) ∧
   (∀ self h,
      init DEAD_KEYS ODK_ID GEOMETRY text_to_lines today filename cfg h0
      = (Ok self, h) →
      dict_get (meta self) (py "geometry") = Some (VStr (py "ISO")) ∧
      is_Some (dict_get GEOMETRY (py "ISO")))).
Proof.
  split.
  - intros shape self1 Hdecl Hmiss Hmeta.
    pose proof (init_meta_shape _ _ _ _ Hmeta) as Hshape.
    unfold selected_shape, declared in Hshape. rewrite Hdecl in Hshape.
    unfold init, mbind at 1 2, M_bind, lift. rewrite Hmeta.
    unfold geometry_rows, dict_item. rewrite Hshape. simpl.
    by rewrite Hmiss.
  - intros Hnone.
    assert (selected_shape cfg = py "ISO") as Hiso.
    { unfold selected_shape, declared. by rewrite Hnone. }
    split.
    + intros self1 Hmeta.
      pose proof (init_meta_shape _ _ _ _ Hmeta) as Hshape.
      unfold geometry_rows, dict_item. by rewrite Hshape, Hiso.
    + intros self h Hinit. apply init_resolved in Hinit.
      destruct Hinit as (_ & _ & _ & _ & Hgeo & Hsome & _).
      by rewrite Hiso in Hgeo, Hsome.
Qed.

Lemma shape_selection_witness :
  Sample.compile qwerty_cfg Sample.catalog
  = (Raise (KeyError (py "qwerty")), Sample.catalog).
Proof.
  eapply (proj1 (shape_selection (cm := Sample.unicode) Sample.DEAD_KEYS
                   Sample.ODK_ID Sample.GEOMETRY split_nl (py "2024-01-01")
                   (py "layout") qwerty_cfg Sample.catalog)).
  - reflexivity.
  - reflexivity.
  - vm_compute. reflexivity.
Defined.

(** C3 as stated fails: for the unknown shape "qwerty" the exception is a
    [KeyError], not the [ConfigurationError] of the specification. *)
Lemma unknown_shape_counterexample :
  (Sample.compile qwerty_cfg Sample.catalog).1 = Raise (KeyError (py "qwerty"))
  ∧ (Sample.compile qwerty_cfg Sample.catalog).1 ≠ Raise ConfigurationError.
Proof.
  assert ((Sample.compile qwerty_cfg Sample.catalog).1
          = Raise (KeyError (py "qwerty"))) as Hrun
    by (vm_compute; reflexivity).
  split; [exact Hrun|]. rewrite Hrun. discriminate.
Qed.

(** ** The pairs other than BASE/SHIFT do round-trip *)

Lemma cell_nonempty m g : cell m g ≠ [].
Proof. unfold cell. by destruct (decide _). Qed.

Lemma cell_last m g : last (cell m g) = Some g.
Proof. unfold cell. by destruct (decide _). Qed.

Lemma cell_dead m g : dead_value (cell m g) ↔ m = star.
Proof.
  unfold cell, dead_value. destruct (decide (m = star)) as [->|Hm]; simpl.
  - by split.
  - split; [by intros [? _]|done].
Qed.

(** Writing a cell into blank columns and reading it back. *)
Lemma write_read_cell (line : str) (i : Z) (m g : char) :
  (1 ≤ i < Z.of_nat (length line))%Z →
  line !! Z.to_nat (i - 1) = Some space →
  ∃ line', write_cell line i (cell m g) = Ok line' ∧
           read_cell line' i = Ok (cell m g).
Proof.
  intros Hi Hblank.
  destruct (write_cell_spec line i (cell m g) Hi (cell_nonempty m g))
    as (line' & Hw & _ & Hline').
  exists line'. split; [done|].
  pose proof (Hline' (Z.to_nat i)) as Hg.
  pose proof (Hline' (Z.to_nat (i - 1))) as Hm.
  unfold written in Hg, Hm.
  rewrite decide_True, cell_last in Hg by done.
  rewrite decide_False in Hm by lia.
  destruct (decide (m = star)) as [->|Hne].
  - rewrite decide_True in Hm by (split; [done|by apply cell_dead]).
    by rewrite (read_cell_spec line' i star g) by (done || lia).
  - rewrite decide_False, Hblank in Hm by (rewrite cell_dead; tauto).
    rewrite (read_cell_spec line' i space g) by (done || lia).
    unfold cell. by rewrite !decide_False.
Qed.

(** For a pair other than BASE/SHIFT, filling the key of a parsed model
    into blank cells and reading the cells back gives, after the parser's
    expansion, the values the model has: the filler omits the shift cell
    exactly when [upper_key] of the base value restores it. *)
Lemma roundtrip_key_other_pairs {cm : CaseMap} (self : KeyboardLayout)
  (ln : nat) (base0 shift0 : str) (i : Z) (key : str) (mb gb ms gs : char)
  (d0 d1 : dict str) :
  ln ≠ Layer.BASE →
  (1 ≤ i < Z.of_nat (length base0))%Z → (i < Z.of_nat (length shift0))%Z →
  base0 !! Z.to_nat (i - 1) = Some space →
  shift0 !! Z.to_nat (i - 1) = Some space → shift0 !! Z.to_nat i = Some space →
  let b := cell mb gb in
  let sv := expand_shift ln b (cell ms gs) in
  layers self !! ln = Some d0 → layers self !! (ln + 1) = Some d1 →
  dict_get d0 key = (if decide (b = py " ") then None else Some b) →
  dict_get d1 key = (if decide (sv = py " ") then None else Some sv) →
  ∃ base' shift' s',
    fill_key self ln base0 shift0 i key = Ok (base', shift') ∧
    read_cell base' i = Ok b ∧ read_cell shift' i = Ok s' ∧
    expand_base ln b s' = b ∧ expand_shift ln b s' = sv.
Proof.
  intros Hln Hib His Hbm Hsm Hsg b sv Hd0 Hd1 Hk0 Hk1.
  unfold fill_key.
  rewrite (layer_cell_Ok _ _ _ _ Hd0), (layer_cell_Ok _ _ _ _ Hd1), Hk0, Hk1.
  rewrite (proj2 (Nat.eqb_neq _ _) Hln). simpl.
  assert (default (py " ") (if decide (b = py " ") then None else Some b) = b)
    as -> by (by destruct (decide (b = py " ")) as [->|]).
  assert (default (py " ") (if decide (sv = py " ") then None else Some sv)
          = sv) as -> by (by destruct (decide (sv = py " ")) as [->|]).
  destruct (write_read_cell base0 i mb gb Hib Hbm) as (base' & Hwb & Hrb).
  fold b in Hwb, Hrb. rewrite Hwb. simpl. rewrite str_eqb_decide.
  assert (expand_base ln b (cell ms gs) = b ∧ ∀ s', expand_base ln b s' = b)
    as [_ Hexp].
  { split; [|intros s']; rewrite expand_base_spec;
      rewrite decide_False; (done || tauto). }
  destruct (decide (upper_key b = sv)) as [Heq|Hne]; simpl.
  - exists base', shift0, (py " "). split; [done|]. split; [done|].
    split; [by rewrite (read_cell_spec shift0 i space space) by (done || lia)|].
    split; [apply Hexp|]. rewrite expand_shift_spec.
    by rewrite decide_True.
  - assert (sv = cell ms gs ∧ cell ms gs ≠ py " ") as [Hsv Hns].
    { unfold sv in *. rewrite expand_shift_spec in *.
      destruct (decide (ln ≠ Layer.BASE ∧ cell ms gs = py " ")); [done|].
      split; [done|]. tauto. }
    rewrite Hsv.
    destruct (write_read_cell shift0 i ms gs) as (shift' & -> & Hrs);
      [lia|done|].
    exists base', shift', (cell ms gs). simpl. do 3 (split; [done|]).
    split; [apply Hexp|]. rewrite expand_shift_spec.
    rewrite decide_False; [done|tauto].
Qed.

(** * Further properties *)

(** ** The filler on a whole canvas *)

Lemma norm_index_nonneg_inv (n : nat) (i : Z) (k : nat) :
  (0 ≤ i)%Z → norm_index n i = Some k → (i < Z.of_nat n)%Z ∧ k = Z.to_nat i.
Proof.
  intros Hi. unfold norm_index.
  destruct (Z.ltb_spec i 0); [lia|].
  destruct (Z.leb_spec 0 i); [|lia].
  destruct (Z.ltb_spec i (Z.of_nat n)); [|done].
  simpl. intros [= <-]. done.
Qed.

Lemma py_index_nonneg_inv {A} (l : list A) (i : Z) (x : A) :
  (0 ≤ i)%Z → py_index l i = Ok x → l !! Z.to_nat i = Some x.
Proof.
  intros Hi. unfold py_index.
  destruct (norm_index (length l) i) as [k|] eqn:Hk; [|done].
  apply norm_index_nonneg_inv in Hk as [_ ->]; [|done].
  destruct (l !! Z.to_nat i); [|done]. by intros [= ->].
Qed.

Lemma py_setitem_nonneg_inv {A} (l l' : list A) (i : Z) (x : A) :
  (0 ≤ i)%Z → py_setitem l i x = Ok l' →
  (i < Z.of_nat (length l))%Z ∧ l' = <[Z.to_nat i := x]> l.
Proof.
  intros Hi. unfold py_setitem.
  destruct (norm_index (length l) i) as [k|] eqn:Hk; [|done].
  apply norm_index_nonneg_inv in Hk as [? ->]; [|done].
  by intros [= <-].
Qed.

Lemma write_cell_length line i v line' :
  write_cell line i v = Ok line' → length line' = length line.
Proof.
  unfold write_cell. intros Hw.
  apply bind_Ok in Hw as (c & _ & Hw).
  apply bind_Ok in Hw as (l1 & H1 & Hw).
  apply py_setitem_length in H1.
  destruct (is_dead v).
  - apply py_setitem_length in Hw. congruence.
  - cbv [mret result_ret] in Hw. by simplify_eq.
Qed.

Lemma write_cell_inv line i v line' :
  write_cell line i v = Ok line' → (1 ≤ i)%Z →
  length line' = length line ∧ ∀ c, line' !! c = written line v i c.
Proof.
  intros Hw Hi.
  assert ((i < Z.of_nat (length line))%Z ∧ v ≠ []) as [Hlt Hv].
  { unfold write_cell in Hw.
    apply bind_Ok in Hw as (c & Hc & Hw).
    apply bind_Ok in Hw as (l1 & H1 & _).
    apply py_setitem_nonneg_inv in H1 as [? _]; [|lia].
    split; [done|]. by intros ->. }
  destruct (write_cell_spec line i v) as (l2 & Hw2 & Hlen & Hc); [lia|done|].
  rewrite Hw in Hw2. by simplify_eq.
Qed.

Lemma written_ext (line line' v : str) (i : Z) (c : nat) :
  line !! c = line' !! c → written line v i c = written line' v i c.
Proof. unfold written. by intros ->. Qed.

Lemma written_other (line v : str) (i : Z) (c : nat) :
  c ≠ Z.to_nat i → c ≠ Z.to_nat (i - 1) → written line v i c = line !! c.
Proof.
  intros H1 H2. unfold written.
  rewrite decide_False by done. rewrite decide_False by tauto. done.
Qed.

Lemma layer_cell_inv self n key v :
  layer_cell self n key = Ok v → v = shown self n key.
Proof.
  unfold layer_cell, get_layer, shown, glyph.
  destruct (layers self !! n); [|done]. simpl. by intros [= <-].
Qed.

Section fill_facts.
Context {cm : CaseMap}.

Lemma fill_key_length self ln base shift i key base' shift' :
  fill_key self ln base shift i key = Ok (base', shift') →
  length base' = length base ∧ length shift' = length shift.
Proof.
  unfold fill_key. intros Hf.
  apply bind_Ok in Hf as (bk & _ & Hf).
  apply bind_Ok in Hf as (sk & _ & Hf).
  destruct (ln =? Layer.BASE).
  - apply bind_Ok in Hf as (s1 & Hs & Hf).
    apply bind_Ok in Hf as (b1 & Hb & Hf).
    cbv [mret result_ret] in Hf. simplify_eq.
    apply write_cell_length in Hs. split; [|done].
    destruct (negb _); [by apply write_cell_length in Hb|].
    cbv [mret result_ret] in Hb. by simplify_eq.
  - apply bind_Ok in Hf as (b1 & Hb & Hf).
    apply bind_Ok in Hf as (s1 & Hs & Hf).
    cbv [mret result_ret] in Hf. simplify_eq.
    apply write_cell_length in Hb. split; [done|].
    destruct (negb _); [by apply write_cell_length in Hs|].
    cbv [mret result_ret] in Hs. by simplify_eq.
Qed.

Lemma fill_key_inv self ln base shift i key base' shift' :
  fill_key self ln base shift i key = Ok (base', shift') → (1 ≤ i)%Z →
  ∀ c,
    base' !! c = (if decide (ln = Layer.BASE ∧ compressed self ln key)
                  then base !! c
                  else written base (shown self ln key) i c) ∧
    shift' !! c = (if decide (ln ≠ Layer.BASE ∧ compressed self ln key)
                   then shift !! c
                   else written shift (shown self (ln + 1) key) i c).
Proof.
  unfold fill_key. intros Hf Hi c.
  apply bind_Ok in Hf as (bk & Hbk & Hf). apply layer_cell_inv in Hbk as ->.
  apply bind_Ok in Hf as (sk & Hsk & Hf). apply layer_cell_inv in Hsk as ->.
  rewrite str_eqb_decide in Hf. fold (compressed self ln key) in Hf.
  destruct (Nat.eqb_spec ln Layer.BASE) as [Hln|Hln].
  - apply bind_Ok in Hf as (s1 & Hs & Hf).
    apply bind_Ok in Hf as (b1 & Hb & Hf).
    cbv [mret result_ret] in Hf. simplify_eq.
    apply write_cell_inv in Hs as [_ Hs]; [|done].
    rewrite (decide_False (P := _ ≠ _ ∧ _)) by tauto. split; [|apply Hs].
    destruct (decide (compressed self Layer.BASE key)) as [Hc|Hc]; simpl in Hb.
    + rewrite decide_True by done. cbv [mret result_ret] in Hb.
      by simplify_eq.
    + rewrite decide_False by tauto.
      apply write_cell_inv in Hb as [_ Hb]; [|done]. apply Hb.
  - apply bind_Ok in Hf as (b1 & Hb & Hf).
    apply bind_Ok in Hf as (s1 & Hs & Hf).
    cbv [mret result_ret] in Hf. simplify_eq.
    apply write_cell_inv in Hb as [_ Hb]; [|done].
    rewrite (decide_False (P := _ = _ ∧ _)) by tauto. split; [apply Hb|].
    destruct (decide (compressed self ln key)) as [Hc|Hc]; simpl in Hs.
    + rewrite decide_True by done. cbv [mret result_ret] in Hs.
      by simplify_eq.
    + rewrite decide_False by tauto.
      apply write_cell_inv in Hs as [_ Hs]; [|done]. apply Hs.
Qed.

End fill_facts.

Section fill_rows.
Context {cm : CaseMap}.

Lemma fill_keys_spec self ln r b0 s0 st :
  (1 ≤ offset r + col_offset ln)%Z →
  for_each_r (λ '(base, shift, i) key,
                bs ← fill_key self ln base shift i key;
                mret (bs.1, bs.2, (i + 6)%Z))
             (keys r) (b0, s0, (offset r + col_offset ln)%Z) = Ok st →
  row_filled self ln r b0 s0 st.1.1 st.1.2.
Proof.
  intros Hm Hloop.
  pose (I := λ (done : list str) (st : str * str * Z),
    st.2 = key_column ln r (length done) ∧
    length st.1.1 = length b0 ∧ length st.1.2 = length s0 ∧
    (∀ c, (∀ k, k < length done →
                Z.of_nat c ≠ key_column ln r k ∧
                Z.of_nat c ≠ (key_column ln r k - 1)%Z) →
          st.1.1 !! c = b0 !! c ∧ st.1.2 !! c = s0 !! c) ∧
    ∀ k key, done !! k = Some key →
      ∀ c, (Z.of_nat c = key_column ln r k
            ∨ Z.of_nat c = key_column ln r k - 1)%Z →
        st.1.1 !! c = (if decide (ln = Layer.BASE ∧ compressed self ln key)
                       then b0 !! c
                       else written b0 (shown self ln key)
                              (key_column ln r k) c) ∧
        st.1.2 !! c = (if decide (ln ≠ Layer.BASE ∧ compressed self ln key)
                       then s0 !! c
                       else written s0 (shown self (ln + 1) key)
                              (key_column ln r k) c)).
  assert (I (keys r) st) as (_ & Hlb & Hls & Hframe & Hcells).
  { eapply (for_each_r_inv _ _ I); [| |exact Hloop].
    - clear st Hloop. intros done x todo [[b s] i] st' _.
      intros (Hi & Hlb & Hls & Hframe & Hcells) Hbody. simpl in *.
      apply bind_Ok in Hbody as ([b' s'] & Hf & Hret).
      cbv [mret result_ret] in Hret. simplify_eq. simpl.
      destruct (fill_key_length _ _ _ _ _ _ _ _ Hf) as [Hlb' Hls'].
      assert (1 ≤ key_column ln r (length done))%Z as Hi
        by (unfold key_column; lia).
      pose proof (fill_key_inv _ _ _ _ _ _ _ _ Hf Hi) as Hinv.
      unfold I. simpl.
      split; [rewrite length_app; unfold key_column; simpl; lia|].
      split; [congruence|]. split; [congruence|]. split.
      + intros c Hc. destruct (Hinv c) as [-> ->].
        destruct (Hc (length done)) as [? ?];
          [rewrite length_app; simpl; lia|].
        rewrite (written_other b), (written_other s) by lia.
        destruct (Hframe c) as [<- <-].
        { intros k Hk. apply Hc. rewrite length_app. lia. }
        by do 2 destruct (decide _).
      + intros k key Hk c Hc. destruct (Hinv c) as [-> ->].
        destruct (decide (k < length done)) as [Hlt|Hge].
        * rewrite lookup_app_l in Hk by done.
          rewrite (written_other b), (written_other s)
            by (unfold key_column in *; lia).
          destruct (Hcells k key Hk c Hc) as [<- <-].
          by do 2 destruct (decide _).
        * pose proof (lookup_lt_Some _ _ _ Hk) as Hlen.
          rewrite length_app in Hlen. simpl in Hlen.
          assert (k = length done) as -> by lia.
          rewrite lookup_app_r, Nat.sub_diag in Hk by done.
          simpl in Hk. simplify_eq.
          destruct (Hframe c) as [Hb Hs].
          { intros k Hk. unfold key_column in *. lia. }
          rewrite Hb, Hs.
          rewrite (written_ext b b0), (written_ext s s0) by done. done.
    - unfold I. simpl. split; [unfold key_column; lia|].
      do 2 (split; [done|]). split; [done|]. by intros k key Hk. }
  repeat split; try done.
  - apply Hframe. intros k Hk. split; intros Heq; apply H; exists k; tauto.
  - apply Hframe. intros k Hk. split; intros Heq; apply H; exists k; tauto.
  - by apply Hcells.
  - by apply Hcells.
Qed.

End fill_rows.

Section fill_template.
Context {cm : CaseMap}.

Lemma fill_row_inv self ln T (j : nat) r T' :
  (1 ≤ offset r + col_offset ln)%Z →
  fill_row self ln T (Z.of_nat j) r = Ok T' →
  ∃ b0 s0 b s,
    T !! (2 + 3 * j) = Some b0 ∧ T !! (1 + 3 * j) = Some s0 ∧
    T' = <[1 + 3 * j := s]> (<[2 + 3 * j := b]> T) ∧
    row_filled self ln r b0 s0 b s.
Proof.
  intros Hm. unfold fill_row. intros Hf.
  apply bind_Ok in Hf as (b0 & Hb0 & Hf).
  apply bind_Ok in Hf as (s0 & Hs0 & Hf).
  apply bind_Ok in Hf as (st & Hloop & Hf).
  apply bind_Ok in Hf as (T1 & HT1 & HT').
  apply py_index_nonneg_inv in Hb0; [|lia].
  apply py_index_nonneg_inv in Hs0; [|lia].
  apply py_setitem_nonneg_inv in HT1 as [_ ->]; [|lia].
  apply py_setitem_nonneg_inv in HT' as [_ ->]; [|lia].
  replace (Z.to_nat (2 + Z.of_nat j * 3)) with (2 + 3 * j) in * by lia.
  replace (Z.to_nat (1 + Z.of_nat j * 3)) with (1 + 3 * j) in * by lia.
  exists b0, s0, st.1.1, st.1.2. do 3 (split; [done|]).
  by apply fill_keys_spec.
Qed.

Lemma fill_template_spec self T0 rows ln T :
  margins ln rows →
  _fill_template self T0 rows ln = Ok T →
  length T = length T0 ∧
  (∀ l, (∀ j, j < length rows → l ≠ 1 + 3 * j ∧ l ≠ 2 + 3 * j) →
        T !! l = T0 !! l) ∧
  ∀ j r, rows !! j = Some r →
    ∃ b0 s0 b s,
      T0 !! (2 + 3 * j) = Some b0 ∧ T0 !! (1 + 3 * j) = Some s0 ∧
      T !! (2 + 3 * j) = Some b ∧ T !! (1 + 3 * j) = Some s ∧
      row_filled self ln r b0 s0 b s.
Proof.
  intros Hm. unfold _fill_template. intros Hf.
  apply bind_Ok in Hf as (st & Hloop & Hret).
  cbv [mret result_ret] in Hret. simplify_eq.
  pose (I := λ (done : list row) (st : list str * Z),
    st.2 = Z.of_nat (length done) ∧ length st.1 = length T0 ∧
    (∀ l, (∀ j, j < length done → l ≠ 1 + 3 * j ∧ l ≠ 2 + 3 * j) →
          st.1 !! l = T0 !! l) ∧
    ∀ j r, done !! j = Some r →
      ∃ b0 s0 b s,
        T0 !! (2 + 3 * j) = Some b0 ∧ T0 !! (1 + 3 * j) = Some s0 ∧
        st.1 !! (2 + 3 * j) = Some b ∧ st.1 !! (1 + 3 * j) = Some s ∧
        row_filled self ln r b0 s0 b s).
  assert (I rows st) as (_ & Hlen & Hframe & Hrows); [|done].
  eapply (for_each_r_inv _ _ I); [| |exact Hloop].
  - clear st Hloop. intros done r todo [T j] st' Hsplit.
    intros (Hj & Hlen & Hframe & Hrows) Hbody. cbn [fst snd] in *. subst j.
    apply bind_Ok in Hbody as (T' & Hrow & Hret).
    cbv [mret result_ret] in Hret. simplify_eq.
    assert (1 ≤ offset r + col_offset ln)%Z as Hr.
    { unfold margins in Hm. rewrite Forall_forall in Hm. apply Hm.
      apply elem_of_app. right. apply elem_of_cons. by left. }
    apply fill_row_inv in Hrow as (b0 & s0 & b & s & Hb0 & Hs0 & -> & Hfilled);
      [|done].
    pose proof (lookup_lt_Some _ _ _ Hb0) as Hlb.
    pose proof (lookup_lt_Some _ _ _ Hs0) as Hls.
    unfold I. cbn [fst snd]. rewrite length_app, !length_insert.
    cbn [length]. split; [lia|]. split; [done|]. split.
    + intros l Hl.
      destruct (Hl (length done)) as [? ?]; [lia|].
      rewrite !list_lookup_insert_ne by done.
      apply Hframe. intros j Hj. apply Hl. lia.
    + intros j r' Hj.
      destruct (decide (j < length done)) as [Hlt|Hge].
      * rewrite lookup_app_l in Hj by done.
        destruct (Hrows j r' Hj) as (b0' & s0' & b' & s' & ? & ? & ? & ? & ?).
        exists b0', s0', b', s'.
        rewrite !list_lookup_insert_ne by lia. done.
      * pose proof (lookup_lt_Some _ _ _ Hj) as Hlj.
        rewrite length_app in Hlj. cbn [length] in Hlj.
        assert (j = length done) as -> by lia.
        rewrite lookup_app_r, Nat.sub_diag in Hj by done.
        cbn in Hj. simplify_eq.
        exists b0, s0, b, s.
        rewrite <- (Hframe (2 + 3 * length done)) by (intros; lia).
        rewrite <- (Hframe (1 + 3 * length done)) by (intros; lia).
        do 2 (split; [done|]).
        rewrite list_lookup_insert_ne by lia.
        rewrite list_lookup_insert_eq by done.
        rewrite list_lookup_insert_eq by (rewrite length_insert; done).
        done.
  - unfold I. simpl. do 2 (split; [done|]). split; [done|].
    by intros j r Hj.
Qed.

End fill_template.

Lemma for_each_r_raises {A S} (body : S → A → result S) (l : list A)
  (P : exn → Prop) s e :
  (∀ s x e, x ∈ l → body s x = Raise e → P e) →
  for_each_r body l s = Raise e → P e.
Proof.
  revert s. induction l as [|x l IH]; intros s Hbody; [done|].
  simpl. destruct (body s x) as [s'|e'] eqn:Hx; simpl.
  - apply IH. intros s1 x1 e1 Hin. apply Hbody. by right.
  - intros [= ->]. eapply Hbody; [|done]. by left.
Qed.

Lemma setitem_keeps_lengths (T T1 T' : list str) (i : Z) (x y : str) :
  length <$> T1 = length <$> T → py_index T i = Ok x → length y = length x →
  py_setitem T1 i y = Ok T' → length <$> T' = length <$> T.
Proof.
  intros HT Hx Hy. unfold py_index in Hx. unfold py_setitem.
  assert (length T1 = length T) as ->
    by (by rewrite <- (length_fmap length T1), HT, length_fmap).
  destruct (norm_index (length T) i) as [k|]; [|done].
  destruct (T !! k) as [x'|] eqn:Hk; [|done]. simplify_eq.
  intros [= <-]. rewrite list_fmap_insert, HT.
  apply list_insert_id. by rewrite list_lookup_fmap, Hk, Hy.
Qed.

Lemma py_index_raises {A} (l : list A) i e :
  py_index l i = Raise e → e = IndexError.
Proof.
  unfold py_index. destruct (norm_index _ _); [|by intros [= <-]].
  destruct (l !! _); [done|by intros [= <-]].
Qed.

Lemma py_setitem_raises {A} (l : list A) i x e :
  py_setitem l i x = Raise e → e = IndexError.
Proof.
  unfold py_setitem. destruct (norm_index _ _); [done|by intros [= <-]].
Qed.

Lemma bind_Raise {A B} (r : result A) (f : A → result B) (e : exn) :
  r ≫= f = Raise e ↔ r = Raise e ∨ ∃ a, r = Ok a ∧ f a = Raise e.
Proof.
  destruct r as [a|e']; simpl.
  - split; [intros Hf; right; by exists a|].
    intros [?|(a' & ? & ?)]; by simplify_eq.
  - split; [intros [= ->]; by left|]. intros [?|(a' & ? & ?)]; by simplify_eq.
Qed.

Lemma write_cell_raises line i v e :
  write_cell line i v = Raise e → e = IndexError.
Proof.
  unfold write_cell, py_last. intros Hw.
  apply bind_Raise in Hw as [Hw|(c & _ & Hw)];
    [by apply py_index_raises in Hw|].
  apply bind_Raise in Hw as [Hw|(l1 & _ & Hw)];
    [by apply py_setitem_raises in Hw|].
  destruct (is_dead v); [by apply py_setitem_raises in Hw|done].
Qed.

Lemma layer_cell_raises self n key e :
  layer_cell self n key = Raise e → e = IndexError.
Proof.
  unfold layer_cell, get_layer. destruct (layers self !! n); [done|].
  by intros [= <-].
Qed.

Lemma layer_cell_shown self n key :
  n < length (layers self) → layer_cell self n key = Ok (shown self n key).
Proof.
  intros Hn. destruct (lookup_lt_is_Some_2 _ _ Hn) as [d Hd].
  rewrite (layer_cell_Ok _ _ _ _ Hd). unfold shown, glyph. by rewrite Hd.
Qed.

Section fill_errors.
Context {cm : CaseMap}.

Lemma fill_key_raises self ln base shift i key e :
  fill_key self ln base shift i key = Raise e → e = IndexError.
Proof.
  unfold fill_key. intros Hf.
  apply bind_Raise in Hf as [Hf|(bk & _ & Hf)];
    [by apply layer_cell_raises in Hf|].
  apply bind_Raise in Hf as [Hf|(sk & _ & Hf)];
    [by apply layer_cell_raises in Hf|].
  destruct (ln =? Layer.BASE).
  - apply bind_Raise in Hf as [Hf|(s1 & _ & Hf)];
      [by apply write_cell_raises in Hf|].
    apply bind_Raise in Hf as [Hf|(b1 & _ & Hf)]; [|done].
    destruct (negb _); [by apply write_cell_raises in Hf|done].
  - apply bind_Raise in Hf as [Hf|(b1 & _ & Hf)];
      [by apply write_cell_raises in Hf|].
    apply bind_Raise in Hf as [Hf|(s1 & _ & Hf)]; [|done].
    destruct (negb _); [by apply write_cell_raises in Hf|done].
Qed.

Lemma fill_row_raises self ln T j r e :
  fill_row self ln T j r = Raise e → e = IndexError.
Proof.
  unfold fill_row. intros Hf.
  apply bind_Raise in Hf as [Hf|(b0 & _ & Hf)];
    [by apply py_index_raises in Hf|].
  apply bind_Raise in Hf as [Hf|(s0 & _ & Hf)];
    [by apply py_index_raises in Hf|].
  apply bind_Raise in Hf as [Hf|(st & _ & Hf)].
  - revert Hf. apply (for_each_r_raises _ _ (λ e, e = IndexError)). intros [[b s] i] key e' _ Hb.
    apply bind_Raise in Hb as [Hb|(bs & _ & Hb)]; [|done].
    by apply fill_key_raises in Hb.
  - apply bind_Raise in Hf as [Hf|(T1 & _ & Hf)];
      by apply py_setitem_raises in Hf.
Qed.

Lemma fill_keys_length self ln ks b0 s0 i0 st :
  for_each_r (λ '(base, shift, i) key,
                bs ← fill_key self ln base shift i key;
                mret (bs.1, bs.2, (i + 6)%Z))
             ks (b0, s0, i0) = Ok st →
  length st.1.1 = length b0 ∧ length st.1.2 = length s0.
Proof.
  apply (for_each_r_inv _ _
    (λ _ st, length st.1.1 = length b0 ∧ length st.1.2 = length s0));
    [|done].
  intros done x todo [[b s] i] st' _ [Hb Hs] Hbody. cbn [fst snd] in *.
  apply bind_Ok in Hbody as ([b' s'] & Hf & Hret).
  cbv [mret result_ret] in Hret. simplify_eq. cbn [fst snd].
  apply fill_key_length in Hf as [? ?]. split; congruence.
Qed.

Lemma fill_row_lengths self ln T j r T' :
  fill_row self ln T j r = Ok T' → length <$> T' = length <$> T.
Proof.
  unfold fill_row. intros Hf.
  apply bind_Ok in Hf as (b0 & Hb0 & Hf).
  apply bind_Ok in Hf as (s0 & Hs0 & Hf).
  apply bind_Ok in Hf as (st & Hloop & Hf).
  apply bind_Ok in Hf as (T1 & HT1 & HT').
  apply fill_keys_length in Hloop as [Hb Hs].
  apply (setitem_keeps_lengths T T _ _ b0) in HT1; [|done..].
  by apply (setitem_keeps_lengths T T1 _ _ s0) in HT'.
Qed.

Lemma fill_template_lengths self T0 rows ln T :
  _fill_template self T0 rows ln = Ok T → length <$> T = length <$> T0.
Proof.
  unfold _fill_template. intros Hf.
  apply bind_Ok in Hf as (st & Hloop & Hret).
  cbv [mret result_ret] in Hret. simplify_eq.
  revert Hloop. apply (for_each_r_inv _ _
    (λ _ st, length <$> st.1 = length <$> T0)); [|done].
  intros done x todo [T j] st' _ HT Hbody. cbn [fst snd] in *.
  apply bind_Ok in Hbody as (T' & Hrow & Hret).
  cbv [mret result_ret] in Hret. simplify_eq. cbn [fst snd].
  apply fill_row_lengths in Hrow. congruence.
Qed.

Lemma fill_template_raises self T0 rows ln e :
  _fill_template self T0 rows ln = Raise e → e = IndexError.
Proof.
  unfold _fill_template. intros Hf.
  apply bind_Raise in Hf as [Hf|(st & _ & Hf)]; [|done].
  revert Hf. apply (for_each_r_raises _ _ (λ e, e = IndexError)). intros [T j] r e' _ Hb.
  apply bind_Raise in Hb as [Hb|(T' & _ & Hb)]; [|done].
  by apply fill_row_raises in Hb.
Qed.

End fill_errors.

Section fill_total.
Context {cm : CaseMap}.

Lemma fill_key_total self ln base shift i key :
  ln + 1 < length (layers self) →
  (1 ≤ i < Z.of_nat (length base))%Z → (i < Z.of_nat (length shift))%Z →
  (¬ (ln = Layer.BASE ∧ compressed self ln key) → shown self ln key ≠ []) →
  (¬ (ln ≠ Layer.BASE ∧ compressed self ln key) →
   shown self (ln + 1) key ≠ []) →
  ∃ bs, fill_key self ln base shift i key = Ok bs.
Proof.
  intros Hln Hib His Hb Hs. unfold fill_key.
  rewrite !layer_cell_shown by lia. cbn [mbind result_bind].
  rewrite str_eqb_decide. fold (compressed self ln key).
  destruct (Nat.eqb_spec ln Layer.BASE) as [Heq|Hne].
  - destruct (write_cell_spec shift i (shown self (ln + 1) key))
      as (s1 & -> & _); [lia|apply Hs; tauto|].
    cbn [mbind result_bind].
    destruct (decide (compressed self ln key)) as [Hc|Hc]; simpl; [by eexists|].
    destruct (write_cell_spec base i (shown self ln key))
      as (b1 & -> & _); [lia|apply Hb; tauto|].
    by eexists.
  - destruct (write_cell_spec base i (shown self ln key))
      as (b1 & -> & _); [lia|apply Hb; tauto|].
    cbn [mbind result_bind].
    destruct (decide (compressed self ln key)) as [Hc|Hc]; simpl; [by eexists|].
    destruct (write_cell_spec shift i (shown self (ln + 1) key))
      as (s1 & -> & _); [lia|apply Hs; tauto|].
    by eexists.
Qed.

Lemma fill_keys_total self ln ks b s i :
  ln + 1 < length (layers self) → (1 ≤ i)%Z →
  (∀ k, k < length ks →
        (i + 6 * Z.of_nat k < Z.of_nat (length b))%Z ∧
        (i + 6 * Z.of_nat k < Z.of_nat (length s))%Z) →
  (∀ key, key ∈ ks →
     (¬ (ln = Layer.BASE ∧ compressed self ln key) →
      shown self ln key ≠ []) ∧
     (¬ (ln ≠ Layer.BASE ∧ compressed self ln key) →
      shown self (ln + 1) key ≠ [])) →
  ∃ st, for_each_r (λ '(base, shift, i) key,
                      bs ← fill_key self ln base shift i key;
                      mret (bs.1, bs.2, (i + 6)%Z))
                   ks (b, s, i) = Ok st.
Proof.
  intros Hln. revert b s i.
  induction ks as [|key ks IH]; intros b s i Hi Hfit Hval; [by eexists|].
  cbn [for_each_r].
  destruct (Hfit 0) as [Hb Hs]; [simpl; lia|].
  destruct (Hval key) as [Hvb Hvs]; [by left|].
  destruct (fill_key_total self ln b s i key) as ([b' s'] & Hf);
    [done|lia|lia|done|done|].
  rewrite Hf. cbn [mbind result_bind mret result_ret fst snd].
  apply fill_key_length in Hf as [Hlb Hls].
  apply IH; [lia| |].
  - intros k Hk. destruct (Hfit (S k)) as [? ?]; [simpl; lia|].
    rewrite Hlb, Hls. lia.
  - intros key' Hin. apply Hval. by right.
Qed.

Lemma fill_row_total self ln T (j : nat) r :
  ln + 1 < length (layers self) →
  (1 ≤ offset r + col_offset ln)%Z →
  (∃ nb ns,
     length <$> T !! (2 + 3 * j) = Some nb ∧
     length <$> T !! (1 + 3 * j) = Some ns ∧
     ∀ k, k < length (keys r) →
          (key_column ln r k < Z.of_nat nb)%Z ∧
          (key_column ln r k < Z.of_nat ns)%Z) →
  (∀ key, key ∈ keys r →
     (¬ (ln = Layer.BASE ∧ compressed self ln key) →
      shown self ln key ≠ []) ∧
     (¬ (ln ≠ Layer.BASE ∧ compressed self ln key) →
      shown self (ln + 1) key ≠ [])) →
  ∃ T', fill_row self ln T (Z.of_nat j) r = Ok T'.
Proof.
  intros Hln Hm (nb & ns & Hnb & Hns & Hfit) Hval.
  apply fmap_Some in Hnb as (b0 & Hb0 & ->).
  apply fmap_Some in Hns as (s0 & Hs0 & ->).
  unfold fill_row.
  assert (Z.to_nat (2 + Z.of_nat j * 3) = 2 + 3 * j) as E2 by lia.
  assert (Z.to_nat (1 + Z.of_nat j * 3) = 1 + 3 * j) as E1 by lia.
  rewrite (py_index_nonneg T (2 + Z.of_nat j * 3) b0) by (lia || by rewrite E2).
  cbn [mbind result_bind].
  rewrite (py_index_nonneg T (1 + Z.of_nat j * 3) s0) by (lia || by rewrite E1).
  cbn [mbind result_bind].
  destruct (fill_keys_total self ln (keys r) b0 s0
              (offset r + col_offset ln)%Z) as (st & Hloop); [done..|].
  rewrite Hloop. cbn [mbind result_bind].
  pose proof (lookup_lt_Some _ _ _ Hb0).
  pose proof (lookup_lt_Some _ _ _ Hs0).
  rewrite py_setitem_nonneg by lia. cbn [mbind result_bind].
  rewrite py_setitem_nonneg by (rewrite length_insert; lia).
  by eexists.
Qed.

Lemma fill_rows_total self ln rows T (j : nat) :
  ln + 1 < length (layers self) →
  (∀ j' r, rows !! j' = Some r →
     (1 ≤ offset r + col_offset ln)%Z ∧
     ∃ nb ns,
       length <$> T !! (2 + 3 * (j + j')) = Some nb ∧
       length <$> T !! (1 + 3 * (j + j')) = Some ns ∧
       ∀ k, k < length (keys r) →
            (key_column ln r k < Z.of_nat nb)%Z ∧
            (key_column ln r k < Z.of_nat ns)%Z) →
  (∀ key, key ∈ all_keys rows →
     (¬ (ln = Layer.BASE ∧ compressed self ln key) →
      shown self ln key ≠ []) ∧
     (¬ (ln ≠ Layer.BASE ∧ compressed self ln key) →
      shown self (ln + 1) key ≠ [])) →
  ∃ st, for_each_r (λ '(template, j) r,
                      template ← fill_row self ln template j r;
                      mret (template, (j + 1)%Z))
                   rows (T, Z.of_nat j) = Ok st.
Proof.
  intros Hln. revert T j.
  induction rows as [|r rows IH]; intros T j Hfit Hval; [by eexists|].
  cbn [for_each_r].
  destruct (Hfit 0 r) as [Hm Hr]; [done|]. rewrite Nat.add_0_r in Hr.
  destruct (fill_row_total self ln T j r) as (T' & Hrow); [done..| |].
  { intros key Hin. apply Hval. unfold all_keys. simpl.
    apply elem_of_app. by left. }
  rewrite Hrow. cbn [mbind result_bind mret result_ret].
  apply fill_row_lengths in Hrow.
  replace (Z.of_nat j + 1)%Z with (Z.of_nat (S j)) by lia.
  apply IH.
  - intros j' r' Hj'. destruct (Hfit (S j') r' Hj') as [? Hr'].
    split; [done|].
    rewrite <- !list_lookup_fmap, Hrow, !list_lookup_fmap.
    by replace (S j + j') with (j + S j') by lia.
  - intros key Hin. apply Hval. unfold all_keys. simpl.
    apply elem_of_app. by right.
Qed.

Lemma fill_template_total_gen self T0 rows ln :
  fits ln rows T0 → ln + 1 < length (layers self) →
  (∀ key, key ∈ all_keys rows →
     (¬ (ln = Layer.BASE ∧ compressed self ln key) →
      shown self ln key ≠ []) ∧
     (¬ (ln ≠ Layer.BASE ∧ compressed self ln key) →
      shown self (ln + 1) key ≠ [])) →
  ∃ T, _fill_template self T0 rows ln = Ok T.
Proof.
  intros [Hm Hfit] Hln Hval. unfold _fill_template.
  destruct (fill_rows_total self ln rows T0 0) as (st & Hloop); [done| |done|].
  - intros j r Hj. split; [|by apply Hfit].
    unfold margins in Hm. rewrite Forall_forall in Hm. apply Hm.
    by eapply list_elem_of_lookup_2.
  - change (Z.of_nat 0) with 0%Z in Hloop. rewrite Hloop. by eexists.
Qed.

End fill_total.

(** ** The parser on a whole canvas *)

Lemma read_cell_nonneg_inv (line : str) (i : Z) (v : str) :
  (1 ≤ i)%Z → read_cell line i = Ok v →
  ∃ m g, line !! Z.to_nat (i - 1) = Some m ∧ line !! Z.to_nat i = Some g ∧
         v = cell m g.
Proof.
  intros Hi. unfold read_cell. intros Hr.
  apply bind_Ok in Hr as (m & Hm & Hr).
  apply bind_Ok in Hr as (g & Hg & Hr).
  apply py_index_nonneg_inv in Hm; [|lia].
  apply py_index_nonneg_inv in Hg; [|lia].
  cbv [mret result_ret] in Hr. simplify_eq. by exists m, g.
Qed.

Lemma read_cell_raises (line : str) (i : Z) e :
  read_cell line i = Raise e → e = IndexError.
Proof.
  unfold read_cell. intros Hr.
  apply bind_Raise in Hr as [Hr|(m & _ & Hr)];
    [by apply py_index_raises in Hr|].
  apply bind_Raise in Hr as [Hr|(g & _ & Hr)];
    [by apply py_index_raises in Hr|done].
Qed.

Lemma stored_is_Some v old : is_Some old → is_Some (stored v old).
Proof. unfold stored. by destruct (decide _). Qed.

Lemma store_glyph_inv self n key v self1 :
  (if negb (str_eqb v (py " ")) then set_layer_item self n key v
   else Ok self) = Ok self1 →
  (∀ n' k', glyph self1 n' k'
            = if decide (n = n' ∧ key = k') then stored v (glyph self n' k')
              else glyph self n' k') ∧
  (∀ n', n' ≠ n → layers self1 !! n' = layers self !! n').
Proof.
  rewrite str_eqb_decide. unfold stored.
  destruct (decide (v = py " ")) as [Hv|Hv]; simpl.
  - intros [= <-]. split; [|done]. intros n' k'. by destruct (decide _).
  - intros Hset. split.
    + apply set_layer_item_effect in Hset as (_ & _ & _ & Hg). apply Hg.
    + apply set_layer_item_inv in Hset as (d & Hd & ->). intros n' Hn'.
      simpl. by rewrite list_lookup_insert_ne.
Qed.

Lemma store_glyph_raises self n key v e :
  (if negb (str_eqb v (py " ")) then set_layer_item self n key v
   else Ok self) = Raise e → e = IndexError.
Proof.
  destruct (negb _); [|done]. unfold set_layer_item, get_layer.
  destruct (layers self !! n); [done|]. by intros [= <-].
Qed.

Lemma base_value_expand {cm : CaseMap} ln b s :
  expand_base ln b s = base_value ln b s.
Proof. by rewrite expand_base_spec. Qed.

Lemma shift_value_expand {cm : CaseMap} ln b s :
  expand_shift ln (expand_base ln b s) s = shift_value ln b s.
Proof. by rewrite expand_shift_spec, base_value_expand. Qed.

Section parse_effect.
Context {cm : CaseMap}.
Variable DEAD_KEYS : list loc.

Lemma parse_key_effect ln base shift self i key h self' h' :
  parse_key DEAD_KEYS ln base shift self i key h = (Ok self', h') →
  ∃ b s,
    read_cell base i = Ok b ∧ read_cell shift i = Ok s ∧
    (∀ n k, glyph self' n k
            = if decide (n = ln ∧ k = key)
              then stored (base_value ln b s) (glyph self n k)
              else if decide (n = ln + 1 ∧ k = key)
              then stored (shift_value ln b s) (glyph self n k)
              else glyph self n k) ∧
    (∀ n, n ≠ ln → n ≠ ln + 1 → layers self' !! n = layers self !! n).
Proof.
  intros Hp.
  apply parse_key_layers in Hp
    as (b & s & Hb & Hs & self1 & self2 & d & H1 & H2 & ->).
  rewrite base_value_expand in H1. rewrite shift_value_expand in H2.
  rewrite Nat.add_0_r in H1.
  apply store_glyph_inv in H1 as [Hg1 Hl1].
  apply store_glyph_inv in H2 as [Hg2 Hl2].
  exists b, s. do 2 (split; [done|]). split.
  - intros n k. change (glyph (with_dead_keys d self2) n k)
      with (glyph self2 n k).
    rewrite Hg2, Hg1.
    destruct (decide (n = ln ∧ k = key)) as [[-> ->]|H1].
    + rewrite decide_False by lia. by rewrite decide_True.
    + destruct (decide (n = ln + 1 ∧ k = key)) as [[-> ->]|H2].
      * rewrite decide_True by done. by rewrite decide_False by lia.
      * rewrite decide_False by (intros [? ?]; apply H2; by subst).
        rewrite decide_False by (intros [? ?]; apply H1; by subst). done.
  - intros n Hn Hn'. change (layers (with_dead_keys d self2))
      with (layers self2). rewrite Hl2, Hl1 by done. done.
Qed.

End parse_effect.

Lemma parsed_within_refl ln ks self : parsed_within ln ks self self.
Proof. by repeat split. Qed.

Lemma all_keys_snoc (rows : list row) (r : row) :
  all_keys (rows ++ [r]) = all_keys rows ++ keys r.
Proof.
  unfold all_keys. rewrite bind_app. simpl. by rewrite app_nil_r.
Qed.

Section parse_template.
Context {cm : CaseMap}.
Variable DEAD_KEYS : list loc.

Lemma parse_row_spec template ln self (j : nat) r h :
  wp (parse_row DEAD_KEYS template ln self (Z.of_nat j) r)
     (λ self' _,
        ∃ base shift,
          template !! (2 + 3 * j) = Some base ∧
          template !! (1 + 3 * j) = Some shift ∧
          parsed_within ln (keys r) self self' ∧
          (NoDup (keys r) →
           ∀ k key, keys r !! k = Some key →
                    reads ln base shift (key_column ln r k) key self self'))
     (λ _ _, True) h.
Proof.
  unfold parse_row.
  apply wp_bind, wp_lift.
  destruct (py_index template (2 + _)) as [base|] eqn:Hb; [|done].
  apply wp_bind, wp_lift.
  destruct (py_index template (1 + _)) as [shift|] eqn:Hs; [|done].
  apply py_index_nonneg_inv in Hb; [|lia].
  apply py_index_nonneg_inv in Hs; [|lia].
  replace (Z.to_nat (2 + Z.of_nat j * 3)) with (2 + 3 * j) in Hb by lia.
  replace (Z.to_nat (1 + Z.of_nat j * 3)) with (1 + 3 * j) in Hs by lia.
  apply wp_bind.
  eapply wp_mono; [| |apply (wp_for_each _ (keys r)
    (λ done (si : KeyboardLayout * Z) (_ : heap),
       si.2 = key_column ln r (length done) ∧
       parsed_within ln done self si.1 ∧
       (NoDup done →
        ∀ k key, done !! k = Some key →
                 reads ln base shift (key_column ln r k) key self si.1))
    (λ _ _, True))].
  - intros si h' (_ & Hw & Hr). apply wp_ret. by exists base, shift.
  - done.
  - intros done x todo [self1 i] h1 Hsplit (Hi & (Hl & Hf & Hm) & Hr).
    cbn [fst snd] in *. subst i.
    apply wp_bind. apply wp_intro; [|done].
    intros self2 h2 Hp. apply wp_ret. cbn [fst snd].
    apply parse_key_effect in Hp as (b & s & Hb' & Hs' & Hg & Hl').
    split; [rewrite length_app; unfold key_column; simpl; lia|].
    split; [split; [|split]|].
    + intros n Hn Hn'. rewrite Hl' by done. by apply Hl.
    + intros n k Hk. rewrite Hg.
      apply not_elem_of_app in Hk as [Hk Hx].
      apply not_elem_of_cons in Hx as [Hx _].
      rewrite !decide_False by (intros [? ?]; done). by apply Hf.
    + intros n k Hsome. rewrite Hg.
      repeat destruct (decide _); try apply stored_is_Some; by apply Hm.
    + intros Hnd k key Hk.
      apply NoDup_app in Hnd as (Hnd & Hdis & _).
      assert (x ∉ done) as Hx.
      { intros Hin. apply (Hdis x Hin). by left. }
      destruct (decide (k < length done)) as [Hlt|Hge].
      * rewrite lookup_app_l in Hk by done.
        assert (key ≠ x) as Hne
          by (intros ->; apply Hx; by eapply list_elem_of_lookup_2).
        destruct (Hr Hnd k key Hk) as (b1 & s1 & ? & ? & Hgb & Hgs).
        exists b1, s1. do 2 (split; [done|]).
        rewrite !Hg, !decide_False by (intros [? ?]; done). done.
      * pose proof (lookup_lt_Some _ _ _ Hk) as Hlen.
        rewrite length_app in Hlen. cbn [length] in Hlen.
        assert (k = length done) as -> by lia.
        rewrite lookup_app_r, Nat.sub_diag in Hk by done.
        cbn in Hk. simplify_eq.
        exists b, s. do 2 (split; [done|]).
        rewrite !Hg. rewrite decide_True by done.
        rewrite (decide_False (P := ln + 1 = ln ∧ _)) by lia.
        rewrite decide_True by done.
        by rewrite !Hf by done.
  - cbn [fst snd length]. split; [unfold key_column; lia|].
    split; [apply parsed_within_refl|]. by intros _ k key Hk.
Qed.

Lemma parse_template_spec template rows ln self h :
  wp (_parse_template DEAD_KEYS self template rows ln)
     (λ self' _,
        parsed_within ln (all_keys rows) self self' ∧
        (NoDup (all_keys rows) →
         ∀ j r k key, rows !! j = Some r → keys r !! k = Some key →
           ∃ base shift,
             template !! (2 + 3 * j) = Some base ∧
             template !! (1 + 3 * j) = Some shift ∧
             reads ln base shift (key_column ln r k) key self self'))
     (λ _ _, True) h.
Proof.
  unfold _parse_template. apply wp_bind.
  eapply wp_mono; [| |apply (wp_for_each _ rows
    (λ done (sj : KeyboardLayout * Z) (_ : heap),
       sj.2 = Z.of_nat (length done) ∧
       parsed_within ln (all_keys done) self sj.1 ∧
       (NoDup (all_keys done) →
        ∀ j r k key, done !! j = Some r → keys r !! k = Some key →
          ∃ base shift,
            template !! (2 + 3 * j) = Some base ∧
            template !! (1 + 3 * j) = Some shift ∧
            reads ln base shift (key_column ln r k) key self sj.1))
    (λ _ _, True))].
  - intros sj h' (_ & Hw & Hr). by apply wp_ret.
  - done.
  - intros done r todo [self1 j] h1 Hsplit (Hj & (Hl & Hf & Hm) & Hr).
    cbn [fst snd] in *. subst j.
    apply wp_bind.
    eapply wp_mono; [| |apply parse_row_spec]; [|done].
    intros self2 h2 (base & shift & Hb & Hs & (Hl2 & Hf2 & Hm2) & Hr2).
    apply wp_ret. cbn [fst snd]. rewrite all_keys_snoc.
    split; [rewrite length_app; simpl; lia|].
    split; [split; [|split]|].
    + intros n Hn Hn'. rewrite Hl2 by done. by apply Hl.
    + intros n k Hk. apply not_elem_of_app in Hk as [Hk Hk'].
      rewrite Hf2 by done. by apply Hf.
    + intros n k Hsome. by apply Hm2, Hm.
    + intros Hnd j r' k key Hj Hk.
      apply NoDup_app in Hnd as (Hnd & Hdis & Hndr).
      destruct (decide (j < length done)) as [Hlt|Hge].
      * rewrite lookup_app_l in Hj by done.
        assert (key ∈ all_keys done) as Hin.
        { unfold all_keys. apply list_elem_of_bind. exists r'.
          split; by eapply list_elem_of_lookup_2. }
        destruct (Hr Hnd j r' k key Hj Hk)
          as (b1 & s1 & ? & ? & c1 & c2 & ? & ? & Hgb & Hgs).
        exists b1, s1. do 2 (split; [done|]).
        exists c1, c2. do 2 (split; [done|]).
        rewrite !Hf2 by (by apply Hdis). done.
      * pose proof (lookup_lt_Some _ _ _ Hj) as Hlen.
        rewrite length_app in Hlen. cbn [length] in Hlen.
        assert (j = length done) as -> by lia.
        rewrite lookup_app_r, Nat.sub_diag in Hj by done.
        cbn in Hj. simplify_eq.
        assert (key ∈ keys r') as Hin by (by eapply list_elem_of_lookup_2).
        assert (key ∉ all_keys done) as Hnin
          by (intros Hin'; by apply (Hdis key Hin')).
        destruct (Hr2 Hndr k key Hk) as (c1 & c2 & ? & ? & Hgb & Hgs).
        exists base, shift. do 2 (split; [done|]).
        exists c1, c2. do 2 (split; [done|]).
        rewrite Hgb, Hgs, !Hf by done. done.
  - cbn [fst snd length]. split; [done|].
    split; [apply parsed_within_refl|]. by intros _ j r k key Hj.
Qed.

End parse_template.

Section parse_total.
Context {cm : CaseMap}.
Variable DEAD_KEYS : list loc.

Lemma read_cell_total (line : str) (i : Z) :
  (1 ≤ i < Z.of_nat (length line))%Z → ∃ v, read_cell line i = Ok v.
Proof.
  intros Hi.
  destruct (lookup_lt_is_Some_2 line (Z.to_nat (i - 1))) as [m Hm]; [lia|].
  destruct (lookup_lt_is_Some_2 line (Z.to_nat i)) as [g Hg]; [lia|].
  exists (cell m g). apply read_cell_spec; (done || lia).
Qed.

Lemma parse_key_total ln base shift self i key h :
  ln + 1 < length (layers self) →
  (1 ≤ i < Z.of_nat (length base))%Z → (i < Z.of_nat (length shift))%Z →
  wp (parse_key DEAD_KEYS ln base shift self i key)
     (λ self' _, length (layers self') = length (layers self))
     (λ _ _, False) h.
Proof.
  intros Hln Hb Hs. unfold parse_key.
  destruct (read_cell_total base i) as [b ->]; [done|].
  destruct (read_cell_total shift i) as [s ->]; [lia|].
  apply wp_bind, wp_lift. apply wp_bind, wp_lift. cbv zeta.
  destruct (store_glyph self (ln + 0) key (expand_base ln b s))
    as (self1 & -> & Hl1 & _); [lia|].
  apply wp_bind, wp_lift.
  destruct (store_glyph self1 (ln + 1) key
              (expand_shift ln (expand_base ln b s) s))
    as (self2 & -> & Hl2 & _); [lia|].
  apply wp_bind, wp_lift.
  eapply wp_mono; [| |apply register_dead_keys_total]; [|done].
  intros self3 h3 [d ->]. simpl. congruence.
Qed.

Lemma parse_key_raises ln base shift self i key h :
  wp (parse_key DEAD_KEYS ln base shift self i key)
     (λ _ _, True) (λ e _, e = IndexError) h.
Proof.
  unfold parse_key.
  apply wp_bind, wp_lift.
  destruct (read_cell base i) as [b|e] eqn:Hb;
    [|by apply read_cell_raises in Hb].
  apply wp_bind, wp_lift.
  destruct (read_cell shift i) as [s|e] eqn:Hs;
    [|by apply read_cell_raises in Hs].
  cbv zeta. apply wp_bind, wp_lift.
  destruct (if negb (str_eqb (expand_base ln b s) _) then _ else _)
    as [self1|e] eqn:H1; [|by apply store_glyph_raises in H1].
  apply wp_bind, wp_lift.
  destruct (if negb (str_eqb (expand_shift ln _ s) _) then _ else _)
    as [self2|e] eqn:H2; [|by apply store_glyph_raises in H2].
  eapply wp_mono; [| |apply register_dead_keys_total]; done.
Qed.

Lemma parse_template_raises template rows ln self h :
  wp (_parse_template DEAD_KEYS self template rows ln)
     (λ _ _, True) (λ e _, e = IndexError) h.
Proof.
  unfold _parse_template. apply wp_bind.
  eapply wp_mono; [| |apply (wp_for_each_inv _ rows
    (λ _ _, True) (λ e _, e = IndexError))]; [by intros; apply wp_ret|done| |done].
  intros r [self1 j] h1 _ _. apply wp_bind. unfold parse_row.
  apply wp_bind, wp_lift.
  destruct (py_index template (2 + _)) as [base|e] eqn:Hb;
    [|by apply py_index_raises in Hb].
  apply wp_bind, wp_lift.
  destruct (py_index template (1 + _)) as [shift|e] eqn:Hs;
    [|by apply py_index_raises in Hs].
  apply wp_bind.
  eapply wp_mono; [| |apply (wp_for_each_inv _ (keys r)
    (λ _ _, True) (λ e _, e = IndexError))];
    [by intros; apply wp_ret; apply wp_ret|done| |done].
  intros key [self2 i] h2 _ _. apply wp_bind.
  eapply wp_mono; [| |apply parse_key_raises]; [|done].
  intros; by apply wp_ret.
Qed.

Lemma parse_row_total template ln self (j : nat) r h :
  ln + 1 < length (layers self) →
  (1 ≤ offset r + col_offset ln)%Z →
  (∃ nb ns,
     length <$> template !! (2 + 3 * j) = Some nb ∧
     length <$> template !! (1 + 3 * j) = Some ns ∧
     ∀ k, k < length (keys r) →
          (key_column ln r k < Z.of_nat nb)%Z ∧
          (key_column ln r k < Z.of_nat ns)%Z) →
  wp (parse_row DEAD_KEYS template ln self (Z.of_nat j) r)
     (λ self' _, length (layers self') = length (layers self))
     (λ _ _, False) h.
Proof.
  intros Hln Hm (nb & ns & Hnb & Hns & Hfit).
  apply fmap_Some in Hnb as (b0 & Hb0 & ->).
  apply fmap_Some in Hns as (s0 & Hs0 & ->).
  unfold parse_row.
  assert (Z.to_nat (2 + Z.of_nat j * 3) = 2 + 3 * j) as E2 by lia.
  assert (Z.to_nat (1 + Z.of_nat j * 3) = 1 + 3 * j) as E1 by lia.
  rewrite (py_index_nonneg template (2 + Z.of_nat j * 3) b0)
    by (lia || by rewrite E2).
  rewrite (py_index_nonneg template (1 + Z.of_nat j * 3) s0)
    by (lia || by rewrite E1).
  apply wp_bind, wp_lift. apply wp_bind, wp_lift. apply wp_bind.
  eapply wp_mono; [| |apply (wp_for_each _ (keys r)
    (λ done (si : KeyboardLayout * Z) (_ : heap),
       si.2 = key_column ln r (length done) ∧
       length (layers si.1) = length (layers self))
    (λ _ _, False))].
  - intros si h' [_ Hl]. by apply wp_ret.
  - done.
  - intros done x todo [self1 i] h1 Hsplit [Hi Hl]. cbn [fst snd] in *.
    subst i. apply wp_bind.
    assert (length done < length (keys r)) as Hk
      by (rewrite Hsplit, length_app; simpl; lia).
    destruct (Hfit _ Hk) as [? ?].
    eapply wp_mono; [| |apply parse_key_total]; [|done|..].
    + intros self2 h2 Hl2. apply wp_ret. cbn [fst snd].
      split; [rewrite length_app; unfold key_column; simpl; lia|congruence].
    + lia.
    + unfold key_column in *. lia.
    + lia.
  - cbn [fst snd length]. split; [unfold key_column; lia|done].
Qed.

Lemma parse_template_total_wp template rows ln self h :
  fits ln rows template → ln + 1 < length (layers self) →
  wp (_parse_template DEAD_KEYS self template rows ln)
     (λ self' _, length (layers self') = length (layers self))
     (λ _ _, False) h.
Proof.
  intros [Hm Hfit] Hln. unfold _parse_template. apply wp_bind.
  eapply wp_mono; [| |apply (wp_for_each _ rows
    (λ done (sj : KeyboardLayout * Z) (_ : heap),
       sj.2 = Z.of_nat (length done) ∧
       length (layers sj.1) = length (layers self))
    (λ _ _, False))].
  - intros sj h' [_ Hl]. by apply wp_ret.
  - done.
  - intros done r todo [self1 j] h1 Hsplit [Hj Hl]. cbn [fst snd] in *.
    subst j. apply wp_bind.
    assert (rows !! length done = Some r) as Hr.
    { rewrite Hsplit, lookup_app_r, Nat.sub_diag by done. done. }
    eapply wp_mono; [| |apply parse_row_total]; [|done|..].
    + intros self2 h2 Hl2. apply wp_ret. cbn [fst snd].
      split; [rewrite length_app; simpl; lia|congruence].
    + lia.
    + unfold margins in Hm. rewrite Forall_forall in Hm. apply Hm.
      by eapply list_elem_of_lookup_2.
    + by apply Hfit.
  - done.
Qed.

End parse_total.

Section registration.
Context {cm : CaseMap}.
Variable DEAD_KEYS : list loc.
Variable h0 : heap.
Hypothesis catalog_allocated : Forall (λ c, c < length h0) DEAD_KEYS.

Lemma register_loop_spec (b s : str) self h :
  h0 `prefix_of` h →
  wp (for_each (register_dead_key b s) DEAD_KEYS self)
     (λ self' h',
        h0 `prefix_of` h' ∧ layers self' = layers self ∧
        (∀ id, is_Some (dict_get (dead_keys self) id) →
               is_Some (dict_get (dead_keys self') id)) ∧
        (trigger DEAD_KEYS h0 b → is_Some (dict_get (dead_keys self') b)) ∧
        (trigger DEAD_KEYS h0 s → is_Some (dict_get (dead_keys self') s)))
     (λ _ _, False) h.
Proof.
  intros Hpre.
  eapply wp_mono; [| |apply (wp_for_each _ DEAD_KEYS
    (λ done self' h',
       h0 `prefix_of` h' ∧ layers self' = layers self ∧
       (∀ id, is_Some (dict_get (dead_keys self) id) →
              is_Some (dict_get (dead_keys self') id)) ∧
       (trigger done h0 b → is_Some (dict_get (dead_keys self') b)) ∧
       (trigger done h0 s → is_Some (dict_get (dead_keys self') s)))
    (λ _ _, False))]; [done|done| |].
  - intros done c todo self1 h1 Hsplit (Hp1 & Hl1 & Hg1 & Hb1 & Hs1).
    assert (c < length h0) as Hc.
    { rewrite Forall_forall in catalog_allocated.
      apply catalog_allocated. rewrite Hsplit.
      apply elem_of_app. right. by left. }
    assert (Hstep : ∀ (v : str) self2 h2,
      h0 `prefix_of` h2 → layers self2 = layers self →
      (∀ id, is_Some (dict_get (dead_keys self) id) →
             is_Some (dict_get (dead_keys self2) id)) →
      wp (if str_eqb v (dk_char (deref h2 c))
          then register_copy v c self2 else mret self2)
         (λ self3 h3,
            h0 `prefix_of` h3 ∧ layers self3 = layers self ∧
            (∀ id, is_Some (dict_get (dead_keys self2) id) →
                   is_Some (dict_get (dead_keys self3) id)) ∧
            (dk_char (deref h0 c) = v →
             is_Some (dict_get (dead_keys self3) v)))
         (λ _ _, False) h2).
    { intros v self2 h2 Hp2 Hl2 Hg2.
      rewrite (deref_prefix h0 h2 c) by done.
      rewrite str_eqb_decide.
      destruct (decide (v = dk_char (deref h0 c))) as [Hv|Hv].
      - unfold register_copy. apply wp_bind, wp_copy, wp_ret. simpl.
        split; [by apply prefix_app_r|]. split; [done|]. split.
        + intros id Hid. rewrite dict_get_set. by destruct (decide _).
        + intros _. by rewrite dict_get_set_eq.
      - apply wp_ret. do 3 (split; [done|]). by intros <-. }
    unfold register_dead_key.
    apply wp_bind, wp_load. apply wp_bind.
    eapply wp_mono; [| |apply (Hstep b); done]; [|done].
    intros self2 h2 (Hp2 & Hl2 & Hg2 & Hb2).
    apply wp_bind, wp_load.
    eapply wp_mono; [| |apply (Hstep s); [done|done|]]; [|done|].
    2: { intros id Hid. by apply Hg2, Hg1. }
    intros self3 h3 (Hp3 & Hl3 & Hg3 & Hs3).
    split; [done|]. split; [done|].
    split; [intros id Hid; by apply Hg3, Hg2, Hg1|].
    split; intros (c' & Hc' & Hchar);
      apply elem_of_app in Hc' as [Hc'|Hc'].
    + apply Hg3, Hg2, Hb1. by exists c'.
    + apply list_elem_of_singleton in Hc' as ->. by apply Hg3, Hb2.
    + apply Hg3, Hg2, Hs1. by exists c'.
    + apply list_elem_of_singleton in Hc' as ->. by apply Hs3.
  - do 3 (split; [done|]).
    split; intros (c & Hc & _); by apply elem_of_nil in Hc.
Qed.

Lemma parse_key_registered ln base shift self i key h :
  h0 `prefix_of` h → registered DEAD_KEYS h0 self →
  wp (parse_key DEAD_KEYS ln base shift self i key)
     (λ self' h', h0 `prefix_of` h' ∧ registered DEAD_KEYS h0 self')
     (λ _ _, True) h.
Proof.
  intros Hpre Hreg. unfold parse_key.
  apply wp_bind, wp_lift.
  destruct (read_cell base i) as [b|e]; [|done].
  apply wp_bind, wp_lift.
  destruct (read_cell shift i) as [s|e]; [|done].
  cbv zeta. apply wp_bind, wp_lift.
  destruct (if negb (str_eqb (expand_base ln b s) _) then _ else _)
    as [self1|e] eqn:H1; [|done].
  apply wp_bind, wp_lift.
  destruct (if negb (str_eqb (expand_shift ln _ s) _) then _ else _)
    as [self2|e] eqn:H2; [|done].
  pose proof (store_glyph_dead_keys _ _ _ _ _ H1) as Hd1.
  pose proof (store_glyph_dead_keys _ _ _ _ _ H2) as Hd2.
  apply store_glyph_inv in H1 as [Hg1 _].
  apply store_glyph_inv in H2 as [Hg2 _].
  eapply wp_mono; [| |apply register_loop_spec; exact Hpre]; [|done].
  intros self3 h3 (Hp3 & Hl3 & Hg3 & Hb3 & Hs3).
  split; [done|]. intros n k v Hv Htr.
  unfold glyph in Hv. rewrite Hl3 in Hv. fold (glyph self2 n k) in Hv.
  rewrite Hg2, Hg1 in Hv. unfold stored in Hv.
  assert (is_Some (dict_get (dead_keys self) v) →
          is_Some (dict_get (dead_keys self3) v)) as Hold.
  { intros Hs. apply Hg3. by rewrite Hd2, Hd1. }
  repeat destruct (decide _); simplify_eq;
    try (by apply Hb3); try (by apply Hs3); by eapply Hold, Hreg.
Qed.

Lemma parse_template_registered template rows ln self h :
  h0 `prefix_of` h → registered DEAD_KEYS h0 self →
  wp (_parse_template DEAD_KEYS self template rows ln)
     (λ self' h', h0 `prefix_of` h' ∧ registered DEAD_KEYS h0 self')
     (λ _ _, True) h.
Proof.
  intros Hpre Hreg. unfold _parse_template. apply wp_bind.
  eapply wp_mono; [| |apply (wp_for_each_inv _ rows
    (λ sj h', h0 `prefix_of` h' ∧ registered DEAD_KEYS h0 sj.1)
    (λ _ _, True))]; [by intros; apply wp_ret|done| |done].
  intros r [self1 j] h1 _ [Hp1 Hr1]. apply wp_bind. unfold parse_row.
  apply wp_bind, wp_lift.
  destruct (py_index template (2 + _)) as [base|e]; [|done].
  apply wp_bind, wp_lift.
  destruct (py_index template (1 + _)) as [shift|e]; [|done].
  apply wp_bind.
  eapply wp_mono; [| |apply (wp_for_each_inv _ (keys r)
    (λ si h', h0 `prefix_of` h' ∧ registered DEAD_KEYS h0 si.1)
    (λ _ _, True))];
    [by intros; apply wp_ret; apply wp_ret|done| |done].
  intros key [self2 i] h2 _ [Hp2 Hr2]. apply wp_bind.
  eapply wp_mono; [| |apply parse_key_registered]; [|done..].
  intros; by apply wp_ret.
Qed.

End registration.

(** ** Filling then parsing, on a whole canvas *)

Lemma default_stored_None (v : str) : default (py " ") (stored v None) = v.
Proof. unfold stored. by destruct (decide (v = py " ")) as [->|]. Qed.

Lemma cell_marker (m g : char) :
  cell (if decide (m = star) then star else space) g = cell m g.
Proof.
  unfold cell. destruct (decide (m = star)) as [->|Hm]; [done|].
  by rewrite decide_False.
Qed.

Lemma read_written (line0 line : str) (i : Z) (m g : char) :
  (1 ≤ i)%Z →
  line !! Z.to_nat i = written line0 (cell m g) i (Z.to_nat i) →
  line !! Z.to_nat (i - 1)
  = written line0 (cell m g) i (Z.to_nat (i - 1)) →
  line0 !! Z.to_nat (i - 1) = Some space →
  read_cell line i = Ok (cell m g).
Proof.
  intros Hi Hg Hm H0. unfold written in Hg, Hm.
  rewrite decide_True in Hg by done. rewrite cell_last in Hg.
  rewrite decide_False in Hm by lia.
  rewrite <- (cell_marker m g).
  apply read_cell_spec; [done| |done].
  rewrite Hm. destruct (decide (m = star)) as [->|Hne].
  - rewrite decide_True; [done|]. split; [done|]. by apply cell_dead.
  - rewrite decide_False; [done|]. intros [_ Hd]. by apply cell_dead in Hd.
Qed.

Lemma read_blank (line0 line : str) (i : Z) :
  (1 ≤ i)%Z →
  line !! Z.to_nat i = line0 !! Z.to_nat i →
  line !! Z.to_nat (i - 1) = line0 !! Z.to_nat (i - 1) →
  line0 !! Z.to_nat i = Some space →
  line0 !! Z.to_nat (i - 1) = Some space →
  read_cell line i = Ok (py " ").
Proof.
  intros Hi Hg Hm H0 H1. rewrite H0 in Hg. rewrite H1 in Hm.
  by rewrite (read_cell_spec line i space space).
Qed.

Lemma fits_lengths ln rows (T T' : list str) :
  length <$> T' = length <$> T → fits ln rows T → fits ln rows T'.
Proof.
  intros HT [Hm Hfit]. split; [done|]. intros j r Hj.
  destruct (Hfit j r Hj) as (nb & ns & Hnb & Hns & Hk).
  exists nb, ns. by rewrite <- !list_lookup_fmap, HT, !list_lookup_fmap.
Qed.

Lemma all_keys_lookup (rows : list row) (key : str) :
  key ∈ all_keys rows ↔
  ∃ j r k, rows !! j = Some r ∧ keys r !! k = Some key.
Proof.
  unfold all_keys. rewrite list_elem_of_bind. split.
  - intros (r & Hk & Hr).
    apply list_elem_of_lookup in Hk as [k Hk].
    apply list_elem_of_lookup in Hr as [j Hr]. by exists j, r, k.
  - intros (j & r & k & Hr & Hk). exists r.
    split; by eapply list_elem_of_lookup_2.
Qed.

Lemma margins_lookup ln rows j r k :
  margins ln rows → rows !! j = Some r → (1 ≤ key_column ln r k)%Z.
Proof.
  unfold margins. rewrite Forall_forall. intros Hm Hr.
  pose proof (Hm r (list_elem_of_lookup_2 _ _ _ Hr)). unfold key_column. lia.
Qed.

Lemma shift_value_blank {cm : CaseMap} ln b :
  ln ≠ Layer.BASE → shift_value ln b (py " ") = upper_key b.
Proof.
  intros Hln. unfold shift_value, base_value.
  rewrite decide_True by done. rewrite decide_False; [done|tauto].
Qed.

Lemma shift_value_given {cm : CaseMap} ln b s :
  s ≠ py " " → shift_value ln b s = s.
Proof. intros Hs. unfold shift_value. rewrite decide_False; [done|tauto]. Qed.

Section roundtrip.
Context {cm : CaseMap}.
Variable DEAD_KEYS : list loc.

(** What a parse into empty planes leaves for a key, in the terms of
    [_fill_template] *)
Lemma parsed_shown ln rows canvas fresh model h0 h1 :
  ln ≠ Layer.BASE → NoDup (all_keys rows) →
  (∀ key, key ∈ all_keys rows →
          glyph fresh ln key = None ∧ glyph fresh (ln + 1) key = None) →
  _parse_template DEAD_KEYS fresh canvas rows ln h0 = (Ok model, h1) →
  ∀ j r k key, rows !! j = Some r → keys r !! k = Some key →
    ∃ base shift b s,
      canvas !! (2 + 3 * j) = Some base ∧ canvas !! (1 + 3 * j) = Some shift ∧
      read_cell base (key_column ln r k) = Ok b ∧
      read_cell shift (key_column ln r k) = Ok s ∧
      glyph model ln key = stored b None ∧
      glyph model (ln + 1) key = stored (shift_value ln b s) None ∧
      shown model ln key = b ∧
      shown model (ln + 1) key = shift_value ln b s.
Proof.
  intros Hln Hnd Hfresh Hparse j r k key Hr Hk.
  destruct (wp_run _ _ _ _
    (parse_template_spec DEAD_KEYS canvas rows ln fresh h0)) as [Hspec _].
  destruct (Hspec _ _ Hparse) as [_ Hreads].
  destruct (Hreads Hnd j r k key Hr Hk)
    as (base & shift & Hb & Hs & b & s & Hrb & Hrs & Hgb & Hgs).
  destruct (Hfresh key) as [Hf0 Hf1].
  { apply all_keys_lookup. by exists j, r, k. }
  rewrite Hf0 in Hgb. rewrite Hf1 in Hgs.
  assert (base_value ln b s = b) as Hbv.
  { unfold base_value. rewrite decide_False; [done|]. by intros [? _]. }
  rewrite Hbv in Hgb.
  exists base, shift, b, s. do 6 (split; [done|]).
  unfold shown. rewrite Hgb, Hgs. by rewrite !default_stored_None.
Qed.

End roundtrip.

(** X11. Round trip of the pairs other than BASE/SHIFT, on a whole canvas:
    parse a canvas into the empty planes of a layout, fill a template whose
    cells are blank from the model, parse the result into the same empty
    planes: the filler does not fail, the second parse does not fail, and it
    gives every key of the shape the values the first parse gave it. *)
Theorem fill_parse_roundtrip {cm : CaseMap} (DEAD_KEYS : list loc) (ln : nat)
  (rows : list row) (canvas blank : list str) (fresh model : KeyboardLayout)
  (h0 h1 h2 : heap) :
  ln ≠ Layer.BASE → NoDup (all_keys rows) →
  fits ln rows blank → blank_cells ln rows blank →
  ln + 1 < length (layers fresh) →
  (∀ key, key ∈ all_keys rows →
          glyph fresh ln key = None ∧ glyph fresh (ln + 1) key = None) →
  _parse_template DEAD_KEYS fresh canvas rows ln h0 = (Ok model, h1) →
  ∃ filled model' h3,
    _fill_template model blank rows ln = Ok filled ∧
    _parse_template DEAD_KEYS fresh filled rows ln h2 = (Ok model', h3) ∧
    ∀ n key, glyph model' n key = glyph model n key.
Proof.
  intros Hln Hnd Hfit Hblank Hlen Hfresh Hparse.
  pose proof (parsed_shown DEAD_KEYS ln rows canvas fresh model h0 h1
                Hln Hnd Hfresh Hparse) as Hshown.
  destruct (wp_run _ _ _ _
    (parse_template_spec DEAD_KEYS canvas rows ln fresh h0)) as [Hspec _].
  destruct (Hspec _ _ Hparse) as [(Hl1 & Hf1 & _) _]. clear Hspec.
  destruct (wp_run _ _ _ _
    (parse_template_stable DEAD_KEYS canvas rows ln fresh h0)) as [Hst _].
  destruct (Hst _ _ Hparse) as [Hlen1 _]. clear Hst.
  (* the filler does not fail *)
  destruct (fill_template_total_gen model blank rows ln) as [filled Hfill];
    [done|lia| |].
  { intros key Hin. apply all_keys_lookup in Hin as (j & r & k & Hr & Hk).
    destruct (Hshown j r k key Hr Hk)
      as (base & shift & b & s & _ & _ & Hrb & Hrs & _ & _ & Hsb & Hss).
    apply read_cell_inv in Hrb as (mb & gb & ->).
    apply read_cell_inv in Hrs as (ms & gs & ->).
    split; [intros _; rewrite Hsb; apply cell_nonempty|].
    intros Hnc. rewrite Hss.
    destruct (decide (cell ms gs = py " ")) as [Hd|Hd];
      [|rewrite shift_value_given by done; apply cell_nonempty].
    exfalso. apply Hnc. split; [done|]. unfold compressed.
    rewrite Hsb, Hss, Hd. by rewrite shift_value_blank. }
  exists filled.
  destruct Hfit as [Hm Hfit'].
  destruct (fill_template_spec model blank rows ln filled Hm Hfill)
    as (_ & _ & Hrows).
  (* the second parse does not fail *)
  pose proof (parse_template_total_wp DEAD_KEYS filled rows ln fresh h2)
    as Htot.
  unfold wp in Htot.
  destruct (_parse_template DEAD_KEYS fresh filled rows ln h2)
    as [[model'|e] h3] eqn:Hparse2.
  2: { exfalso. apply Htot; [|done].
       apply (fits_lengths ln rows blank); [|done].
       by apply fill_template_lengths in Hfill. }
  clear Htot. exists model', h3. do 2 (split; [done|]).
  pose proof (parsed_shown DEAD_KEYS ln rows filled fresh model' h2 h3
                Hln Hnd Hfresh Hparse2) as Hshown2.
  destruct (wp_run _ _ _ _
    (parse_template_spec DEAD_KEYS filled rows ln fresh h2)) as [Hspec _].
  destruct (Hspec _ _ Hparse2) as [(Hl2 & Hf2 & _) _]. clear Hspec.
  intros n key.
  destruct (decide (key ∈ all_keys rows)) as [Hin|Hnin].
  2: { by rewrite Hf1, Hf2. }
  destruct (decide (n = ln ∨ n = ln + 1)) as [Hn|Hn].
  2: { unfold glyph. rewrite Hl1, Hl2 by lia. done. }
  apply all_keys_lookup in Hin as (j & r & k & Hr & Hk).
  destruct (Hshown j r k key Hr Hk)
    as (base & shift & b & s & _ & _ & Hrb & Hrs & Hgb & Hgs & Hsb & Hss).
  destruct (Hshown2 j r k key Hr Hk)
    as (bf & sf & b2 & s2 & Hbf & Hsf & Hrb2 & Hrs2 & Hgb2 & Hgs2 & _ & _).
  destruct (Hrows j r Hr)
    as (b0 & s0 & bf' & sf' & Hb0 & Hs0 & Hbf' & Hsf' & Hfilled).
  assert (bf' = bf) as -> by congruence.
  assert (sf' = sf) as -> by congruence.
  destruct Hfilled as (_ & _ & _ & Hcells).
  pose proof (margins_lookup ln rows j r k Hm Hr) as Hi.
  pose proof (lookup_lt_Some _ _ _ Hk) as Hklt.
  set (i := key_column ln r k) in *.
  destruct (Hcells k key Hk (Z.to_nat i)) as [Hbg Hsg]; [lia|].
  destruct (Hcells k key Hk (Z.to_nat (i - 1))) as [Hbm Hsm]; [lia|].
  destruct (Hblank j r k b0 Hr Hklt) as [Hb0g Hb0m]; [by left|].
  destruct (Hblank j r k s0 Hr Hklt) as [Hs0g Hs0m]; [by right|].
  fold i in Hb0g, Hb0m, Hs0g, Hs0m, Hbg, Hbm, Hsg, Hsm.
  rewrite decide_False in Hbg, Hbm by tauto.
  rewrite Hsb in Hbg, Hbm. rewrite Hss in Hsg, Hsm.
  apply read_cell_inv in Hrb as (mb & gb & ->).
  apply read_cell_inv in Hrs as (ms & gs & ->).
  assert (b2 = cell mb gb) as ->.
  { pose proof (read_written b0 bf i mb gb Hi Hbg Hbm Hb0m). congruence. }
  assert (shift_value ln (cell mb gb) s2
          = shift_value ln (cell mb gb) (cell ms gs)) as Hsame.
  { destruct (decide (ln ≠ Layer.BASE ∧ compressed model ln key))
      as [[_ Hc]|Hnc].
    - pose proof (read_blank s0 sf i Hi Hsg Hsm Hs0g Hs0m) as Hs2.
      assert (s2 = py " ") as -> by congruence.
      unfold compressed in Hc. rewrite Hsb, Hss in Hc. rewrite <- Hc.
      by apply shift_value_blank.
    - assert (shift_value ln (cell mb gb) (cell ms gs) = cell ms gs
              ∧ cell ms gs ≠ py " ") as [Hsv Hne].
      { destruct (decide (cell ms gs = py " ")) as [Hd|Hd];
          [|by rewrite shift_value_given].
        exfalso. apply Hnc. split; [done|]. unfold compressed.
        rewrite Hsb, Hss, Hd. by rewrite shift_value_blank. }
      rewrite Hsv in Hsg, Hsm.
      pose proof (read_written s0 sf i ms gs Hi Hsg Hsm Hs0m) as Hs2.
      assert (s2 = cell ms gs) as -> by congruence. done. }
  destruct Hn as [->| ->]; [by rewrite Hgb, Hgb2|].
  by rewrite Hgs, Hgs2, Hsame.
Qed.

(** ** The filler on a whole canvas: statements *)

Lemma sample_margins ln : margins ln Sample.iso_rows.
Proof.
  unfold margins, Sample.iso_rows, col_offset.
  repeat constructor; simpl; destruct (ln =? Layer.BASE); lia.
Qed.

Lemma sample_fits ln : fits ln Sample.iso_rows Sample.iso_template.
Proof.
  split; [apply sample_margins|].
  intros j r Hj. destruct j as [|[|j]]; simpl in Hj; simplify_eq.
  - exists 19, 19. do 2 (split; [done|]). intros k Hk. simpl in Hk.
    unfold key_column, col_offset. simpl. destruct (ln =? Layer.BASE); lia.
  - exists 19, 19. do 2 (split; [done|]). intros k Hk. simpl in Hk.
    unfold key_column, col_offset. simpl. destruct (ln =? Layer.BASE); lia.
Qed.

Lemma demo_model_filled :
  _fill_template (H := Sample.unicode) demo_model Sample.iso_template
    Sample.iso_rows Layer.ODK = Ok demo_filled.
Proof. vm_compute. reflexivity. Qed.

(** X1. [_fill_template] keeps the dimensions of the canvas: when it
    returns, the canvas has as many lines as the template it was given, and
    every line has the length it had. *)
Theorem fill_template_dimensions {cm : CaseMap} (self : KeyboardLayout)
  (template : list str) (rows : list row) (ln : nat) (filled : list str) :
  _fill_template self template rows ln = Ok filled →
  length filled = length template ∧
  ∀ l, length <$> filled !! l = length <$> template !! l.
Proof.
  intros Hf. apply fill_template_lengths in Hf. split.
  - by rewrite <- (length_fmap length filled), Hf, length_fmap.
  - intros l. by rewrite <- !list_lookup_fmap, Hf.
Qed.

Lemma fill_template_dimensions_witness :
  length demo_filled = length Sample.iso_template ∧
  ∀ l, length <$> demo_filled !! l = length <$> Sample.iso_template !! l.
Proof.
  apply (fill_template_dimensions (cm := Sample.unicode) demo_model
           Sample.iso_template Sample.iso_rows Layer.ODK).
  vm_compute. reflexivity.
Defined.

(** X2. [_fill_template] writes in the cells only: on a shape whose rows
    leave room for the marker column, a character of the canvas that is not
    in the glyph column or the marker column of a key, on one of the two
    lines of the key's row, is the character the template had there. *)
Theorem fill_template_frame {cm : CaseMap} (self : KeyboardLayout)
  (template : list str) (rows : list row) (ln : nat) (filled : list str)
  (l c : nat) :
  margins ln rows →
  _fill_template self template rows ln = Ok filled →
  (∀ j r, rows !! j = Some r → l = 1 + 3 * j ∨ l = 2 + 3 * j →
          ¬ cell_column ln r c) →
  char_at filled l c = char_at template l c.
Proof.
  intros Hm Hf Hc.
  destruct (fill_template_spec self template rows ln filled Hm Hf)
    as (_ & Hframe & Hrows).
  unfold char_at.
  pose proof (Nat.div_mod_eq l 3) as Hdiv.
  pose proof (Nat.mod_upper_bound l 3) as Hmod.
  destruct (decide (l `mod` 3 ≠ 0 ∧ l `div` 3 < length rows)) as [[H3 Hj]|Hno].
  - assert (l = 1 + 3 * (l `div` 3) ∨ l = 2 + 3 * (l `div` 3)) as Hl by lia.
    revert Hj Hl. generalize (l `div` 3). clear Hdiv Hmod H3.
    intros j Hj Hl.
    destruct (lookup_lt_is_Some_2 rows j Hj) as [r Hr].
    destruct (Hrows _ _ Hr)
      as (b0 & s0 & b & s & Hb0 & Hs0 & Hb & Hs & _ & _ & Hcols & _).
    destruct (Hcols c (Hc _ _ Hr Hl)) as [Hbc Hsc].
    destruct Hl as [->| ->].
    + rewrite Hs, Hs0. done.
    + rewrite Hb, Hb0. done.
  - rewrite Hframe; [done|]. intros j Hj. lia.
Qed.

Lemma fill_template_frame_witness :
  char_at demo_filled 1 6 = char_at Sample.iso_template 1 6.
Proof.
  apply (fill_template_frame (cm := Sample.unicode) demo_model
           Sample.iso_template Sample.iso_rows Layer.ODK).
  - apply sample_margins.
  - vm_compute. reflexivity.
  - intros j r Hj Hl (k & Hk & Hc).
    destruct j as [|[|j]]; simpl in Hj; simplify_eq; [|lia].
    unfold key_column, col_offset in Hc.
    change (Layer.ODK =? Layer.BASE) with false in Hc.
    cbn [offset keys length] in Hc, Hk. lia.
Defined.

Lemma written_cell (line0 line v : str) (i : Z) :
  (1 ≤ i)%Z →
  line !! Z.to_nat i = written line0 v i (Z.to_nat i) →
  line !! Z.to_nat (i - 1) = written line0 v i (Z.to_nat (i - 1)) →
  cell_written line0 line i v.
Proof.
  intros Hi Hg Hm. unfold written in Hg, Hm.
  rewrite decide_True in Hg by done. rewrite decide_False in Hm by lia.
  split; [done|]. rewrite Hm.
  destruct (decide (dead_value v)).
  - by rewrite decide_True.
  - rewrite decide_False; [done|tauto].
Qed.

(** X3. What [_fill_template] shows in the cell of a key, on a shape whose
    rows leave room for the marker column: each of the two cells of a key
    that the filler writes holds the last character of the key's value (a
    space for a key the layer does not have) in the glyph column, and the
    marker in the column to its left when the value is a dead key; the
    second value of a pair is left out, and its cell kept as the template
    has it, when [upper_key] of the first value gives it (on BASE/SHIFT it
    is the base cell that is left out). *)
Theorem fill_template_cells {cm : CaseMap} (self : KeyboardLayout)
  (template : list str) (rows : list row) (ln : nat) (filled : list str)
  (j : nat) (r : row) (k : nat) (key : str) :
  margins ln rows →
  _fill_template self template rows ln = Ok filled →
  rows !! j = Some r → keys r !! k = Some key →
  ∃ b0 s0 b s,
    template !! (2 + 3 * j) = Some b0 ∧ template !! (1 + 3 * j) = Some s0 ∧
    filled !! (2 + 3 * j) = Some b ∧ filled !! (1 + 3 * j) = Some s ∧
    (if decide (ln = Layer.BASE ∧ compressed self ln key)
     then cell_kept b0 b (key_column ln r k)
     else cell_written b0 b (key_column ln r k) (shown self ln key)) ∧
    (if decide (ln ≠ Layer.BASE ∧ compressed self ln key)
     then cell_kept s0 s (key_column ln r k)
     else cell_written s0 s (key_column ln r k) (shown self (ln + 1) key)).
Proof.
  intros Hm Hf Hr Hk.
  destruct (fill_template_spec self template rows ln filled Hm Hf)
    as (_ & _ & Hrows).
  destruct (Hrows j r Hr)
    as (b0 & s0 & b & s & Hb0 & Hs0 & Hb & Hs & _ & _ & _ & Hcells).
  exists b0, s0, b, s. do 4 (split; [done|]).
  pose proof (margins_lookup ln rows j r k Hm Hr) as Hi.
  destruct (Hcells k key Hk (Z.to_nat (key_column ln r k))) as [Hbg Hsg];
    [lia|].
  destruct (Hcells k key Hk (Z.to_nat (key_column ln r k - 1)))
    as [Hbm Hsm]; [lia|].
  split.
  - destruct (decide (ln = Layer.BASE ∧ _)); [done|by apply written_cell].
  - destruct (decide (ln ≠ Layer.BASE ∧ _)); [done|by apply written_cell].
Qed.

Lemma fill_template_cells_witness :
  ∃ b0 s0 b s,
    Sample.iso_template !! 2 = Some b0 ∧ Sample.iso_template !! 1 = Some s0 ∧
    demo_filled !! 2 = Some b ∧ demo_filled !! 1 = Some s ∧
    cell_written b0 b 10 [star; 0xb4%N] ∧
    cell_kept s0 s 10.
Proof.
  destruct (fill_template_cells (cm := Sample.unicode) demo_model
              Sample.iso_template Sample.iso_rows Layer.ODK demo_filled
              0 {| offset := 2; keys := [py "ae01"; py "ae02"; py "ae03"] |}
              1 (py "ae02"))
    as (b0 & s0 & b & s & H1 & H2 & H3 & H4 & H5 & H6).
  - apply sample_margins.
  - vm_compute. reflexivity.
  - reflexivity.
  - reflexivity.
  - exists b0, s0, b, s. do 4 (split; [done|]).
    rewrite decide_False in H5 by (by intros [? _]).
    rewrite decide_True in H6; [done|].
    split; [done|]. vm_compute. reflexivity.
Defined.

Lemma shown_nonempty self n key :
  (∀ v, glyph self n key = Some v → v ≠ []) → shown self n key ≠ [].
Proof.
  intros Hv. unfold shown. destruct (glyph self n key) as [v|]; [|done].
  by apply Hv.
Qed.

(** X4. [_fill_template] returns a canvas whenever the template has the two
    lines of every row, long enough for the cells of its keys, the layout
    has the two layers of the pair, and no value of the layout is the empty
    string. *)
Theorem fill_template_total {cm : CaseMap} (self : KeyboardLayout)
  (template : list str) (rows : list row) (ln : nat) :
  fits ln rows template → ln + 1 < length (layers self) →
  (∀ n key v, glyph self n key = Some v → v ≠ []) →
  ∃ filled, _fill_template self template rows ln = Ok filled.
Proof.
  intros Hfit Hln Hval. apply fill_template_total_gen; [done..|].
  intros key _. split; intros _; apply shown_nonempty, Hval.
Qed.

Lemma demo_model_values n key v : glyph demo_model n key = Some v → v ≠ [].
Proof.
  unfold glyph, demo_model. intros Hg.
  destruct n as [|[|[|[|[|[|n]]]]]];
    cbn [layers with_layers lookup list_lookup mbind option_bind] in Hg;
    try done;
    apply dict_get_Some_elem in Hg;
    repeat (apply elem_of_cons in Hg as [Hg|Hg]; [by simplify_eq|]);
    by apply elem_of_nil in Hg.
Qed.

Lemma fill_template_total_witness :
  ∃ filled,
    _fill_template (H := Sample.unicode) demo_model Sample.iso_template
      Sample.iso_rows Layer.ALTGR = Ok filled.
Proof.
  apply (fill_template_total (cm := Sample.unicode)).
  - apply sample_fits.
  - simpl. unfold Layer.ALTGR. lia.
  - apply demo_model_values.
Defined.

Section fill_short.
Context {cm : CaseMap}.

Lemma fill_template_needs_lines self template rows ln filled :
  _fill_template self template rows ln = Ok filled →
  3 * length rows ≤ length template.
Proof.
  unfold _fill_template. intros Hf.
  apply bind_Ok in Hf as (st & Hloop & _).
  apply (for_each_r_inv _ _
    (λ done (st : list str * Z),
       st.2 = Z.of_nat (length done) ∧ length st.1 = length template ∧
       3 * length done ≤ length template)) in Hloop;
    [by destruct Hloop as (_ & _ & ?)| |by cbn; split; [|split; [|lia]]].
  intros done r todo [T j] st' _ (Hj & Hlen & Hle) Hbody.
  cbn [fst snd] in *. subst j.
  apply bind_Ok in Hbody as (T' & Hrow & Hret).
  cbv [mret result_ret] in Hret. simplify_eq. cbn [fst snd].
  pose proof (fill_row_lengths _ _ _ _ _ _ Hrow) as HT'.
  assert (length T' = length T) as HlT
    by (by rewrite <- (length_fmap length T'), HT', length_fmap).
  unfold fill_row in Hrow. apply bind_Ok in Hrow as (b0 & Hb0 & _).
  apply py_index_nonneg_inv in Hb0; [|lia].
  apply lookup_lt_Some in Hb0.
  rewrite length_app. cbn [length]. lia.
Qed.

End fill_short.

(** X5. The errors of [_fill_template]: the only exception it raises is
    [IndexError] (a key that a layer does not have is shown as a blank, it
    is not a [KeyError]); and it does raise on a template that has fewer
    than three lines per row. *)
Theorem fill_template_errors {cm : CaseMap} (self : KeyboardLayout)
  (template : list str) (rows : list row) (ln : nat) :
  (∀ e, _fill_template self template rows ln = Raise e → e = IndexError) ∧
  (length template < 3 * length rows →
   _fill_template self template rows ln = Raise IndexError).
Proof.
  split; [intros e; apply fill_template_raises|].
  intros Hshort.
  destruct (_fill_template self template rows ln) as [filled|e] eqn:Hf.
  - apply fill_template_needs_lines in Hf. lia.
  - by apply fill_template_raises in Hf as ->.
Qed.

Lemma fill_template_errors_witness :
  _fill_template (H := Sample.unicode) demo_model
    [py "+-----+"; py "|     |"; py "|     |"] Sample.iso_rows Layer.BASE
  = Raise IndexError.
Proof.
  apply (fill_template_errors (cm := Sample.unicode)). simpl. lia.
Defined.

(** ** The parser on a whole canvas: statements *)

Lemma demo_parse_eq :
  _parse_template (H := Sample.unicode) Sample.DEAD_KEYS blank_layout
    demo_canvas Sample.iso_rows Layer.BASE Sample.catalog
  = (Ok demo_parsed, demo_parse.2).
Proof. vm_compute. reflexivity. Qed.

Lemma sample_keys_NoDup : NoDup (all_keys Sample.iso_rows).
Proof.
  apply (bool_decide_unpack (NoDup (all_keys Sample.iso_rows))).
  vm_compute. exact I.
Qed.

Lemma store_glyph_fields self n key v self1 :
  (if negb (str_eqb v (py " ")) then set_layer_item self n key v
   else Ok self) = Ok self1 →
  dk_index self1 = dk_index self ∧ has_altgr self1 = has_altgr self ∧
  has_1dk self1 = has_1dk self.
Proof.
  destruct (negb _); [|intros ?; by simplify_eq].
  intros Hset. by apply set_layer_item_inv in Hset as (d' & _ & ->).
Qed.

Section parse_fields.
Context {cm : CaseMap}.
Variable DEAD_KEYS : list loc.

Lemma parse_template_fields template rows ln self h :
  wp (_parse_template DEAD_KEYS self template rows ln)
     (λ self' _, dk_index self' = dk_index self ∧
                 has_altgr self' = has_altgr self ∧
                 has_1dk self' = has_1dk self)
     (λ _ _, True) h.
Proof.
  unfold _parse_template. apply wp_bind.
  eapply wp_mono; [| |apply (wp_for_each_inv _ rows
    (λ sj _, dk_index sj.1 = dk_index self ∧
             has_altgr sj.1 = has_altgr self ∧
             has_1dk sj.1 = has_1dk self)
    (λ _ _, True))]; [by intros; apply wp_ret|done| |done].
  intros r [self1 j] h1 _ H1. apply wp_bind. unfold parse_row.
  apply wp_bind, wp_lift.
  destruct (py_index template (2 + _)) as [base|e]; [|done].
  apply wp_bind, wp_lift.
  destruct (py_index template (1 + _)) as [shift|e]; [|done].
  apply wp_bind.
  eapply wp_mono; [| |apply (wp_for_each_inv _ (keys r)
    (λ si _, dk_index si.1 = dk_index self ∧
             has_altgr si.1 = has_altgr self ∧
             has_1dk si.1 = has_1dk self)
    (λ _ _, True))];
    [by intros; apply wp_ret; apply wp_ret|done| |done].
  intros key [self2 i] h2 _ (Hx & Ha & Ho). cbn [fst] in *.
  apply wp_bind. apply wp_intro; [|done].
  intros self3 h3 Hp. apply wp_ret. cbn [fst].
  apply parse_key_layers in Hp
    as (b & s & _ & _ & sa & sb & d & Hsa & Hsb & ->).
  apply store_glyph_fields in Hsa as (? & ? & ?).
  apply store_glyph_fields in Hsb as (? & ? & ?).
  simpl. repeat split; congruence.
Qed.

Lemma parse_template_needs_lines template rows ln self h :
  wp (_parse_template DEAD_KEYS self template rows ln)
     (λ _ _, 3 * length rows ≤ length template) (λ _ _, True) h.
Proof.
  unfold _parse_template. apply wp_bind.
  eapply wp_mono; [| |apply (wp_for_each _ rows
    (λ done (sj : KeyboardLayout * Z) (_ : heap),
       sj.2 = Z.of_nat (length done) ∧ 3 * length done ≤ length template)
    (λ _ _, True))].
  - intros sj h' [_ Hle]. by apply wp_ret.
  - done.
  - intros done r todo [self1 j] h1 _ [Hj Hle]. cbn [fst snd] in *. subst j.
    apply wp_bind.
    eapply wp_mono; [| |apply parse_row_spec]; [|done].
    intros self2 h2 (base & shift & Hb & _). apply wp_ret. cbn [fst snd].
    apply lookup_lt_Some in Hb. rewrite length_app. cbn [length].
    split; lia.
  - cbn. split; [done|lia].
Qed.

End parse_fields.

(** X6. What [_parse_template] leaves alone: when it returns, the layers
    other than the two of the pair are the ones the layout had, a key that
    is not a key of the shape has the values it had in every layer, no key
    has lost a value, and the index of the dead keys, the metadata and the
    two flags are unchanged. *)
Theorem parse_template_frame {cm : CaseMap} (DEAD_KEYS : list loc)
  (self : KeyboardLayout) (template : list str) (rows : list row) (ln : nat)
  (h : heap) (self' : KeyboardLayout) (h' : heap) :
  _parse_template DEAD_KEYS self template rows ln h = (Ok self', h') →
  (∀ n, n ≠ ln → n ≠ ln + 1 → layers self' !! n = layers self !! n) ∧
  (∀ n key, key ∉ all_keys rows → glyph self' n key = glyph self n key) ∧
  (∀ n key, is_Some (glyph self n key) → is_Some (glyph self' n key)) ∧
  length (layers self') = length (layers self) ∧
  dk_index self' = dk_index self ∧ meta self' = meta self ∧
  has_altgr self' = has_altgr self ∧ has_1dk self' = has_1dk self.
Proof.
  intros Hp.
  destruct (wp_run _ _ _ _
    (parse_template_spec DEAD_KEYS template rows ln self h)) as [H1 _].
  destruct (H1 _ _ Hp) as [(Hl & Hf & Hm) _].
  destruct (wp_run _ _ _ _
    (parse_template_stable DEAD_KEYS template rows ln self h)) as [H2 _].
  destruct (H2 _ _ Hp) as [Hlen Hmeta].
  destruct (wp_run _ _ _ _
    (parse_template_fields DEAD_KEYS template rows ln self h)) as [H3 _].
  destruct (H3 _ _ Hp) as (Hx & Ha & Ho).
  done.
Qed.

Lemma parse_template_frame_witness :
  layers demo_parsed !! Layer.ODK = layers blank_layout !! Layer.ODK ∧
  glyph demo_parsed Layer.BASE (py "spce")
  = glyph blank_layout Layer.BASE (py "spce") ∧
  dk_index demo_parsed = [].
Proof.
  destruct (parse_template_frame (cm := Sample.unicode) Sample.DEAD_KEYS
              blank_layout demo_canvas Sample.iso_rows Layer.BASE
              Sample.catalog demo_parsed demo_parse.2)
    as (Hl & Hf & _ & _ & Hx & _).
  - vm_compute. reflexivity.
  - split; [by apply Hl|]. split; [|exact Hx].
    apply Hf.
    apply (bool_decide_unpack (py "spce" ∉ all_keys Sample.iso_rows)).
    vm_compute. exact I.
Defined.

(** X7. What [_parse_template] reads, on a shape whose rows leave room for
    the marker column and whose keys all have different names: the [k]-th
    key of the [j]-th row gets its values from the marker and glyph columns
    of its cell on the lines [2 + 3 j] (first value) and [1 + 3 j] (second
    value) of the canvas, after the inference of a blank cell from the
    other one; a value that is still blank leaves the layer as it was. *)
Theorem parse_template_reads {cm : CaseMap} (DEAD_KEYS : list loc)
  (self : KeyboardLayout) (template : list str) (rows : list row) (ln : nat)
  (h : heap) (self' : KeyboardLayout) (h' : heap)
  (j : nat) (r : row) (k : nat) (key : str) :
  margins ln rows → NoDup (all_keys rows) →
  _parse_template DEAD_KEYS self template rows ln h = (Ok self', h') →
  rows !! j = Some r → keys r !! k = Some key →
  ∃ base shift mb gb ms gs,
    template !! (2 + 3 * j) = Some base ∧
    template !! (1 + 3 * j) = Some shift ∧
    base !! Z.to_nat (key_column ln r k - 1) = Some mb ∧
    base !! Z.to_nat (key_column ln r k) = Some gb ∧
    shift !! Z.to_nat (key_column ln r k - 1) = Some ms ∧
    shift !! Z.to_nat (key_column ln r k) = Some gs ∧
    glyph self' ln key
    = stored (base_value ln (cell mb gb) (cell ms gs)) (glyph self ln key) ∧
    glyph self' (ln + 1) key
    = stored (shift_value ln (cell mb gb) (cell ms gs))
        (glyph self (ln + 1) key).
Proof.
  intros Hm Hnd Hp Hr Hk.
  destruct (wp_run _ _ _ _
    (parse_template_spec DEAD_KEYS template rows ln self h)) as [H1 _].
  destruct (H1 _ _ Hp) as [_ Hreads].
  destruct (Hreads Hnd j r k key Hr Hk)
    as (base & shift & Hb & Hs & b & s & Hrb & Hrs & Hgb & Hgs).
  pose proof (margins_lookup ln rows j r k Hm Hr) as Hi.
  apply read_cell_nonneg_inv in Hrb as (mb & gb & ? & ? & ->); [|done].
  apply read_cell_nonneg_inv in Hrs as (ms & gs & ? & ? & ->); [|done].
  by exists base, shift, mb, gb, ms, gs.
Qed.

Lemma parse_template_reads_witness :
  glyph demo_parsed Layer.BASE (py "ae01") = Some (py "a") ∧
  glyph demo_parsed Layer.SHIFT (py "ae01") = Some (py "A").
Proof.
  destruct (parse_template_reads (cm := Sample.unicode) Sample.DEAD_KEYS
              blank_layout demo_canvas Sample.iso_rows Layer.BASE
              Sample.catalog demo_parsed demo_parse.2
              0 {| offset := 2; keys := [py "ae01"; py "ae02"; py "ae03"] |}
              0 (py "ae01"))
    as (base & shift & mb & gb & ms & gs & Hb & Hs & Hmb & Hgb & Hms & Hgs
        & H1 & H2).
  - apply sample_margins.
  - apply sample_keys_NoDup.
  - vm_compute. reflexivity.
  - reflexivity.
  - reflexivity.
  - vm_compute in Hb, Hs. simplify_eq.
    vm_compute in Hmb, Hgb, Hms, Hgs. simplify_eq.
    change (Layer.BASE + 1) with Layer.SHIFT in H2.
    rewrite H1, H2. split; vm_compute; reflexivity.
Defined.

(** X8. [_parse_template] returns a layout whenever the canvas has the two
    lines of every row, long enough for the cells of its keys, and the
    layout has the two layers of the pair. *)
Theorem parse_template_total {cm : CaseMap} (DEAD_KEYS : list loc)
  (self : KeyboardLayout) (template : list str) (rows : list row) (ln : nat)
  (h : heap) :
  fits ln rows template → ln + 1 < length (layers self) →
  ∃ self' h', _parse_template DEAD_KEYS self template rows ln h
              = (Ok self', h').
Proof.
  intros Hfit Hln.
  pose proof (parse_template_total_wp DEAD_KEYS template rows ln self h
                Hfit Hln) as Hwp.
  unfold wp in Hwp.
  destruct (_parse_template DEAD_KEYS self template rows ln h)
    as [[self'|e] h']; [by exists self', h'|done].
Qed.

Lemma parse_template_total_witness :
  ∃ self' h',
    _parse_template (H := Sample.unicode) Sample.DEAD_KEYS blank_layout
      Sample.iso_template Sample.iso_rows Layer.ALTGR Sample.catalog
    = (Ok self', h').
Proof.
  apply (parse_template_total (cm := Sample.unicode)).
  - apply sample_fits.
  - simpl. unfold Layer.ALTGR. lia.
Defined.

(** X9. The errors of [_parse_template]: the only exception it raises is
    [IndexError]; and it does raise on a canvas that has fewer than three
    lines per row. *)
Theorem parse_template_errors {cm : CaseMap} (DEAD_KEYS : list loc)
  (self : KeyboardLayout) (template : list str) (rows : list row) (ln : nat)
  (h : heap) :
  (∀ e h', _parse_template DEAD_KEYS self template rows ln h = (Raise e, h') →
           e = IndexError) ∧
  (length template < 3 * length rows →
   ∃ h', _parse_template DEAD_KEYS self template rows ln h
         = (Raise IndexError, h')).
Proof.
  destruct (wp_run _ _ _ _
    (parse_template_raises DEAD_KEYS template rows ln self h)) as [_ Hr].
  split; [exact Hr|]. intros Hshort.
  destruct (wp_run _ _ _ _
    (parse_template_needs_lines DEAD_KEYS template rows ln self h))
    as [Hok _].
  destruct (_parse_template DEAD_KEYS self template rows ln h)
    as [[self'|e] h'] eqn:Hp.
  - specialize (Hok _ _ eq_refl). lia.
  - exists h'. by rewrite (Hr e h' eq_refl).
Qed.

Lemma parse_template_errors_witness :
  ∃ h', _parse_template (H := Sample.unicode) Sample.DEAD_KEYS blank_layout
          [py "+-----+"; py "| A   |"; py "| a   |"] Sample.iso_rows
          Layer.BASE Sample.catalog
        = (Raise IndexError, h').
Proof.
  apply (parse_template_errors (cm := Sample.unicode)). simpl. lia.
Defined.

Lemma sample_blank_cells ln :
  blank_cells ln Sample.iso_rows Sample.iso_template.
Proof.
  intros j r k line Hr Hk Hline.
  unfold key_column, col_offset.
  destruct j as [|[|j]]; cbn in Hr; simplify_eq; cbn [keys length] in Hk.
  - destruct k as [|[|[|k]]]; [| | |lia];
      destruct Hline as [Hl|Hl]; cbn in Hl; simplify_eq;
      destruct (ln =? Layer.BASE); split; vm_compute; reflexivity.
  - destruct k as [|[|k]]; [| |lia];
      destruct Hline as [Hl|Hl]; cbn in Hl; simplify_eq;
      destruct (ln =? Layer.BASE); split; vm_compute; reflexivity.
Qed.

Lemma fill_parse_roundtrip_witness :
  ∃ filled model' h3,
    _fill_template (H := Sample.unicode) demo_odk_parsed Sample.iso_template
      Sample.iso_rows Layer.ODK = Ok filled ∧
    _parse_template (H := Sample.unicode) Sample.DEAD_KEYS blank_layout filled
      Sample.iso_rows Layer.ODK Sample.catalog = (Ok model', h3) ∧
    ∀ n key, glyph model' n key = glyph demo_odk_parsed n key.
Proof.
  apply (fill_parse_roundtrip (cm := Sample.unicode) Sample.DEAD_KEYS
           Layer.ODK Sample.iso_rows demo_canvas Sample.iso_template
           blank_layout demo_odk_parsed Sample.catalog demo_odk_parse.2
           Sample.catalog).
  - discriminate.
  - apply sample_keys_NoDup.
  - apply sample_fits.
  - apply sample_blank_cells.
  - simpl. unfold Layer.ODK. lia.
  - intros key _. split; reflexivity.
  - vm_compute. reflexivity.
Defined.

(** ** The constructor, step by step *)

Lemma wp_trivial {A} (m : M A) h : wp m (λ _ _, True) (λ _ _, True) h.
Proof. unfold wp. by destruct (m h) as [[?|?] ?]. Qed.

Lemma odk_behavior_self ODK_ID spc self h self' h' :
  odk_behavior ODK_ID spc self h = (Ok self', h') →
  self' = if dict_in ODK_ID (dead_keys self) then with_has_1dk true self
          else self.
Proof.
  intros Hodk.
  assert (wp (odk_behavior ODK_ID spc self)
    (λ self' _, self' = if dict_in ODK_ID (dead_keys self)
                        then with_has_1dk true self else self)
    (λ _ _, True) h) as Hwp; [|by apply wp_run in Hwp as [Hok _]; eapply Hok].
  unfold odk_behavior. destruct (dict_in ODK_ID (dead_keys self));
    [|by apply wp_ret].
  apply wp_bind, wp_lift. destruct (dict_item _ _) as [odk|]; [|done].
  apply wp_bind, wp_lift. destruct (dict_item _ _) as [v|]; [|done].
  apply wp_bind, wp_store.
  apply wp_bind, wp_intro; [intros _ h1 _|done].
  apply wp_bind, wp_intro; [intros _ h2 _|done].
  by apply wp_ret.
Qed.

Section init_steps.
Context {cm : CaseMap}.
Variable DEAD_KEYS : list loc.
Variable ODK_ID : str.
Variable GEOMETRY : dict geometry.
Variable text_to_lines : str → list str.
Variable today : str.

Lemma init_steps filename cfg h0 self h :
  init DEAD_KEYS ODK_ID GEOMETRY text_to_lines today filename cfg h0
  = (Ok self, h) →
  ∃ self1 rows self2 h2 spc self3 ix,
    init_meta today filename cfg blank_layout = Ok self1 ∧
    geometry_rows GEOMETRY self1 = Ok rows ∧
    init_layers DEAD_KEYS text_to_lines cfg rows self1 h0 = (Ok self2, h2) ∧
    spacebar_table cfg = Ok spc ∧
    init_spacebar spc self2 = Ok self3 ∧
    init_dk_index DEAD_KEYS self3 h2 = (Ok (with_dk_index ix self3), h2) ∧
    self = (if dict_in ODK_ID (dead_keys self3)
            then with_has_1dk true (with_dk_index ix self3)
            else with_dk_index ix self3).
Proof.
  intros Hinit.
  assert (wp
    (init DEAD_KEYS ODK_ID GEOMETRY text_to_lines today filename cfg)
    (λ self _, ∃ self1 rows self2 h2 spc self3 ix,
       init_meta today filename cfg blank_layout = Ok self1 ∧
       geometry_rows GEOMETRY self1 = Ok rows ∧
       init_layers DEAD_KEYS text_to_lines cfg rows self1 h0
       = (Ok self2, h2) ∧
       spacebar_table cfg = Ok spc ∧
       init_spacebar spc self2 = Ok self3 ∧
       init_dk_index DEAD_KEYS self3 h2 = (Ok (with_dk_index ix self3), h2) ∧
       self = (if dict_in ODK_ID (dead_keys self3)
               then with_has_1dk true (with_dk_index ix self3)
               else with_dk_index ix self3))
    (λ _ _, True) h0) as Hwp; [|by apply wp_run in Hwp as [Hok _]; eapply Hok].
  clear Hinit. unfold init.
  apply wp_bind, wp_lift.
  destruct (init_meta _ _ _ _) as [self1|] eqn:Hmeta; [|done].
  apply wp_bind, wp_lift.
  destruct (geometry_rows _ _) as [rows|] eqn:Hrows; [|done].
  apply wp_bind, wp_intro; [intros self2 h2 Hlayers|done].
  apply wp_bind, wp_lift.
  destruct (spacebar_table cfg) as [spc|] eqn:Hspc; [|done].
  apply wp_bind, wp_lift.
  destruct (init_spacebar spc self2) as [self3|] eqn:Hsp; [|done].
  apply wp_bind, wp_intro; [intros self4 h4 Hix|done].
  destruct (wp_run _ _ _ _ (init_dk_index_spec DEAD_KEYS self3 h2))
    as [Hdk _].
  destruct (Hdk _ _ Hix) as [-> [ix ->]].
  apply wp_bind, wp_intro; [intros [] h5 _|done].
  apply wp_intro; [intros self' h' Hodk|done].
  apply odk_behavior_self in Hodk.
  by exists self1, rows, self2, h2, spc, self3, ix.
Qed.

End init_steps.

Section parse_effect_all.
Context {cm : CaseMap}.
Variable DEAD_KEYS : list loc.

Lemma parse_template_effect template rows ln self h :
  wp (_parse_template DEAD_KEYS self template rows ln)
     (λ self' _,
        parsed_within ln (all_keys rows) self self' ∧ stable self self' ∧
        dk_index self' = dk_index self ∧ has_altgr self' = has_altgr self ∧
        has_1dk self' = has_1dk self)
     (λ _ _, True) h.
Proof.
  apply wp_intro; [|done]. intros self' h' Hp.
  destruct (wp_run _ _ _ _
    (parse_template_spec DEAD_KEYS template rows ln self h)) as [H1 _].
  destruct (H1 _ _ Hp) as [Hw _].
  destruct (wp_run _ _ _ _
    (parse_template_stable DEAD_KEYS template rows ln self h)) as [H2 _].
  destruct (wp_run _ _ _ _
    (parse_template_fields DEAD_KEYS template rows ln self h)) as [H3 _].
  split; [done|]. split; [by eapply H2|]. by eapply H3.
Qed.

Variable text_to_lines : str → list str.

(** What parsing the layers leaves alone. *)
Lemma init_layers_fields cfg rows self h :
  wp (init_layers DEAD_KEYS text_to_lines cfg rows self)
     (λ self' _,
        stable self self' ∧ dk_index self' = dk_index self ∧
        has_1dk self' = has_1dk self ∧
        has_altgr self'
        = (dict_in (py "full") cfg || dict_in (py "altgr") cfg
           || has_altgr self) ∧
        (dict_in (py "full") cfg = true →
         layers self' !! Layer.ODK = layers self !! Layer.ODK ∧
         layers self' !! Layer.ODK_SHIFT = layers self !! Layer.ODK_SHIFT) ∧
        (has_altgr self' = false →
         layers self' !! Layer.ALTGR = layers self !! Layer.ALTGR ∧
         layers self' !! Layer.ALTGR_SHIFT
         = layers self !! Layer.ALTGR_SHIFT))
     (λ _ _, True) h.
Proof.
  unfold init_layers.
  destruct (dict_in (py "full") cfg) eqn:Hfull.
  - apply wp_bind, wp_lift. destruct (dict_item _ _) as [v|]; [|done].
    apply wp_bind, wp_lift. destruct (as_text v) as [t|]; [|done].
    apply wp_bind.
    eapply wp_mono; [| |apply parse_template_effect]; [|done].
    intros s1 h1 ((Hl1 & _) & Hst1 & Hx1 & Ha1 & Ho1).
    apply wp_bind.
    eapply wp_mono; [| |apply parse_template_effect]; [|done].
    intros s2 h2 ((Hl2 & _) & Hst2 & Hx2 & Ha2 & Ho2).
    apply wp_ret. simpl.
    split; [by eapply stable_trans|]. split; [congruence|].
    split; [congruence|]. split; [done|]. split; [|done].
    intros _. unfold Layer.ODK, Layer.ODK_SHIFT, Layer.ALTGR, Layer.BASE in *.
    rewrite !Hl2, !Hl1 by lia. done.
  - apply wp_bind, wp_lift. destruct (dict_item _ _) as [v|]; [|done].
    apply wp_bind, wp_lift. destruct (as_text v) as [t|]; [|done].
    apply wp_bind.
    eapply wp_mono; [| |apply parse_template_effect]; [|done].
    intros s1 h1 ((Hl1 & _) & Hst1 & Hx1 & Ha1 & Ho1).
    apply wp_bind.
    eapply wp_mono; [| |apply parse_template_effect]; [|done].
    intros s2 h2 ((Hl2 & _) & Hst2 & Hx2 & Ha2 & Ho2).
    assert (stable self s2) as Hst by (by eapply stable_trans).
    destruct (dict_in (py "altgr") cfg) eqn:Haltgr.
    + apply wp_bind, wp_lift. destruct (dict_item _ _) as [v'|]; [|done].
      apply wp_bind, wp_lift. destruct (as_text v') as [t'|]; [|done].
      eapply wp_mono; [| |apply parse_template_effect]; [|done].
      intros s3 h3 (_ & Hst3 & Hx3 & Ha3 & Ho3). simpl in *.
      split; [by eapply stable_trans|]. split; [congruence|].
      split; [congruence|]. split; [done|]. split; [done|].
      rewrite Ha3. done.
    + apply wp_ret. simpl.
      split; [done|]. split; [congruence|]. split; [congruence|].
      split; [congruence|]. split; [done|].
      intros _.
      unfold Layer.ODK, Layer.ODK_SHIFT, Layer.ALTGR, Layer.ALTGR_SHIFT,
        Layer.BASE in *.
      rewrite !Hl2, !Hl1 by lia. done.
Qed.

End parse_effect_all.

Section registration_layers.
Context {cm : CaseMap}.
Variable DEAD_KEYS : list loc.
Variable text_to_lines : str → list str.
Variable h0 : heap.
Hypothesis catalog_allocated : Forall (λ c, c < length h0) DEAD_KEYS.

Lemma registered_ext self self' :
  layers self' = layers self → dead_keys self' = dead_keys self →
  registered DEAD_KEYS h0 self → registered DEAD_KEYS h0 self'.
Proof. unfold registered, glyph. by intros -> ->. Qed.

Lemma init_layers_registered cfg rows self h :
  h0 `prefix_of` h → registered DEAD_KEYS h0 self →
  wp (init_layers DEAD_KEYS text_to_lines cfg rows self)
     (λ self' h', h0 `prefix_of` h' ∧ registered DEAD_KEYS h0 self')
     (λ _ _, True) h.
Proof.
  intros Hpre Hreg. unfold init_layers.
  destruct (dict_in (py "full") cfg).
  - apply wp_bind, wp_lift. destruct (dict_item _ _) as [v|]; [|done].
    apply wp_bind, wp_lift. destruct (as_text v) as [t|]; [|done].
    apply wp_bind.
    eapply wp_mono; [| |by apply parse_template_registered]; [|done].
    intros s1 h1 [Hp1 Hr1]. apply wp_bind.
    eapply wp_mono; [| |by apply parse_template_registered]; [|done].
    intros s2 h2 [Hp2 Hr2]. apply wp_ret. split; [done|].
    by eapply registered_ext; [| |exact Hr2].
  - apply wp_bind, wp_lift. destruct (dict_item _ _) as [v|]; [|done].
    apply wp_bind, wp_lift. destruct (as_text v) as [t|]; [|done].
    apply wp_bind.
    eapply wp_mono; [| |by apply parse_template_registered]; [|done].
    intros s1 h1 [Hp1 Hr1]. apply wp_bind.
    eapply wp_mono; [| |by apply parse_template_registered]; [|done].
    intros s2 h2 [Hp2 Hr2].
    destruct (dict_in (py "altgr") cfg); [|by apply wp_ret].
    apply wp_bind, wp_lift. destruct (dict_item _ _) as [v'|]; [|done].
    apply wp_bind, wp_lift. destruct (as_text v') as [t'|]; [|done].
    apply parse_template_registered; [done..|].
    by eapply registered_ext; [| |exact Hr2].
Qed.

End registration_layers.

(** The space bar, on a layout with six layers *)
Lemma init_spacebar_layers spc self self' l0 l1 l2 l3 l4 l5 :
  layers self = [l0; l1; l2; l3; l4; l5] →
  init_spacebar spc self = Ok self' →
  ∃ v1 v2 l4' l5',
    dict_get spc (py "shift") = Some v1 ∧
    dict_get spc (py "1dk") = Some v2 ∧
    self' = with_layers
              [ dict_set l0 (py "spce") (py " ");
                dict_set l1 (py "spce") v1;
                dict_set l2 (py "spce") v2;
                dict_set l3 (py "spce")
                  (default v2 (dict_get spc (py "shift_1dk")));
                l4'; l5' ] self ∧
    if has_altgr self
    then ∃ v4 v5, dict_get spc (py "altgr") = Some v4 ∧
                  dict_get spc (py "altgr_shift") = Some v5 ∧
                  l4' = dict_set l4 (py "spce") v4 ∧
                  l5' = dict_set l5 (py "spce") v5
    else l4' = l4 ∧ l5' = l5.
Proof.
  destruct self as [ls dk ix m a o]. cbn [layers has_altgr]. intros ->.
  unfold init_spacebar, set_layer_item, get_layer, dict_item, dict_in,
    with_layers.
  cbn [layers dead_keys dk_index meta has_altgr has_1dk lookup list_lookup
       Layer.BASE Layer.SHIFT Layer.ODK Layer.ODK_SHIFT Layer.ALTGR
       Layer.ALTGR_SHIFT mbind result_bind mret result_ret insert
       list_insert].
  destruct (dict_get spc (py "shift")) as [v1|]; [|done].
  cbn [mbind result_bind].
  destruct (dict_get spc (py "1dk")) as [v2|]; [|done].
  cbn [mbind result_bind].
  destruct (dict_get spc (py "shift_1dk")) as [v3|];
    cbn [mbind result_bind default].
  - destruct a.
    + destruct (dict_get spc (py "altgr")) as [v4|]; [|done].
      cbn [mbind result_bind].
      destruct (dict_get spc (py "altgr_shift")) as [v5|]; [|done].
      cbn [mbind result_bind]. intros [= <-].
      eexists v1, v2, _, _. do 3 (split; [done|]). by exists v4, v5.
    + intros [= <-]. by eexists v1, v2, _, _.
  - destruct a.
    + destruct (dict_get spc (py "altgr")) as [v4|]; [|done].
      cbn [mbind result_bind].
      destruct (dict_get spc (py "altgr_shift")) as [v5|]; [|done].
      cbn [mbind result_bind]. intros [= <-].
      eexists v1, v2, _, _. do 3 (split; [done|]). by exists v4, v5.
    + intros [= <-]. by eexists v1, v2, _, _.
Qed.

Lemma init_meta_with {cm : CaseMap} today filename cfg self self' :
  init_meta today filename cfg self = Ok self' →
  ∃ m, self' = with_meta m self.
Proof.
  unfold init_meta. intros Hm.
  apply bind_Ok in Hm as (n8 & _ & Hm).
  apply bind_Ok in Hm as (n8' & _ & Hm).
  apply bind_Ok in Hm as (fn & _ & Hm).
  cbv [mret result_ret] in Hm. simplify_eq. by eexists.
Qed.

Section init_result.
Context {cm : CaseMap}.
Variable DEAD_KEYS : list loc.
Variable ODK_ID : str.
Variable GEOMETRY : dict geometry.
Variable text_to_lines : str → list str.
Variable today : str.

(** The finished layout in terms of the layout as parsed: the layers are
    the parsed ones with the space bar added, the flags are set, and the
    rest is as the parser left it. *)
Lemma init_result filename cfg h0 self h :
  init DEAD_KEYS ODK_ID GEOMETRY text_to_lines today filename cfg h0
  = (Ok self, h) →
  ∃ self1 rows self2 h2 spc self3 l0 l1 l2 l3 l4 l5 v1 v2 l4' l5',
    init_meta today filename cfg blank_layout = Ok self1 ∧
    geometry_rows GEOMETRY self1 = Ok rows ∧
    init_layers DEAD_KEYS text_to_lines cfg rows self1 h0 = (Ok self2, h2) ∧
    spacebar_table cfg = Ok spc ∧
    layers self2 = [l0; l1; l2; l3; l4; l5] ∧
    dict_get spc (py "shift") = Some v1 ∧
    dict_get spc (py "1dk") = Some v2 ∧
    layers self
    = [ dict_set l0 (py "spce") (py " ");
        dict_set l1 (py "spce") v1;
        dict_set l2 (py "spce") v2;
        dict_set l3 (py "spce") (default v2 (dict_get spc (py "shift_1dk")));
        l4'; l5' ] ∧
    (if has_altgr self
     then ∃ v4 v5, dict_get spc (py "altgr") = Some v4 ∧
                   dict_get spc (py "altgr_shift") = Some v5 ∧
                   l4' = dict_set l4 (py "spce") v4 ∧
                   l5' = dict_set l5 (py "spce") v5
     else l4' = l4 ∧ l5' = l5 ∧ l4 = [] ∧ l5 = []) ∧
    (dict_in (py "full") cfg = true → l2 = [] ∧ l3 = []) ∧
    meta self = meta self1 ∧
    dead_keys self = dead_keys self2 ∧
    has_altgr self = (dict_in (py "full") cfg || dict_in (py "altgr") cfg) ∧
    has_1dk self = dict_in ODK_ID (dead_keys self) ∧
    init_dk_index DEAD_KEYS self3 h2
    = (Ok (with_dk_index (dk_index self) self3), h2) ∧
    dk_index self3 = [] ∧ dead_keys self3 = dead_keys self.
Proof.
  intros Hinit.
  apply init_steps in Hinit
    as (self1 & rows & self2 & h2 & spc & self3 & ix
        & Hmeta & Hrows & Hlayers & Hspc & Hsp & Hix & Hself).
  destruct (init_meta_with _ _ _ _ _ Hmeta) as [m ->].
  destruct (wp_run _ _ _ _
    (init_layers_fields DEAD_KEYS text_to_lines cfg rows
       (with_meta m blank_layout) h0)) as [Hf _].
  destruct (Hf _ _ Hlayers)
    as ((Hlen & Hm2) & Hx2 & Ho2 & Ha2 & Hfull & Hnoalt). clear Hf.
  cbn [layers meta dk_index has_1dk has_altgr with_meta blank_layout
       length] in *.
  rewrite orb_false_r in Ha2.
  destruct (layers self2) as [|l0 [|l1 [|l2 [|l3 [|l4 [|l5 [|? ?]]]]]]] eqn:Hl2;
    try done.
  destruct (init_spacebar_layers spc self2 self3 l0 l1 l2 l3 l4 l5 Hl2 Hsp)
    as (v1 & v2 & l4' & l5' & Hv1 & Hv2 & Hs3 & Halt).
  assert (layers self = layers self3 ∧ meta self = meta self3 ∧
          dead_keys self = dead_keys self3 ∧
          has_altgr self = has_altgr self3 ∧
          has_1dk self = dict_in ODK_ID (dead_keys self3) ∧
          dk_index self = ix) as (Hl & Hm' & Hd & Ha & Ho & Hx).
  { rewrite Hself.
    destruct (dict_in ODK_ID (dead_keys self3)) eqn:Hodk;
      cbn; rewrite ?Hs3; cbn; by rewrite ?Ho2. }
  exists (with_meta m blank_layout), rows, self2, h2, spc, self3,
    l0, l1, l2, l3, l4, l5, v1, v2, l4', l5'.
  do 7 (split; [done|]).
  split; [by rewrite Hl, Hs3|].
  rewrite Ha, Hs3. cbn [has_altgr with_layers].
  split.
  { destruct (has_altgr self2) eqn:Ha2'; [done|].
    destruct Halt as [-> ->]. do 2 (split; [done|]).
    destruct Hnoalt as [H4 H5]; [done|].
    cbn in H4, H5. by simplify_eq. }
  split.
  { intros Hf. destruct (Hfull Hf) as [H2' H3']. cbn in H2', H3'.
    by simplify_eq. }
  split; [by rewrite Hm', Hs3|].
  split; [by rewrite Hd, Hs3|].
  split; [done|].
  split; [by rewrite Ho, Hd|].
  split; [by rewrite Hx, <- Hs3|].
  split; [done|]. by rewrite Hd, Hs3.
Qed.

End init_result.

Lemma dict_in_keys {V} (d : dict V) (k : str) :
  dict_in k d = bool_decide (k ∈ dict_keys d).
Proof.
  unfold dict_in. destruct (dict_get d k) eqn:Hk.
  - symmetry. apply bool_decide_eq_true.
    apply dict_get_Some_elem in Hk. apply list_elem_of_fmap.
    by eexists (_, _).
  - symmetry. apply bool_decide_eq_false. by apply dict_get_None_keys.
Qed.

Section dk_index.
Variable DEAD_KEYS : list loc.
Variable h0 : heap.
Hypothesis catalog_allocated : Forall (λ c, c < length h0) DEAD_KEYS.

Lemma init_dk_index_result self h :
  h0 `prefix_of` h →
  wp (init_dk_index DEAD_KEYS self)
     (λ self' _,
        dk_index self'
        = dk_index self
          ++ filter (λ id, id ∈ dict_keys (dead_keys self))
               ((λ c, dk_char (deref h0 c)) <$> DEAD_KEYS))
     (λ _ _, False) h.
Proof.
  intros Hpre. unfold init_dk_index.
  eapply wp_mono; [| |apply (wp_for_each _ DEAD_KEYS
    (λ done self' h',
       h' = h ∧
       self' = with_dk_index
                 (dk_index self
                  ++ filter (λ id, id ∈ dict_keys (dead_keys self))
                       ((λ c, dk_char (deref h0 c)) <$> done)) self)
    (λ _ _, False))].
  - by intros self' h' [_ ->].
  - done.
  - intros done c todo self1 h1 Hsplit [-> ->].
    assert (c < length h0) as Hc.
    { rewrite Forall_forall in catalog_allocated.
      apply catalog_allocated. rewrite Hsplit.
      apply elem_of_app. right. by left. }
    apply wp_bind, wp_load. rewrite (deref_prefix h0 h c) by done.
    cbn [dead_keys with_dk_index]. rewrite dict_in_keys.
    assert (filter (λ id, id ∈ dict_keys (dead_keys self))
              ((λ c, dk_char (deref h0 c)) <$> done ++ [c])
            = filter (λ id, id ∈ dict_keys (dead_keys self))
                ((λ c, dk_char (deref h0 c)) <$> done)
              ++ (if decide (dk_char (deref h0 c)
                             ∈ dict_keys (dead_keys self))
                  then [dk_char (deref h0 c)] else [])) as ->.
    { by rewrite fmap_app, filter_app. }
    destruct (decide (dk_char (deref h0 c) ∈ dict_keys (dead_keys self)))
      as [Hin|Hnin].
    + rewrite bool_decide_eq_true_2 by done.
      apply wp_bind, wp_load, wp_ret.
      rewrite (deref_prefix h0 h c) by done.
      split; [done|]. cbn. by rewrite app_assoc.
    + rewrite bool_decide_eq_false_2 by done. apply wp_ret.
      split; [done|]. by rewrite app_nil_r.
  - split; [done|]. cbn. rewrite app_nil_r. by destruct self.
Qed.

End dk_index.

(** ** The finished layout: statements *)

Lemma demo_run_eq :
  Sample.compile demo_cfg Sample.catalog = (Ok demo_layout, demo_run.2).
Proof. vm_compute. reflexivity. Qed.

Lemma meta_loop_templates cfg keys m k :
  k ∈ [py "base"; py "full"; py "altgr"] →
  dict_get (foldl (meta_step cfg) m keys) k = dict_get m k.
Proof.
  intros Hk. revert m. induction keys as [|k0 keys IH]; intros m; [done|].
  cbn [foldl]. rewrite IH. unfold meta_step.
  destruct (dict_get cfg k0) as [v|]; [|done].
  rewrite !str_eqb_decide.
  destruct (decide (k0 = py "base")) as [->|Hb]; [done|].
  destruct (decide (k0 = py "full")) as [->|Hf]; [done|].
  destruct (decide (k0 = py "altgr")) as [->|Ha]; [done|].
  destruct (is_dict v); [done|]. cbn [negb andb].
  apply dict_get_set_ne. intros ->.
  repeat (apply elem_of_cons in Hk as [Hk|Hk]; [done|]).
  by apply elem_of_nil in Hk.
Qed.

Section metadata_result.
Context {cm : CaseMap}.
Variable today : str.

Lemma init_meta_result filename cfg self self1 :
  init_meta today filename cfg self = Ok self1 →
  let name := default (VStr filename) (dict_get cfg (py "name")) in
  dict_get (meta self1) (py "name") = Some name ∧
  (∃ n8, dict_get (meta self1) (py "name8") = Some (VStr n8) ∧
         dict_get (meta self1) (py "fileName") = Some (VStr (str_lower n8)) ∧
         match dict_get cfg (py "name8") with
         | Some v => v = VStr n8
         | None => ∃ s, name = VStr s ∧ n8 = take 8 s
         end) ∧
  dict_get (meta self1) (py "lastChange") = Some (VStr today) ∧
  (∀ k, k ∈ [py "base"; py "full"; py "altgr"] →
        dict_get (meta self1) k = dict_get (meta self) k) ∧
  (∀ k, k ∉ [py "base"; py "full"; py "altgr"; py "name"; py "name8";
             py "fileName"; py "lastChange"] →
        dict_get (meta self1) k
        = match declared cfg k with
          | Some v => Some v
          | None => dict_get (meta self) k
          end).
Proof.
  intros Hinit. cbv zeta.
  set (name := default (VStr filename) (dict_get cfg (py "name"))).
  unfold init_meta in Hinit. fold name in Hinit.
  apply bind_Ok in Hinit as (name8 & Hname8 & Hinit).
  apply bind_Ok in Hinit as (n8' & Hn8 & Hinit).
  apply bind_Ok in Hinit as (file_name & Hfile & Hinit).
  cbv [mret result_ret] in Hinit. simplify_eq. cbn [meta with_meta].
  change (foldl _ (meta self) (dict_keys cfg))
    with (foldl (meta_step cfg) (meta self) (dict_keys cfg)) in *.
  unfold dict_item in Hn8. rewrite dict_get_set_eq in Hn8. simplify_eq.
  split; [by rewrite !dict_get_set_ne, dict_get_set_eq by done|].
  split.
  { destruct n8' as [n8|d]; [|done]. cbn in Hfile. simplify_eq.
    exists n8.
    split; [by rewrite !dict_get_set_ne, dict_get_set_eq by done|].
    split; [by rewrite !dict_get_set_ne, dict_get_set_eq by done|].
    destruct (dict_get cfg (py "name8")) as [v|]; [by simplify_eq|].
    unfold dict_item in Hname8. rewrite dict_get_set_eq in Hname8.
    cbn in Hname8. destruct name as [s|d]; [|done].
    cbn in Hname8. simplify_eq. by exists s. }
  split; [by rewrite dict_get_set_eq|].
  split.
  - intros k Hk.
    rewrite !dict_get_set_ne, meta_loop_templates; [done|done|..];
      intros <-;
      repeat (apply elem_of_cons in Hk as [Hk|Hk]; [done|]);
      by apply elem_of_nil in Hk.
  - intros k Hk.
    rewrite !dict_get_set_ne, meta_loop_get.
    + destruct (decide (k ∈ dict_keys cfg)) as [Hin|Hnin].
      * by destruct (declared cfg k).
      * apply dict_get_None_keys in Hnin. unfold declared. by rewrite Hnin.
    + intros ->. apply Hk. by left.
    + intros ->. apply Hk. right. by left.
    + intros ->. apply Hk. do 2 right. by left.
    + intros <-. apply Hk. do 3 right. by left.
    + intros <-. apply Hk. do 4 right. by left.
    + intros <-. apply Hk. do 5 right. by left.
    + intros <-. apply Hk. do 6 right. by left.
Qed.

End metadata_result.

(** X12. The metadata of a compiled layout: the name is the descriptor's,
    or the file name; the short name is the descriptor's, or the first
    eight characters of the name; the file name is the short name in
    lowercase; the date of the last change is today's, whatever the
    descriptor says; the templates never enter the metadata; every other
    field is the descriptor's when it is a scalar, and the default of
    [CONFIG] for the author, the license and the shape otherwise. *)
Theorem init_metadata {cm : CaseMap} (DEAD_KEYS : list loc) (ODK_ID : str)
  (GEOMETRY : dict geometry) (text_to_lines : str → list str) (today : str)
  (filename : str) (cfg : dict value) (h0 h : heap) (self : KeyboardLayout) :
  init DEAD_KEYS ODK_ID GEOMETRY text_to_lines today filename cfg h0
  = (Ok self, h) →
  let name := default (VStr filename) (dict_get cfg (py "name")) in
  dict_get (meta self) (py "name") = Some name ∧
  (∃ n8, dict_get (meta self) (py "name8") = Some (VStr n8) ∧
         dict_get (meta self) (py "fileName") = Some (VStr (str_lower n8)) ∧
         match dict_get cfg (py "name8") with
         | Some v => v = VStr n8
         | None => ∃ s, name = VStr s ∧ n8 = take 8 s
         end) ∧
  dict_get (meta self) (py "lastChange") = Some (VStr today) ∧
  (∀ k, k ∈ [py "base"; py "full"; py "altgr"] →
        dict_get (meta self) k = None) ∧
  (∀ k, k ∉ [py "base"; py "full"; py "altgr"; py "name"; py "name8";
             py "fileName"; py "lastChange"] →
        dict_get (meta self) k
        = match declared cfg k with
          | Some v => Some v
          | None => dict_get CONFIG k
          end).
Proof.
  intros Hinit name.
  apply init_result in Hinit
    as (self1 & rows & self2 & h2 & spc & self3 & l0 & l1 & l2 & l3 & l4 & l5
        & v1 & v2 & l4' & l5' & Hmeta & _ & _ & _ & _ & _ & _ & _ & _ & _
        & -> & _).
  destruct (init_meta_result today filename cfg blank_layout self1 Hmeta)
    as (Hname & Hn8 & Hlast & Htpl & Hother).
  do 3 (split; [done|]). split; [|done].
  intros k Hk. rewrite (Htpl k Hk). cbn [meta blank_layout].
  repeat (apply elem_of_cons in Hk as [->|Hk]; [done|]).
  by apply elem_of_nil in Hk.
Qed.

Lemma init_metadata_witness :
  dict_get (meta demo_layout) (py "name") = Some (VStr (py "demo")) ∧
  dict_get (meta demo_layout) (py "lastChange")
  = Some (VStr (py "2024-01-01")) ∧
  dict_get (meta demo_layout) (py "base") = None.
Proof.
  destruct (init_metadata (cm := Sample.unicode) Sample.DEAD_KEYS
              Sample.ODK_ID Sample.GEOMETRY split_nl (py "2024-01-01")
              (py "layout") demo_cfg Sample.catalog demo_run.2 demo_layout
              demo_run_eq)
    as (Hname & _ & Hlast & Htpl & _).
  split; [exact Hname|]. split; [exact Hlast|]. apply Htpl. by left.
Defined.

Lemma spacebar_loop_get (d : dict str) keys m k :
  dict_get (foldl (spacebar_step d) m keys) k
  = if decide (k ∈ keys)
    then match dict_get d k with Some v => Some v | None => dict_get m k end
    else dict_get m k.
Proof.
  revert m. induction keys as [|k0 keys IH]; intros m; [done|].
  cbn [foldl]. rewrite IH. unfold spacebar_step.
  destruct (decide (k0 = k)) as [->|Hne].
  - rewrite (decide_True (P := k ∈ k :: keys)) by left.
    destruct (dict_get d k) as [v|]; [|by destruct (decide _)].
    rewrite dict_get_set_eq. by destruct (decide _).
  - assert (dict_get (match dict_get d k0 with
                      | Some v => dict_set m k0 v
                      | None => m
                      end) k = dict_get m k) as ->.
    { destruct (dict_get d k0); [by apply dict_get_set_ne|done]. }
    destruct (decide (k ∈ keys)) as [Hin|Hnin].
    + by rewrite decide_True by (by right).
    + rewrite decide_False; [done|].
      intros [?|?]%elem_of_cons; congruence.
Qed.

Lemma spacebar_table_get cfg spc k :
  spacebar_table cfg = Ok spc →
  dict_get spc k = match spacebar_override cfg k with
                   | Some v => Some v
                   | None => dict_get SPACEBAR k
                   end.
Proof.
  unfold spacebar_table, spacebar_override.
  destruct (dict_get cfg (py "spacebar")) as [[[|c s]|d]|];
    try (by intros [= <-]).
  intros [= <-]. rewrite spacebar_loop_get.
  destruct (decide (k ∈ dict_keys d)) as [Hin|Hnin]; [done|].
  apply dict_get_None_keys in Hnin. by rewrite Hnin.
Qed.

(** X13. The space bar of a compiled layout: a space on BASE; on the other
    layers the descriptor's [spacebar] field for the layer, or the default
    (a space, and an apostrophe on the one-dead-key planes); the shifted
    one-dead-key plane takes the field [shift_1dk], and without it the
    value of the plane below; the AltGr planes get a space bar only when
    the layout has AltGr planes. *)
Theorem init_spacebar_values {cm : CaseMap} (DEAD_KEYS : list loc)
  (ODK_ID : str) (GEOMETRY : dict geometry) (text_to_lines : str → list str)
  (today : str) (filename : str) (cfg : dict value) (h0 h : heap)
  (self : KeyboardLayout) :
  init DEAD_KEYS ODK_ID GEOMETRY text_to_lines today filename cfg h0
  = (Ok self, h) →
  let field k d := default d (spacebar_override cfg k) in
  glyph self Layer.BASE (py "spce") = Some (py " ") ∧
  glyph self Layer.SHIFT (py "spce") = Some (field (py "shift") (py " ")) ∧
  glyph self Layer.ODK (py "spce") = Some (field (py "1dk") (py "'")) ∧
  glyph self Layer.ODK_SHIFT (py "spce")
  = Some (field (py "shift_1dk") (field (py "1dk") (py "'"))) ∧
  if has_altgr self
  then glyph self Layer.ALTGR (py "spce")
       = Some (field (py "altgr") (py " ")) ∧
       glyph self Layer.ALTGR_SHIFT (py "spce")
       = Some (field (py "altgr_shift") (py " "))
  else glyph self Layer.ALTGR (py "spce") = None ∧
       glyph self Layer.ALTGR_SHIFT (py "spce") = None.
Proof.
  intros Hinit field.
  apply init_result in Hinit
    as (self1 & rows & self2 & h2 & spc & self3 & l0 & l1 & l2 & l3 & l4 & l5
        & v1 & v2 & l4' & l5' & _ & _ & _ & Hspc & _ & Hv1 & Hv2 & Hl & Halt
        & _).
  pose proof (spacebar_table_get cfg spc) as Hget.
  assert (∀ k v d, dict_get spc k = Some v → dict_get SPACEBAR k = Some d →
                   v = field k d) as Hfield.
  { intros k v d Hk Hd. rewrite (Hget k Hspc), Hd in Hk. unfold field.
    destruct (spacebar_override cfg k); by simplify_eq. }
  unfold glyph. rewrite Hl.
  cbn [lookup list_lookup Layer.BASE Layer.SHIFT Layer.ODK Layer.ODK_SHIFT
       Layer.ALTGR Layer.ALTGR_SHIFT mbind option_bind].
  rewrite !dict_get_set_eq.
  split; [done|].
  split; [by rewrite (Hfield (py "shift") v1 (py " "))|].
  split; [by rewrite (Hfield (py "1dk") v2 (py "'"))|].
  split.
  { f_equal. rewrite (Hfield (py "1dk") v2 (py "'")) by done.
    unfold field at 1.
    assert (dict_get spc (py "shift_1dk")
            = spacebar_override cfg (py "shift_1dk")) as ->; [|done].
    rewrite (Hget _ Hspc). by destruct (spacebar_override _ _). }
  destruct (has_altgr self).
  - destruct Halt as (v4 & v5 & Hv4 & Hv5 & -> & ->).
    rewrite !dict_get_set_eq.
    by rewrite (Hfield (py "altgr") v4 (py " ")),
      (Hfield (py "altgr_shift") v5 (py " ")).
  - by destruct Halt as (-> & -> & -> & ->).
Qed.

Lemma init_spacebar_values_witness :
  glyph demo_layout Layer.ODK (py "spce") = Some (py "'") ∧
  glyph demo_layout Layer.ODK_SHIFT (py "spce") = Some [0xb4%N] ∧
  glyph demo_layout Layer.ALTGR (py "spce") = None.
Proof.
  destruct (init_spacebar_values (cm := Sample.unicode) Sample.DEAD_KEYS
              Sample.ODK_ID Sample.GEOMETRY split_nl (py "2024-01-01")
              (py "layout") demo_cfg Sample.catalog demo_run.2 demo_layout
              demo_run_eq)
    as (_ & _ & Hodk & Hodks & Halt).
  split; [exact Hodk|]. split; [exact Hodks|].
  change (has_altgr demo_layout) with false in Halt. exact (proj1 Halt).
Defined.

(** X14. The planes and the flags of a compiled layout: it has six layers;
    it has AltGr planes exactly when the descriptor has a [full] or an
    [altgr] template, and without them the two AltGr layers are empty; it
    has a one-dead-key exactly when the reserved trigger is an active dead
    key; and with a [full] template the two one-dead-key layers hold the
    space bar and nothing else. *)
Theorem init_planes {cm : CaseMap} (DEAD_KEYS : list loc) (ODK_ID : str)
  (GEOMETRY : dict geometry) (text_to_lines : str → list str) (today : str)
  (filename : str) (cfg : dict value) (h0 h : heap) (self : KeyboardLayout) :
  init DEAD_KEYS ODK_ID GEOMETRY text_to_lines today filename cfg h0
  = (Ok self, h) →
  length (layers self) = 6 ∧
  has_altgr self = (dict_in (py "full") cfg || dict_in (py "altgr") cfg) ∧
  has_1dk self = dict_in ODK_ID (dead_keys self) ∧
  (has_altgr self = false →
   layer_items self Layer.ALTGR = [] ∧
   layer_items self Layer.ALTGR_SHIFT = []) ∧
  (dict_in (py "full") cfg = true →
   layer_keys self Layer.ODK = [py "spce"] ∧
   layer_keys self Layer.ODK_SHIFT = [py "spce"]).
Proof.
  intros Hinit.
  apply init_result in Hinit
    as (self1 & rows & self2 & h2 & spc & self3 & l0 & l1 & l2 & l3 & l4 & l5
        & v1 & v2 & l4' & l5' & _ & _ & _ & _ & _ & _ & _ & Hl & Halt
        & Hfull & _ & _ & Ha & Ho & _).
  unfold layer_items, layer_keys. rewrite Hl.
  do 3 (split; [done|]). split.
  - intros Hnone. rewrite Hnone in Halt.
    by destruct Halt as (-> & -> & -> & ->).
  - intros Hf. by destruct (Hfull Hf) as [-> ->].
Qed.

Lemma init_planes_witness :
  length (layers demo_layout) = 6 ∧
  has_altgr demo_layout = false ∧
  layer_items demo_layout Layer.ALTGR = [].
Proof.
  destruct (init_planes (cm := Sample.unicode) Sample.DEAD_KEYS
              Sample.ODK_ID Sample.GEOMETRY split_nl (py "2024-01-01")
              (py "layout") demo_cfg Sample.catalog demo_run.2 demo_layout
              demo_run_eq)
    as (Hlen & Ha & _ & Hnone & _).
  split; [exact Hlen|]. split; [reflexivity|].
  apply Hnone. reflexivity.
Defined.

(** X15. A descriptor needs a template: without a [full] and without a
    [base] field the compilation never returns a layout, and when the
    metadata and the shape are in order it raises [KeyError] for "base",
    before any dead key has been copied. *)
Theorem init_needs_template {cm : CaseMap} (DEAD_KEYS : list loc)
  (ODK_ID : str) (GEOMETRY : dict geometry) (text_to_lines : str → list str)
  (today : str) (filename : str) (cfg : dict value) (h0 : heap) :
  dict_in (py "full") cfg = false → dict_in (py "base") cfg = false →
  (∀ self h,
     init DEAD_KEYS ODK_ID GEOMETRY text_to_lines today filename cfg h0
     ≠ (Ok self, h)) ∧
  (∀ self1 rows,
     init_meta today filename cfg blank_layout = Ok self1 →
     geometry_rows GEOMETRY self1 = Ok rows →
     init DEAD_KEYS ODK_ID GEOMETRY text_to_lines today filename cfg h0
     = (Raise (KeyError (py "base")), h0)).
Proof.
  intros Hfull Hbase.
  assert (∀ rows self1,
    init_layers DEAD_KEYS text_to_lines cfg rows self1 h0
    = (Raise (KeyError (py "base")), h0)) as Hlayers.
  { intros rows self1. unfold init_layers. rewrite Hfull.
    unfold dict_in in Hbase. unfold dict_item.
    by destruct (dict_get cfg (py "base")). }
  split.
  - intros self h Hinit.
    apply init_steps in Hinit
      as (self1 & rows & self2 & h2 & spc & self3 & ix & _ & _ & Hl & _).
    by rewrite Hlayers in Hl.
  - intros self1 rows Hmeta Hrows. unfold init.
    unfold mbind at 1, M_bind, lift. rewrite Hmeta.
    unfold mbind at 1, M_bind. rewrite Hrows.
    unfold mbind at 1, M_bind. by rewrite Hlayers.
Qed.

Lemma init_needs_template_witness :
  Sample.compile [(py "name", VStr (py "empty"))] Sample.catalog
  ≠ (Ok demo_layout, Sample.catalog).
Proof.
  apply (init_needs_template (cm := Sample.unicode) Sample.DEAD_KEYS
           Sample.ODK_ID Sample.GEOMETRY split_nl (py "2024-01-01")
           (py "layout") [(py "name", VStr (py "empty"))] Sample.catalog);
    reflexivity.
Defined.

Lemma registered_blank DEAD_KEYS h0 m :
  registered DEAD_KEYS h0 (with_meta m blank_layout).
Proof.
  intros n k v Hg. unfold glyph in Hg. cbn [layers with_meta blank_layout] in Hg.
  by destruct n as [|[|[|[|[|[|n]]]]]].
Qed.

Section after_layers.
Context {cm : CaseMap}.
Variable DEAD_KEYS : list loc.
Variable ODK_ID : str.
Variable GEOMETRY : dict geometry.
Variable text_to_lines : str → list str.
Variable today : str.
Variable h0 : heap.
Hypothesis catalog_allocated : Forall (λ c, c < length h0) DEAD_KEYS.

Lemma init_layers_blank_registered filename cfg self1 rows self2 h2 :
  init_meta today filename cfg blank_layout = Ok self1 →
  init_layers DEAD_KEYS text_to_lines cfg rows self1 h0 = (Ok self2, h2) →
  h0 `prefix_of` h2 ∧ registered DEAD_KEYS h0 self2.
Proof.
  intros Hmeta Hlayers.
  destruct (init_meta_with _ _ _ _ _ Hmeta) as [m ->].
  destruct (wp_run _ _ _ _
    (init_layers_registered DEAD_KEYS text_to_lines h0 catalog_allocated
       cfg rows (with_meta m blank_layout) h0 (reflexivity _)
       (registered_blank DEAD_KEYS h0 m))) as [Hok _].
  by eapply Hok.
Qed.

End after_layers.

(** X16. The index of the dead keys of a compiled layout lists the
    triggers of the active dead keys, in the order of the catalog: it is
    the list of the catalog's triggers without those that are not active,
    and a trigger is in the index exactly when it is a key of
    [self.dead_keys]. *)
Theorem init_dk_index_order {cm : CaseMap} (DEAD_KEYS : list loc)
  (ODK_ID : str) (GEOMETRY : dict geometry) (text_to_lines : str → list str)
  (today : str) (filename : str) (cfg : dict value) (h0 h : heap)
  (self : KeyboardLayout) :
  Forall (λ c, c < length h0) DEAD_KEYS →
  init DEAD_KEYS ODK_ID GEOMETRY text_to_lines today filename cfg h0
  = (Ok self, h) →
  dk_index self
  = filter (λ id, id ∈ dict_keys (dead_keys self))
      ((λ c, dk_char (deref h0 c)) <$> DEAD_KEYS) ∧
  ∀ id, id ∈ dk_index self ↔ id ∈ dict_keys (dead_keys self).
Proof.
  intros Halloc Hinit.
  pose proof (init_resolved DEAD_KEYS ODK_ID GEOMETRY text_to_lines today
                filename cfg h0 self h Hinit) as Hres.
  apply init_result in Hinit
    as (self1 & rows & self2 & h2 & spc & self3 & l0 & l1 & l2 & l3 & l4 & l5
        & v1 & v2 & l4' & l5' & Hmeta & _ & Hlayers & _ & _ & _ & _ & _ & _
        & _ & _ & _ & _ & _ & Hix & Hnil & Hdk).
  destruct (init_layers_blank_registered DEAD_KEYS text_to_lines today h0
              Halloc filename cfg self1 rows self2 h2 Hmeta Hlayers)
    as [Hpre _].
  destruct (wp_run _ _ _ _
    (init_dk_index_result DEAD_KEYS h0 Halloc self3 h2 Hpre)) as [Hok _].
  specialize (Hok _ _ Hix). cbn [dk_index with_dk_index] in Hok.
  rewrite Hnil, Hdk in Hok. cbn [app] in Hok.
  split; [exact Hok|].
  intros id. rewrite Hok, list_elem_of_filter. split; [by intros [? _]|].
  intros Hin. split; [done|].
  apply list_elem_of_fmap in Hin as ([id' l] & -> & Hin).
  destruct Hres as (_ & _ & _ & _ & _ & _ & _ & v & _ & _ & Hdead).
  destruct (Hdead _ _ Hin) as (_ & c & Hc & Hcopy).
  rewrite Forall_forall in Halloc.
  destruct (Hcopy (Halloc c Hc)) as [<- _].
  apply list_elem_of_fmap. by exists c.
Qed.

Lemma init_dk_index_order_witness :
  dk_index demo_layout
  = filter (λ id, id ∈ dict_keys (dead_keys demo_layout))
      ((λ c, dk_char (deref Sample.catalog c)) <$> Sample.DEAD_KEYS).
Proof.
  apply (init_dk_index_order (cm := Sample.unicode) Sample.DEAD_KEYS
           Sample.ODK_ID Sample.GEOMETRY split_nl (py "2024-01-01")
           (py "layout") demo_cfg Sample.catalog demo_run.2 demo_layout).
  - apply sample_catalog_valid.
  - exact demo_run_eq.
Defined.

(** X10. The dead keys of a compiled layout are complete: whenever a key
    other than the space bar holds, in any layer, the trigger of an entry
    of the catalog, that trigger is an active dead key. *)
Theorem init_dead_keys_active {cm : CaseMap} (DEAD_KEYS : list loc)
  (ODK_ID : str) (GEOMETRY : dict geometry) (text_to_lines : str → list str)
  (today : str) (filename : str) (cfg : dict value) (h0 h : heap)
  (self : KeyboardLayout) (n : nat) (key v : str) :
  Forall (λ c, c < length h0) DEAD_KEYS →
  init DEAD_KEYS ODK_ID GEOMETRY text_to_lines today filename cfg h0
  = (Ok self, h) →
  key ≠ py "spce" → glyph self n key = Some v → trigger DEAD_KEYS h0 v →
  is_Some (dict_get (dead_keys self) v).
Proof.
  intros Halloc Hinit Hkey Hg Htr.
  apply init_result in Hinit
    as (self1 & rows & self2 & h2 & spc & self3 & l0 & l1 & l2 & l3 & l4 & l5
        & v1 & v2 & l4' & l5' & Hmeta & _ & Hlayers & _ & Hl2 & _ & _ & Hl
        & Halt & _ & _ & Hdk & _).
  destruct (init_layers_blank_registered DEAD_KEYS text_to_lines today h0
              Halloc filename cfg self1 rows self2 h2 Hmeta Hlayers)
    as [_ Hreg].
  rewrite Hdk. apply (Hreg n key v); [|done].
  unfold glyph in *. rewrite Hl in Hg. rewrite Hl2.
  destruct n as [|[|[|[|[|[|n]]]]]];
    cbn [lookup list_lookup mbind option_bind] in *;
    rewrite ?dict_get_set_ne in Hg by done; try done.
  - destruct (has_altgr self).
    + destruct Halt as (v4 & v5 & _ & _ & -> & _).
      by rewrite dict_get_set_ne in Hg by done.
    + by destruct Halt as (-> & _).
  - destruct (has_altgr self).
    + destruct Halt as (v4 & v5 & _ & _ & _ & ->).
      by rewrite dict_get_set_ne in Hg by done.
    + by destruct Halt as (_ & -> & _).
Qed.

Lemma init_dead_keys_active_witness :
  is_Some (dict_get (dead_keys demo_layout) (py "**")).
Proof.
  apply (init_dead_keys_active (cm := Sample.unicode) Sample.DEAD_KEYS
           Sample.ODK_ID Sample.GEOMETRY split_nl (py "2024-01-01")
           (py "layout") demo_cfg Sample.catalog demo_run.2 demo_layout
           Layer.BASE (py "ae03") (py "**")).
  - apply sample_catalog_valid.
  - exact demo_run_eq.
  - discriminate.
  - reflexivity.
  - exists 0. split; [by left|reflexivity].
Defined.

(** ** Pruning a dead key whose two sequences differ in length *)

Lemma layer_has_char_total self c n :
  n < length (layers self) → layer_has_char self [c] n = Ok (occurs self n c).
Proof.
  intros Hn. destruct (lookup_lt_is_Some_2 _ _ Hn) as [d Hd].
  destruct (layer_has_char self [c] n) as [r|e] eqn:Hr.
  - by apply layer_has_char_inv in Hr as ->.
  - unfold layer_has_char, get_layer in Hr. by rewrite Hd in Hr.
Qed.

Lemma prune_step_raises self base alt used i e :
  prune_step self base alt used i = Raise e → e = IndexError.
Proof.
  unfold prune_step. intros Hs.
  assert (Hlayer : ∀ c n e', layer_has_char self c n = Raise e' →
                             e' = IndexError).
  { intros c n e'. unfold layer_has_char, get_layer.
    destruct (layers self !! n); [done|]. by intros [= <-]. }
  assert (Hkeep : ∀ e',
    (b ← py_index base (Z.of_nat i); a ← py_index alt (Z.of_nat i);
     mret (used.1 ++ [b], used.2 ++ [a])) = Raise e' → e' = IndexError).
  { intros e' Hk.
    apply bind_Raise in Hk as [Hk|(b & _ & Hk)];
      [by apply py_index_raises in Hk|].
    apply bind_Raise in Hk as [Hk|(a & _ & Hk)];
      [by apply py_index_raises in Hk|done]. }
  apply bind_Raise in Hs as [Hs|(b & _ & Hs)];
    [by apply py_index_raises in Hs|].
  apply bind_Raise in Hs as [Hs|(in_base & _ & Hs)]; [by eapply Hlayer|].
  destruct in_base; [by apply Hkeep|].
  apply bind_Raise in Hs as [Hs|(in_shift & _ & Hs)]; [by eapply Hlayer|].
  destruct in_shift; [by apply Hkeep|done].
Qed.

Lemma prune_step_total self base alt used i b :
  2 ≤ length (layers self) → base !! i = Some b →
  (reachable self b = true → i < length alt) →
  ∃ used', prune_step self base alt used i = Ok used'.
Proof.
  intros Hlen Hb Halt. unfold prune_step.
  rewrite (py_index_nat base i b Hb). cbn [mbind result_bind].
  rewrite !layer_has_char_total by (unfold Layer.BASE, Layer.SHIFT; lia).
  cbn [mbind result_bind]. unfold reachable in Halt.
  assert (Hkeep : occurs self Layer.BASE b || occurs self Layer.SHIFT b = true
    → ∃ used', (b0 ← Ok b; a ← py_index alt (Z.of_nat i);
                mret (used.1 ++ [b0], used.2 ++ [a])) = Ok used').
  { intros Hr. destruct (lookup_lt_is_Some_2 alt i (Halt Hr)) as [a Ha].
    cbn [mbind result_bind]. rewrite (py_index_nat alt i a Ha).
    by eexists. }
  destruct (occurs self Layer.BASE b); [by apply Hkeep|].
  destruct (occurs self Layer.SHIFT b); [by apply Hkeep|by eexists].
Qed.

Lemma prune_loop_total self base alt ixs used :
  2 ≤ length (layers self) →
  (∀ i, i ∈ ixs → ∃ b, base !! i = Some b ∧
                     (reachable self b = true → i < length alt)) →
  ∃ used', for_each_r (prune_step self base alt) ixs used = Ok used'.
Proof.
  intros Hlen. revert used.
  induction ixs as [|i ixs IH]; intros used His; [by eexists|].
  destruct (His i) as (b & Hb & Halt); [by left|].
  destruct (prune_step_total self base alt used i b Hlen Hb Halt)
    as [used1 Hstep].
  cbn [for_each_r]. rewrite Hstep. cbn [mbind result_bind].
  apply IH. intros i' Hi'. apply His. by right.
Qed.

Lemma prune_loop_reads self base alt ixs used used' :
  for_each_r (prune_step self base alt) ixs used = Ok used' →
  ∀ i b, i ∈ ixs → base !! i = Some b → reachable self b = true →
         i < length alt.
Proof.
  revert used. induction ixs as [|i0 ixs IH]; intros used Hloop i b Hi Hb Hr;
    [by apply elem_of_nil in Hi|].
  cbn [for_each_r] in Hloop.
  apply bind_Ok in Hloop as (used1 & Hstep & Hloop).
  apply elem_of_cons in Hi as [->|Hi]; [|by eapply IH].
  apply prune_step_inv in Hstep as (b' & Hb' & Hstep).
  assert (b' = b) as -> by congruence. rewrite Hr in Hstep.
  destruct Hstep as (a & Ha & _). by apply lookup_lt_Some in Ha.
Qed.

(** X17. Pruning a dead key whose [alt] is not as long as its [base]: on a
    layout with its BASE and SHIFT layers, the pruning of an active dead key
    returns, with the pairs of reachable base characters kept, when every
    reachable character of [base] has a character at the same index of
    [alt]; it raises [IndexError], and leaves the dead key as it was, when
    some reachable character of [base] has none. *)
Theorem prune_dead_key_alt_length (self : KeyboardLayout) (id : str)
  (l : loc) (h : heap) :
  dict_get (dead_keys self) id = Some l → 2 ≤ length (layers self) →
  let d := deref h l in
  ((∀ i b, dk_base d !! i = Some b → reachable self b = true →
           i < length (dk_alt d)) →
   prune_dead_key self tt id h
   = (Ok tt, alter (set_alt (pruned_pairs self d).*2) l
               (alter (set_base (pruned_pairs self d).*1) l h))) ∧
  ((∃ i b, dk_base d !! i = Some b ∧ reachable self b = true ∧
           length (dk_alt d) ≤ i) →
   prune_dead_key self tt id h = (Raise IndexError, h)).
Proof.
  intros Hl Hlen d.
  pose proof (prune_dead_key_spec self id l h Hl) as Hwp. unfold wp in Hwp.
  assert (Hrun : prune_dead_key self tt id h
    = match for_each_r (prune_step self (dk_base d) (dk_alt d))
              (seq 0 (length (dk_base d))) ([], []) with
      | Ok used => (Ok tt, alter (set_alt used.2) l
                             (alter (set_base used.1) l h))
      | Raise e => (Raise e, h)
      end).
  { unfold prune_dead_key, dict_item. rewrite Hl.
    unfold mbind, M_bind, lift, load, store. fold d.
    by destruct (for_each_r _ _ _). }
  split.
  - intros Hall.
    destruct (prune_loop_total self (dk_base d) (dk_alt d)
                (seq 0 (length (dk_base d))) ([], []) Hlen) as [used Hloop].
    { intros i Hi. apply elem_of_seq in Hi as [_ Hi].
      destruct (lookup_lt_is_Some_2 (dk_base d) i) as [b Hb]; [lia|].
      exists b. split; [done|]. by apply Hall. }
    rewrite Hrun, Hloop in Hwp. rewrite Hrun, Hloop. by rewrite Hwp.
  - intros (i & b & Hb & Hr & Hshort). rewrite Hrun.
    destruct (for_each_r _ _ _) as [used|e] eqn:Hloop.
    + pose proof (prune_loop_reads _ _ _ _ _ _ Hloop i b) as Hlt.
      apply lookup_lt_Some in Hb as Hi.
      specialize (Hlt ltac:(apply elem_of_seq; lia) Hb Hr). lia.
    + f_equal. f_equal. revert Hloop.
      apply (for_each_r_raises _ _ (λ e, e = IndexError)).
      intros s x e' _. apply prune_step_raises.
Qed.

Lemma prune_dead_key_alt_length_witness :
  prune_dead_key
    (with_dead_keys [(py "*x", 0)]
       (with_layers [[(py "ae01", py "b")]; []; []; []; []; []] blank_layout))
    tt (py "*x")
    [ {| dk_char := py "*x"; dk_name := py "short"; dk_base := py "ab";
         dk_alt := py "A"; dk_alt_space := None; dk_alt_self := None |} ]
  = (Raise IndexError,
     [ {| dk_char := py "*x"; dk_name := py "short"; dk_base := py "ab";
          dk_alt := py "A"; dk_alt_space := None; dk_alt_self := None |} ]).
Proof.
  apply (prune_dead_key_alt_length
           (with_dead_keys [(py "*x", 0)]
              (with_layers [[(py "ae01", py "b")]; []; []; []; []; []]
                 blank_layout))
           (py "*x") 0).
  - reflexivity.
  - simpl. lia.
  - exists 1, 98%N. split; [reflexivity|]. split; [reflexivity|].
    simpl. lia.
Defined.

(** ** The views *)

(** X18. The [geometry] property reads back what its setter stored: with
    case tables that leave the three names as they are, after an assignment
    of any value the property is one of ANSI, ISO and ERGO: the value in
    uppercase when that is one of the three, and ISO otherwise; the
    assignment changes nothing else. *)
Theorem set_geometry_reads_back {cm : CaseMap} (self : KeyboardLayout)
  (value : str) :
  (∀ s, s ∈ [py "ANSI"; py "ISO"; py "ERGO"] → str_upper s = s) →
  ∃ shape,
    shape ∈ [py "ANSI"; py "ISO"; py "ERGO"] ∧
    geometry_name (set_geometry self value) = Ok shape ∧
    (str_upper value ∈ [py "ANSI"; py "ISO"; py "ERGO"] →
     shape = str_upper value) ∧
    (str_upper value ∉ [py "ANSI"; py "ISO"; py "ERGO"] →
     shape = py "ISO") ∧
    layers (set_geometry self value) = layers self ∧
    dead_keys (set_geometry self value) = dead_keys self ∧
    ∀ k, k ≠ py "geometry" →
         dict_get (meta (set_geometry self value)) k = dict_get (meta self) k.
Proof.
  intros Hup. unfold set_geometry, geometry_name, dict_item.
  cbn [meta with_meta layers dead_keys]. rewrite dict_get_set_eq.
  cbn [mbind result_bind].
  destruct (decide (str_upper value ∈ [py "ANSI"; py "ISO"; py "ERGO"]))
    as [Hin|Hnin].
  - rewrite bool_decide_eq_true_2 by done.
    exists (str_upper value). split; [done|].
    split; [by rewrite Hup|]. do 4 (split; [done|]).
    intros k Hk. by apply dict_get_set_ne.
  - rewrite bool_decide_eq_false_2 by done.
    exists (py "ISO"). split; [right; by left|].
    split; [rewrite Hup; [done|right; by left]|]. do 4 (split; [done|]).
    intros k Hk. by apply dict_get_set_ne.
Qed.

Lemma set_geometry_reads_back_witness :
  ∃ shape,
    shape ∈ [py "ANSI"; py "ISO"; py "ERGO"] ∧
    geometry_name (H := Sample.unicode)
      (set_geometry (H := Sample.unicode) blank_layout (py "ergo"))
    = Ok shape ∧
    shape = py "ERGO".
Proof.
  destruct (set_geometry_reads_back (cm := Sample.unicode) blank_layout
              (py "ergo")) as (shape & Hin & Hname & Hup & _).
  - intros s Hs.
    repeat (apply elem_of_cons in Hs as [->|Hs]; [reflexivity|]).
    by apply elem_of_nil in Hs.
  - exists shape. split; [exact Hin|]. split; [exact Hname|].
    apply Hup. do 2 right. by left.
Defined.

Section views_facts.
Context {cm : CaseMap}.
Variable GEOMETRY : dict geometry.

Lemma get_geometry_inv self lns canvas :
  _get_geometry GEOMETRY self lns = Ok canvas →
  ∃ name g,
    geometry_name self = Ok name ∧ dict_get GEOMETRY name = Some g ∧
    for_each_r (λ template i, _fill_template self template (rows g) i) lns
      (drop_last (split_nl (template g))) = Ok canvas.
Proof.
  unfold _get_geometry. intros Hg.
  apply bind_Ok in Hg as (name & Hname & Hg).
  apply bind_Ok in Hg as (g & Hgeo & Hg).
  rewrite Hname in Hg. cbn [mbind result_bind] in Hg.
  rewrite Hgeo in Hg. cbn [mbind result_bind] in Hg.
  exists name, g. split; [done|]. split; [|done].
  unfold dict_item in Hgeo. destruct (dict_get GEOMETRY name); by simplify_eq.
Qed.

Lemma get_geometry_Ok self lns name g canvas :
  geometry_name self = Ok name → dict_get GEOMETRY name = Some g →
  for_each_r (λ template i, _fill_template self template (rows g) i) lns
    (drop_last (split_nl (template g))) = Ok canvas →
  _get_geometry GEOMETRY self lns = Ok canvas.
Proof.
  intros Hname Hg Hloop. unfold _get_geometry, dict_item.
  rewrite Hname. cbn [mbind result_bind]. rewrite Hg.
  by cbn [mbind result_bind].
Qed.

Lemma fill_passes_total self rows lns T :
  (∀ ln, ln ∈ lns → ln + 1 < length (layers self) ∧ fits ln rows T) →
  (∀ n key v, key ∈ all_keys rows → glyph self n key = Some v → v ≠ []) →
  ∃ T', for_each_r (λ template i, _fill_template self template rows i) lns T
        = Ok T' ∧ length <$> T' = length <$> T.
Proof.
  intros Hlns Hval. revert T Hlns.
  induction lns as [|ln lns IH]; intros T Hlns; [by exists T|].
  destruct (Hlns ln) as [Hln Hfit]; [by left|].
  destruct (fill_template_total_gen self T rows ln Hfit Hln) as [T1 Hfill].
  { intros key Hin.
    split; intros _; apply shown_nonempty; intros v; by apply Hval. }
  cbn [for_each_r]. rewrite Hfill. cbn [mbind result_bind].
  pose proof (fill_template_lengths _ _ _ _ _ Hfill) as Hlen.
  destruct (IH T1) as (T' & Hloop & Hlen').
  { intros ln' Hin. destruct (Hlns ln') as [? ?]; [by right|].
    split; [done|]. by apply (fits_lengths ln' rows T). }
  exists T'. split; [done|]. congruence.
Qed.

End views_facts.

(** X19. The second pass of a view keeps the cells of the first: in the
    view of BASE and another pair of planes, on a shape whose rows leave
    room for the marker column, the glyph column and the marker column of
    every BASE cell hold what the view of BASE alone has there. *)
Theorem get_geometry_base_cells {cm : CaseMap} (GEOMETRY : dict geometry)
  (self : KeyboardLayout) (ln : nat) (canvas : list str) :
  ln ≠ Layer.BASE →
  _get_geometry GEOMETRY self [Layer.BASE; ln] = Ok canvas →
  ∃ name g first,
    geometry_name self = Ok name ∧ dict_get GEOMETRY name = Some g ∧
    _get_geometry GEOMETRY self [Layer.BASE] = Ok first ∧
    _fill_template self first (rows g) ln = Ok canvas ∧
    (margins ln (rows g) →
     ∀ j r k l c,
       rows g !! j = Some r → k < length (keys r) →
       l = 1 + 3 * j ∨ l = 2 + 3 * j →
       (Z.of_nat c = key_column Layer.BASE r k
        ∨ Z.of_nat c = key_column Layer.BASE r k - 1)%Z →
       char_at canvas l c = char_at first l c).
Proof.
  intros Hln Hview.
  apply get_geometry_inv in Hview as (name & g & Hname & Hg & Hloop).
  cbn [for_each_r] in Hloop.
  apply bind_Ok in Hloop as (first & Hfirst & Hloop).
  apply bind_Ok in Hloop as (canvas' & Hsecond & Hret).
  cbv [mret result_ret] in Hret. simplify_eq.
  exists name, g, first. do 2 (split; [done|]).
  split.
  { eapply get_geometry_Ok; [done..|]. cbn [for_each_r]. by rewrite Hfirst. }
  split; [done|].
  intros Hm j r k l c Hr Hk Hl Hc.
  apply (fill_template_spec self first (rows g) ln canvas Hm) in Hsecond
    as (_ & _ & Hrows).
  destruct (Hrows j r Hr)
    as (b0 & s0 & b & s & Hb0 & Hs0 & Hb & Hs & _ & _ & Hframe & _).
  destruct (Hframe c) as [Hbc Hsc].
  { intros (k' & Hk' & Hc'). unfold key_column, col_offset in *.
    rewrite (proj2 (Nat.eqb_neq _ _) Hln) in Hc'.
    change (Layer.BASE =? Layer.BASE) with true in Hc. lia. }
  unfold char_at. destruct Hl as [->| ->].
  - by rewrite Hs, Hs0.
  - by rewrite Hb, Hb0.
Qed.

Lemma get_geometry_base_cells_witness :
  ∃ name g first,
    geometry_name (H := Sample.unicode) demo_layout = Ok name ∧
    dict_get Sample.GEOMETRY name = Some g ∧
    _get_geometry (H := Sample.unicode) Sample.GEOMETRY demo_layout
      [Layer.BASE] = Ok first ∧
    _fill_template (H := Sample.unicode) demo_layout first (rows g) Layer.ODK
    = Ok demo_base_view.
Proof.
  destruct (get_geometry_base_cells (cm := Sample.unicode) Sample.GEOMETRY
              demo_layout Layer.ODK demo_base_view)
    as (name & g & first & H1 & H2 & H3 & H4 & _).
  - discriminate.
  - vm_compute. reflexivity.
  - by exists name, g, first.
Defined.

Lemma parsed_value_nonempty {cm : CaseMap} (v : str) :
  (∀ s, s ≠ [] → str_upper s ≠ [] ∧ str_lower s ≠ []) →
  parsed_value v → v ≠ [].
Proof.
  intros Hcase [_ [[(c & -> & _)|(c & ->)]|[(m & g & ->)|(g & ->)]]];
    try done.
  - apply Hcase, cell_nonempty.
  - by apply Hcase.
Qed.

Lemma values_ok_blank {cm : CaseMap} m :
  values_ok parsed_value (with_meta m blank_layout).
Proof.
  intros n k v Hg. unfold glyph in Hg.
  cbn [layers with_meta blank_layout] in Hg.
  by destruct n as [|[|[|[|[|[|n]]]]]].
Qed.

Section layers_values.
Context {cm : CaseMap}.
Variable DEAD_KEYS : list loc.
Variable text_to_lines : str → list str.

Lemma init_layers_values cfg rows self h :
  values_ok parsed_value self →
  wp (init_layers DEAD_KEYS text_to_lines cfg rows self)
     (λ self' _, values_ok parsed_value self') (λ _ _, True) h.
Proof.
  intros Hok. unfold init_layers.
  destruct (dict_in (py "full") cfg).
  - apply wp_bind, wp_lift. destruct (dict_item _ _) as [v|]; [|done].
    apply wp_bind, wp_lift. destruct (as_text v) as [t|]; [|done].
    apply wp_bind.
    eapply wp_mono; [| |by apply parse_template_values]; [|done].
    intros s1 h1 H1. apply wp_bind.
    eapply wp_mono; [| |by apply parse_template_values]; [|done].
    intros s2 h2 H2. by apply wp_ret.
  - apply wp_bind, wp_lift. destruct (dict_item _ _) as [v|]; [|done].
    apply wp_bind, wp_lift. destruct (as_text v) as [t|]; [|done].
    apply wp_bind.
    eapply wp_mono; [| |by apply parse_template_values]; [|done].
    intros s1 h1 H1. apply wp_bind.
    eapply wp_mono; [| |by apply parse_template_values]; [|done].
    intros s2 h2 H2.
    destruct (dict_in (py "altgr") cfg); [|by apply wp_ret].
    apply wp_bind, wp_lift. destruct (dict_item _ _) as [v'|]; [|done].
    apply wp_bind, wp_lift. destruct (as_text v') as [t'|]; [|done].
    by apply parse_template_values.
Qed.

End layers_values.

Lemma spacebar_glyph_other (ls ls' : list (dict str)) (key : str)
  l0 l1 l2 l3 l4 l5 a0 a1 a2 a3 l4' l5' n :
  ls = [l0; l1; l2; l3; l4; l5] →
  ls' = [ dict_set l0 (py "spce") a0; dict_set l1 (py "spce") a1;
          dict_set l2 (py "spce") a2; dict_set l3 (py "spce") a3; l4'; l5' ] →
  (l4' = l4 ∨ ∃ v, l4' = dict_set l4 (py "spce") v) →
  (l5' = l5 ∨ ∃ v, l5' = dict_set l5 (py "spce") v) →
  key ≠ py "spce" →
  ls' !! n ≫= (λ d, dict_get d key) = ls !! n ≫= (λ d, dict_get d key).
Proof.
  intros -> -> H4 H5 Hkey.
  destruct n as [|[|[|[|[|[|n]]]]]];
    cbn [lookup list_lookup mbind option_bind];
    rewrite ?dict_get_set_ne by done; try done.
  - destruct H4 as [->|[v ->]]; [done|]. by rewrite dict_get_set_ne.
  - destruct H5 as [->|[v ->]]; [done|]. by rewrite dict_get_set_ne.
Qed.

(** X20. The views of a compiled layout do not fail: when the shape's name
    is its own uppercase, the shape's template has the lines and the columns
    of its rows for every requested pair of planes, the space bar is not a
    key of the rows, and the case tables never give an empty string, then
    [_get_geometry] returns a canvas, with the dimensions of the shape's
    template. *)
Theorem compiled_views_total {cm : CaseMap} (DEAD_KEYS : list loc)
  (ODK_ID : str) (GEOMETRY : dict geometry) (text_to_lines : str → list str)
  (today : str) (filename : str) (cfg : dict value) (h0 h : heap)
  (self : KeyboardLayout) (g : geometry) (lns : list nat) :
  init DEAD_KEYS ODK_ID GEOMETRY text_to_lines today filename cfg h0
  = (Ok self, h) →
  str_upper (selected_shape cfg) = selected_shape cfg →
  dict_get GEOMETRY (selected_shape cfg) = Some g →
  (∀ s, s ≠ [] → str_upper s ≠ [] ∧ str_lower s ≠ []) →
  py "spce" ∉ all_keys (rows g) →
  (∀ ln, ln ∈ lns →
         ln + 1 < 6 ∧ fits ln (rows g) (drop_last (split_nl (template g)))) →
  ∃ canvas,
    _get_geometry GEOMETRY self lns = Ok canvas ∧
    length <$> canvas = length <$> drop_last (split_nl (template g)).
Proof.
  intros Hinit Hup Hg Hcase Hspce Hlns.
  pose proof (init_resolved DEAD_KEYS ODK_ID GEOMETRY text_to_lines today
                filename cfg h0 self h Hinit)
    as (_ & Hsix & _ & _ & Hshape & _).
  apply init_result in Hinit
    as (self1 & rws & self2 & h2 & spc & self3 & l0 & l1 & l2 & l3 & l4 & l5
        & v1 & v2 & l4' & l5' & Hmeta & _ & Hlayers & _ & Hl2 & _ & _ & Hl
        & Halt & _).
  destruct (init_meta_with _ _ _ _ _ Hmeta) as [m ->].
  destruct (wp_run _ _ _ _
    (init_layers_values DEAD_KEYS text_to_lines cfg rws
       (with_meta m blank_layout) h0 (values_ok_blank m))) as [Hvals _].
  specialize (Hvals _ _ Hlayers).
  destruct (fill_passes_total self (rows g) lns
              (drop_last (split_nl (template g)))) as (canvas & Hloop & Hlen).
  - intros ln Hin. rewrite Hsix. by apply Hlns.
  - intros n key v Hkey Hglyph.
    apply (parsed_value_nonempty v Hcase). apply (Hvals n key).
    unfold glyph in *. rewrite <- Hglyph. symmetry.
    eapply spacebar_glyph_other; [exact Hl2|exact Hl| | |].
    + destruct (has_altgr self).
      * destruct Halt as (v4 & v5 & _ & _ & -> & _). right. by exists v4.
      * destruct Halt as (-> & _). by left.
    + destruct (has_altgr self).
      * destruct Halt as (v4 & v5 & _ & _ & _ & ->). right. by exists v5.
      * destruct Halt as (_ & -> & _). by left.
    + by intros ->.
  - exists canvas. split; [|done].
    eapply get_geometry_Ok; [|exact Hg|exact Hloop].
    unfold geometry_name, dict_item. rewrite Hshape.
    cbn [mbind result_bind]. by rewrite Hup.
Qed.

Lemma sample_case_nonempty (s : str) :
  s ≠ [] →
  str_upper (CaseMap := Sample.unicode) s ≠ [] ∧
  str_lower (CaseMap := Sample.unicode) s ≠ [].
Proof.
  destruct s as [|c s]; [done|]. intros _.
  assert (Sample.upper_cp c ≠ []) as Hu
    by (unfold Sample.upper_cp; repeat case_match; done).
  assert (Sample.lower_cp c ≠ []) as Hl
    by (unfold Sample.lower_cp; repeat case_match; done).
  cbn [str_upper str_lower Sample.unicode mbind list_bind].
  split; intros [? _]%app_eq_nil; done.
Qed.

Lemma compiled_views_total_witness :
  ∃ canvas,
    Views.base (H := Sample.unicode) Sample.GEOMETRY demo_layout = Ok canvas ∧
    length <$> canvas
    = length <$> drop_last (split_nl (Sample.unlines Sample.iso_template)).
Proof.
  apply (compiled_views_total (cm := Sample.unicode) Sample.DEAD_KEYS
           Sample.ODK_ID Sample.GEOMETRY split_nl (py "2024-01-01")
           (py "layout") demo_cfg Sample.catalog demo_run.2 demo_layout
           {| template := Sample.unlines Sample.iso_template;
              rows := Sample.iso_rows |} [0; Layer.ODK]).
  - exact demo_run_eq.
  - vm_compute. reflexivity.
  - vm_compute. reflexivity.
  - apply sample_case_nonempty.
  - apply (bool_decide_unpack (py "spce" ∉ all_keys Sample.iso_rows)).
    vm_compute. exact I.
  - intros ln Hln. cbn [template rows].
    assert (drop_last (split_nl (Sample.unlines Sample.iso_template))
            = Sample.iso_template) as -> by (vm_compute; reflexivity).
    split; [|apply sample_fits].
    repeat (apply elem_of_cons in Hln as [->|Hln];
            [unfold Layer.BASE, Layer.ODK; lia|]).
    by apply elem_of_nil in Hln.
Defined.

(** ** Doing it twice *)

Lemma cell_column_dec ln r c : {cell_column ln r c} + {¬ cell_column ln r c}.
Proof.
  destruct (decide (Exists
    (λ k, Z.of_nat c = key_column ln r k
          ∨ Z.of_nat c = (key_column ln r k - 1)%Z)
    (seq 0 (length (keys r))))) as [Hex|Hno].
  - left. apply Exists_exists in Hex as (k & Hk & Hc).
    apply elem_of_seq in Hk. exists k. split; [lia|done].
  - right. intros (k & Hk & Hc). apply Hno, Exists_exists.
    exists k. split; [apply elem_of_seq; lia|done].
Qed.

Lemma written_idem (line line' v : str) (i : Z) (c : nat) :
  line' !! c = written line v i c → written line' v i c = line' !! c.
Proof.
  unfold written. intros Hc.
  destruct (decide (c = Z.to_nat i)); [done|].
  by destruct (decide (c = Z.to_nat (i - 1) ∧ dead_value v)).
Qed.

Lemma stored_idem (v : str) (old : option str) :
  stored v (stored v old) = stored v old.
Proof. unfold stored. by destruct (decide (v = py " ")). Qed.

(** X21. [_fill_template] is idempotent: on the input of X4 (a template
    with the lines and columns of the rows, a layout with the two layers of
    the pair and no empty value), filling the canvas it returns once more,
    from the same layout, returns the same canvas. *)
Theorem fill_template_idempotent {cm : CaseMap} (self : KeyboardLayout)
  (template : list str) (rows : list row) (ln : nat) :
  fits ln rows template → ln + 1 < length (layers self) →
  (∀ n key v, glyph self n key = Some v → v ≠ []) →
  ∃ filled,
    _fill_template self template rows ln = Ok filled ∧
    _fill_template self filled rows ln = Ok filled.
Proof.
  intros Hfit Hln Hval.
  assert (∀ key, key ∈ all_keys rows →
    (¬ (ln = Layer.BASE ∧ compressed self ln key) → shown self ln key ≠ []) ∧
    (¬ (ln ≠ Layer.BASE ∧ compressed self ln key) →
     shown self (ln + 1) key ≠ [])) as Hshown.
  { intros key _. split; intros _; apply shown_nonempty, Hval. }
  destruct (fill_template_total_gen self template rows ln Hfit Hln Hshown)
    as [T1 H1].
  pose proof (fill_template_lengths _ _ _ _ _ H1) as Hlen1.
  destruct (fill_template_total_gen self T1 rows ln
              (fits_lengths ln rows template T1 Hlen1 Hfit) Hln Hshown)
    as [T2 H2].
  exists T1. split; [done|]. rewrite H2. f_equal.
  destruct Hfit as [Hm _].
  destruct (fill_template_spec self template rows ln T1 Hm H1)
    as (_ & _ & Hrows1).
  destruct (fill_template_spec self T1 rows ln T2 Hm H2)
    as (_ & Hframe2 & Hrows2).
  apply list_eq. intros l.
  pose proof (Nat.div_mod_eq l 3) as Hdiv.
  pose proof (Nat.mod_upper_bound l 3) as Hmod.
  destruct (decide (l `mod` 3 ≠ 0 ∧ l `div` 3 < length rows)) as [[H3 Hj]|Hno];
    [|apply Hframe2; intros j Hj; lia].
  assert (l = 1 + 3 * (l `div` 3) ∨ l = 2 + 3 * (l `div` 3)) as Hl by lia.
  revert Hj Hl. generalize (l `div` 3). clear Hdiv Hmod H3.
  intros j Hj Hl.
  destruct (lookup_lt_is_Some_2 rows j Hj) as [r Hr].
  destruct (Hrows1 j r Hr)
    as (b0 & s0 & b1 & s1 & _ & _ & Hb1 & Hs1 & _ & _ & _ & Hcells1).
  destruct (Hrows2 j r Hr)
    as (b1' & s1' & b2 & s2 & Hb1' & Hs1' & Hb2 & Hs2 & Hlb & Hls
        & Hout2 & Hcells2).
  assert (b1' = b1) as -> by congruence.
  assert (s1' = s1) as -> by congruence.
  assert (b2 = b1 ∧ s2 = s1) as [-> ->].
  { split; apply list_eq; intros c.
    - destruct (cell_column_dec ln r c) as [(k & Hk & Hc)|Hnc];
        [|by apply Hout2].
      destruct (lookup_lt_is_Some_2 (keys r) k Hk) as [key Hkey].
      destruct (Hcells1 k key Hkey c Hc) as [Hb _].
      destruct (Hcells2 k key Hkey c Hc) as [-> _].
      destruct (decide (ln = Layer.BASE ∧ _)); [done|].
      by apply written_idem in Hb.
    - destruct (cell_column_dec ln r c) as [(k & Hk & Hc)|Hnc];
        [|by apply Hout2].
      destruct (lookup_lt_is_Some_2 (keys r) k Hk) as [key Hkey].
      destruct (Hcells1 k key Hkey c Hc) as [_ Hs].
      destruct (Hcells2 k key Hkey c Hc) as [_ ->].
      destruct (decide (ln ≠ Layer.BASE ∧ _)); [done|].
      by apply written_idem in Hs. }
  destruct Hl as [->| ->]; congruence.
Qed.

Lemma fill_template_idempotent_witness :
  ∃ filled,
    _fill_template (H := Sample.unicode) demo_model Sample.iso_template
      Sample.iso_rows Layer.ODK = Ok filled ∧
    _fill_template (H := Sample.unicode) demo_model filled Sample.iso_rows
      Layer.ODK = Ok filled.
Proof.
  apply (fill_template_idempotent (cm := Sample.unicode)).
  - apply sample_fits.
  - simpl. unfold Layer.ODK. lia.
  - apply demo_model_values.
Defined.

(** X22. [_parse_template] is idempotent on the layers: on a canvas with
    the lines and columns of the rows and a shape whose keys all have
    different names, parsing the same canvas into the layout the parser
    returned gives every key, in every layer, the value it already had. *)
Theorem parse_template_idempotent {cm : CaseMap} (DEAD_KEYS : list loc)
  (self : KeyboardLayout) (canvas : list str) (rows : list row) (ln : nat)
  (h h' : heap) :
  fits ln rows canvas → ln + 1 < length (layers self) →
  NoDup (all_keys rows) →
  ∃ model h1 model' h2,
    _parse_template DEAD_KEYS self canvas rows ln h = (Ok model, h1) ∧
    _parse_template DEAD_KEYS model canvas rows ln h' = (Ok model', h2) ∧
    ∀ n key, glyph model' n key = glyph model n key.
Proof.
  intros Hfit Hln Hnd.
  pose proof (parse_template_total_wp DEAD_KEYS canvas rows ln self h
                Hfit Hln) as Ht1.
  unfold wp in Ht1.
  destruct (_parse_template DEAD_KEYS self canvas rows ln h)
    as [[model|e] h1] eqn:Hp1; [|done].
  pose proof (parse_template_total_wp DEAD_KEYS canvas rows ln model h'
                Hfit ltac:(lia)) as Ht2.
  unfold wp in Ht2.
  destruct (_parse_template DEAD_KEYS model canvas rows ln h')
    as [[model'|e] h2] eqn:Hp2; [|done].
  exists model, h1, model', h2. do 2 (split; [done|]).
  destruct (wp_run _ _ _ _
    (parse_template_spec DEAD_KEYS canvas rows ln self h)) as [Hs1 _].
  destruct (Hs1 _ _ Hp1) as [_ Hreads1].
  destruct (wp_run _ _ _ _
    (parse_template_spec DEAD_KEYS canvas rows ln model h')) as [Hs2 _].
  destruct (Hs2 _ _ Hp2) as [(Hl2 & Hf2 & _) Hreads2].
  intros n key.
  destruct (decide (key ∈ all_keys rows)) as [Hin|Hnin]; [|by apply Hf2].
  destruct (decide (n = ln ∨ n = ln + 1)) as [Hn|Hn].
  2: { unfold glyph. by rewrite Hl2 by lia. }
  apply all_keys_lookup in Hin as (j & r & k & Hr & Hk).
  destruct (Hreads1 Hnd j r k key Hr Hk)
    as (base & shift & Hb & Hs & b & s & Hrb & Hrs & Hgb & Hgs).
  destruct (Hreads2 Hnd j r k key Hr Hk)
    as (base' & shift' & Hb' & Hs' & b' & s' & Hrb' & Hrs' & Hgb' & Hgs').
  assert (base' = base) as -> by congruence.
  assert (shift' = shift) as -> by congruence.
  assert (b' = b) as -> by congruence.
  assert (s' = s) as -> by congruence.
  destruct Hn as [->| ->].
  - by rewrite Hgb', Hgb, stored_idem.
  - by rewrite Hgs', Hgs, stored_idem.
Qed.

Lemma parse_template_idempotent_witness :
  ∃ model h1 model' h2,
    _parse_template (H := Sample.unicode) Sample.DEAD_KEYS blank_layout
      demo_canvas Sample.iso_rows Layer.BASE Sample.catalog = (Ok model, h1) ∧
    _parse_template (H := Sample.unicode) Sample.DEAD_KEYS model
      demo_canvas Sample.iso_rows Layer.BASE Sample.catalog = (Ok model', h2) ∧
    ∀ n key, glyph model' n key = glyph model n key.
Proof.
  apply (parse_template_idempotent (cm := Sample.unicode)).
  - apply (fits_lengths Layer.BASE Sample.iso_rows Sample.iso_template);
      [reflexivity|apply sample_fits].
  - simpl. unfold Layer.BASE. lia.
  - apply sample_keys_NoDup.
Defined.

(** ** A [full] template makes the others irrelevant *)

Lemma meta_step_template cfg k v m k0 :
  k ∈ [py "base"; py "altgr"] →
  meta_step (dict_set cfg k v) m k0 = meta_step cfg m k0.
Proof.
  intros Hk. unfold meta_step. rewrite dict_get_set.
  destruct (decide (k = k0)) as [<-|Hne]; [|done].
  assert (negb (str_eqb k (py "base")) && negb (str_eqb k (py "full"))
          && negb (str_eqb k (py "altgr")) = false) as Hskip.
  { repeat (apply elem_of_cons in Hk as [->|Hk]; [done|]).
    by apply elem_of_nil in Hk. }
  rewrite Hskip. cbn [andb]. by destruct (dict_get cfg k).
Qed.

Lemma meta_loop_template cfg k v m :
  k ∈ [py "base"; py "altgr"] →
  foldl (meta_step (dict_set cfg k v)) m (dict_keys (dict_set cfg k v))
  = foldl (meta_step cfg) m (dict_keys cfg).
Proof.
  intros Hk.
  assert (∀ keys m0, foldl (meta_step (dict_set cfg k v)) m0 keys
                     = foldl (meta_step cfg) m0 keys) as Hsame.
  { intros keys. induction keys as [|k0 keys IH]; intros m0; [done|].
    cbn [foldl]. by rewrite IH, meta_step_template. }
  rewrite Hsame, dict_keys_set.
  destruct (decide (k ∈ dict_keys cfg)); [done|].
  rewrite foldl_app. cbn [foldl].
  rewrite <- (meta_step_template cfg k v) by done.
  unfold meta_step. rewrite dict_get_set_eq.
  assert (negb (str_eqb k (py "base")) && negb (str_eqb k (py "full"))
          && negb (str_eqb k (py "altgr")) = false) as ->; [|done].
  repeat (apply elem_of_cons in Hk as [->|Hk]; [done|]).
  by apply elem_of_nil in Hk.
Qed.

Lemma M_bind_ext {A B} (m : M A) (f g : A → M B) (h : heap) :
  (∀ a h', f a h' = g a h') → (m ≫= f) h = (m ≫= g) h.
Proof.
  intros Hfg. unfold mbind, M_bind. destruct (m h) as [[a|e] h']; [|done].
  apply Hfg.
Qed.

(** X23. With a [full] template the [base] and [altgr] templates are not
    read: giving the descriptor another [base] or [altgr] field, or adding
    one, changes nothing to the compilation, neither its result nor the
    objects it allocates. *)
Theorem init_full_prevails {cm : CaseMap} (DEAD_KEYS : list loc)
  (ODK_ID : str) (GEOMETRY : dict geometry) (text_to_lines : str → list str)
  (today : str) (filename : str) (cfg : dict value) (h0 : heap)
  (k : str) (v : value) :
  dict_in (py "full") cfg = true → k ∈ [py "base"; py "altgr"] →
  init DEAD_KEYS ODK_ID GEOMETRY text_to_lines today filename
    (dict_set cfg k v) h0
  = init DEAD_KEYS ODK_ID GEOMETRY text_to_lines today filename cfg h0.
Proof.
  intros Hfull Hk.
  assert (∀ k', k' ∉ [py "base"; py "altgr"] →
                dict_get (dict_set cfg k v) k' = dict_get cfg k') as Hget.
  { intros k' Hk'. apply dict_get_set_ne. by intros ->. }
  assert (init_meta today filename (dict_set cfg k v) blank_layout
          = init_meta today filename cfg blank_layout) as Hmeta.
  { unfold init_meta.
    change (foldl _ (meta blank_layout) (dict_keys (dict_set cfg k v)))
      with (foldl (meta_step (dict_set cfg k v)) (meta blank_layout)
              (dict_keys (dict_set cfg k v))).
    rewrite meta_loop_template by done.
    rewrite !Hget; [done| |];
      intros Hin;
      repeat (apply elem_of_cons in Hin as [?|Hin]; [done|]);
      by apply elem_of_nil in Hin. }
  assert (∀ rows self,
    init_layers DEAD_KEYS text_to_lines (dict_set cfg k v) rows self
    = init_layers DEAD_KEYS text_to_lines cfg rows self) as Hlayers.
  { intros rows self. unfold init_layers, dict_in, dict_item.
    rewrite (Hget (py "full")).
    - unfold dict_in in Hfull. by destruct (dict_get cfg (py "full")).
    - intros Hin.
      repeat (apply elem_of_cons in Hin as [?|Hin]; [done|]).
      by apply elem_of_nil in Hin. }
  assert (spacebar_table (dict_set cfg k v) = spacebar_table cfg) as Hspc.
  { unfold spacebar_table. rewrite Hget; [done|]. intros Hin.
    repeat (apply elem_of_cons in Hin as [?|Hin]; [done|]).
    by apply elem_of_nil in Hin. }
  unfold init. rewrite Hmeta, Hspc.
  apply M_bind_ext. intros self1 h1.
  apply M_bind_ext. intros rows h2.
  by rewrite Hlayers.
Qed.

Lemma init_full_prevails_witness :
  init (H := Sample.unicode) Sample.DEAD_KEYS Sample.ODK_ID Sample.GEOMETRY
    split_nl (py "2024-01-01") (py "layout")
    (dict_set [(py "full", VStr (Sample.unlines demo_canvas))] (py "base")
       (VStr (py "ignored")))
    Sample.catalog
  = init (H := Sample.unicode) Sample.DEAD_KEYS Sample.ODK_ID Sample.GEOMETRY
      split_nl (py "2024-01-01") (py "layout")
      [(py "full", VStr (Sample.unlines demo_canvas))] Sample.catalog.
Proof.
  apply (init_full_prevails (cm := Sample.unicode)).
  - reflexivity.
  - by left.
Defined.

(** ** The presentation rules on a whole canvas *)

(** C7. [_parse_template] on a whole canvas, for a shape whose keys all
    have different names and a canvas that has the two lines of every row,
    long enough for its cells: the parser returns, and for every row and
    every key of it, with [base_cell] and [shift_cell] the cells read in
    the marker and glyph columns of the key on the lines [2 + 3 j] and
    [1 + 3 j], on the BASE/SHIFT pair a blank base cell makes the base
    value the lowercase of the shift cell; on any other pair a blank shift
    cell makes the shift value [upper_key] of the base value; each of the
    two values is inserted in its layer exactly when it is not blank, so a
    blank inference leaves the shift entry as it was (absent when the layer
    did not have the key); no other key and no other layer gets a value. *)
Theorem parse_template_expansion {cm : CaseMap} (DEAD_KEYS : list loc)
  (self : KeyboardLayout) (template : list str) (rows : list row) (ln : nat)
  (h : heap) :
  fits ln rows template → NoDup (all_keys rows) →
  ln + 1 < length (layers self) →
  ∃ self' h',
    _parse_template DEAD_KEYS self template rows ln h = (Ok self', h') ∧
    (∀ j r k key, rows !! j = Some r → keys r !! k = Some key →
       ∃ base shift mb gb ms gs,
         template !! (2 + 3 * j) = Some base ∧
         template !! (1 + 3 * j) = Some shift ∧
         base !! Z.to_nat (key_column ln r k - 1) = Some mb ∧
         base !! Z.to_nat (key_column ln r k) = Some gb ∧
         shift !! Z.to_nat (key_column ln r k - 1) = Some ms ∧
         shift !! Z.to_nat (key_column ln r k) = Some gs ∧
         let base_cell := cell mb gb in
         let shift_cell := cell ms gs in
         let base_key :=
           if decide (ln = Layer.BASE ∧ base_cell = py " ")
           then str_lower shift_cell else base_cell in
         let shift_key :=
           if decide (ln ≠ Layer.BASE ∧ shift_cell = py " ")
           then upper_key base_key else shift_cell in
         glyph self' ln key
         = (if decide (base_key = py " ") then glyph self ln key
            else Some base_key) ∧
         glyph self' (ln + 1) key
         = (if decide (shift_key = py " ") then glyph self (ln + 1) key
            else Some shift_key)) ∧
    (∀ n key, key ∉ all_keys rows ∨ (n ≠ ln ∧ n ≠ ln + 1) →
              glyph self' n key = glyph self n key).
Proof.
  intros Hfit Hnd Hln.
  pose proof (parse_template_total_wp DEAD_KEYS template rows ln self h
                Hfit Hln) as Htotal.
  pose proof (parse_template_spec DEAD_KEYS template rows ln self h) as Hspec.
  unfold wp in Htotal, Hspec.
  destruct (_parse_template DEAD_KEYS self template rows ln h)
    as [[self'|e] h']; [|done].
  destruct Hspec as [(Hlayers & Hkeys & _) Hreads].
  exists self', h'. split; [done|]. split.
  - intros j r k key Hr Hk.
    destruct (Hreads Hnd j r k key Hr Hk)
      as (base & shift & Hb & Hs & b & s & Hrb & Hrs & Hgb & Hgs).
    pose proof (margins_lookup ln rows j r k (proj1 Hfit) Hr) as Hi.
    apply read_cell_nonneg_inv in Hrb as (mb & gb & ? & ? & ->); [|done].
    apply read_cell_nonneg_inv in Hrs as (ms & gs & ? & ? & ->); [|done].
    exists base, shift, mb, gb, ms, gs. by do 6 (split; [done|]).
  - intros n key [Hkey|[Hn Hn']]; [by apply Hkeys|].
    unfold glyph. by rewrite Hlayers.
Qed.

Lemma parse_template_expansion_witness :
  ∃ self' h',
    _parse_template (H := Sample.unicode) Sample.DEAD_KEYS blank_layout
      demo_canvas Sample.iso_rows Layer.ODK Sample.catalog = (Ok self', h') ∧
    glyph self' Layer.ODK (py "ae01") = Some [0xe0%N] ∧
    glyph self' Layer.ODK_SHIFT (py "ae01") = Some [0xc0%N] ∧
    glyph self' Layer.ODK_SHIFT (py "ad01") = None.
Proof.
  destruct (parse_template_expansion (cm := Sample.unicode) Sample.DEAD_KEYS
              blank_layout demo_canvas Sample.iso_rows Layer.ODK
              Sample.catalog)
    as (self' & h' & Hp & Hcells & _).
  - apply (fits_lengths _ _ Sample.iso_template); [reflexivity|].
    apply sample_fits.
  - apply sample_keys_NoDup.
  - simpl. unfold Layer.ODK. lia.
  - exists self', h'. split; [exact Hp|].
    destruct (Hcells 0 {| offset := 2;
                          keys := [py "ae01"; py "ae02"; py "ae03"] |}
                0 (py "ae01") eq_refl eq_refl)
      as (base & shift & mb & gb & ms & gs & Hb & Hs & Hmb & Hgb & Hms & Hgs
          & H1 & H2).
    destruct (Hcells 1 {| offset := 5; keys := [py "ad01"; py "ad02"] |}
                0 (py "ad01") eq_refl eq_refl)
      as (base' & shift' & mb' & gb' & ms' & gs' & Hb' & Hs' & Hmb' & Hgb'
          & Hms' & Hgs' & _ & H2').
    vm_compute in Hb, Hs, Hb', Hs'. simplify_eq.
    vm_compute in Hmb, Hgb, Hms, Hgs, Hmb', Hgb', Hms', Hgs'. simplify_eq.
    change (Layer.ODK + 1) with Layer.ODK_SHIFT in H2, H2'.
    rewrite H1, H2, H2'. repeat split; vm_compute; reflexivity.
Defined.

(** C8. [_fill_template] on a whole canvas, for a template that has the two
    lines of every row, long enough for its cells, and a layout without an
    empty value: the filler returns a canvas, and for every row and every
    key of it, with [base_key] and [shift_key] the values of the key in the
    two layers of the pair (a blank for a key the layer does not have), on
    the BASE/SHIFT pair the shift cell is always written and the base cell
    is written exactly when [upper_key] of the base value differs from the
    shift value; on any other pair the base cell is always written and the
    shift cell exactly when [upper_key] of the base value differs from the
    shift value.  A written cell holds the last character of its value in
    the glyph column and, when the value is a two-character dead key, the
    marker in the column immediately to the left; a cell that is not
    written, every column that belongs to no cell and every other line are
    as the template has them. *)
Theorem fill_template_compression {cm : CaseMap} (self : KeyboardLayout)
  (template : list str) (rows : list row) (ln : nat) :
  fits ln rows template → ln + 1 < length (layers self) →
  (∀ n key v, glyph self n key = Some v → v ≠ []) →
  ∃ filled,
    _fill_template self template rows ln = Ok filled ∧
    length filled = length template ∧
    (∀ l, (∀ j, j < length rows → l ≠ 1 + 3 * j ∧ l ≠ 2 + 3 * j) →
          filled !! l = template !! l) ∧
    ∀ j r, rows !! j = Some r →
      ∃ b0 s0 b s,
        template !! (2 + 3 * j) = Some b0 ∧
        template !! (1 + 3 * j) = Some s0 ∧
        filled !! (2 + 3 * j) = Some b ∧ filled !! (1 + 3 * j) = Some s ∧
        (∀ c, ¬ cell_column ln r c → b !! c = b0 !! c ∧ s !! c = s0 !! c) ∧
        ∀ k key, keys r !! k = Some key →
          let i := key_column ln r k in
          let base_key := default (py " ") (glyph self ln key) in
          let shift_key := default (py " ") (glyph self (ln + 1) key) in
          if decide (ln = Layer.BASE) then
            cell_written s0 s i shift_key ∧
            (if decide (upper_key base_key = shift_key)
             then cell_kept b0 b i else cell_written b0 b i base_key)
          else
            cell_written b0 b i base_key ∧
            (if decide (upper_key base_key = shift_key)
             then cell_kept s0 s i else cell_written s0 s i shift_key).
Proof.
  intros Hfit Hln Hval.
  destruct (fill_template_total_gen self template rows ln Hfit Hln)
    as [filled Hf].
  { intros key _. split; intros _; apply shown_nonempty, Hval. }
  exists filled. split; [done|].
  destruct (fill_template_spec self template rows ln filled (proj1 Hfit) Hf)
    as (Hlen & Hlines & Hrows).
  do 2 (split; [done|]). intros j r Hr.
  destruct (Hrows j r Hr)
    as (b0 & s0 & b & s & Hb0 & Hs0 & Hb & Hs & _ & _ & Hcols & Hcells).
  exists b0, s0, b, s. do 5 (split; [done|]).
  intros k key Hk i base_key shift_key.
  pose proof (margins_lookup ln rows j r k (proj1 Hfit) Hr) as Hi.
  fold i in Hi.
  destruct (Hcells k key Hk (Z.to_nat i)) as [Hbg Hsg]; [unfold i; lia|].
  destruct (Hcells k key Hk (Z.to_nat (i - 1))) as [Hbm Hsm];
    [unfold i; lia|].
  fold i in Hbg, Hsg, Hbm, Hsm. unfold compressed, shown in *.
  fold base_key shift_key in Hbg, Hsg, Hbm, Hsm.
  destruct (decide (ln = Layer.BASE)) as [Hbase|Hbase].
  - rewrite (decide_False (P := ln ≠ Layer.BASE ∧ _)) in Hsg, Hsm by tauto.
    split; [by apply written_cell|].
    destruct (decide (upper_key base_key = shift_key)) as [He|He].
    + rewrite decide_True in Hbg, Hbm by done. done.
    + rewrite decide_False in Hbg, Hbm by tauto. by apply written_cell.
  - rewrite (decide_False (P := ln = Layer.BASE ∧ _)) in Hbg, Hbm by tauto.
    split; [by apply written_cell|].
    destruct (decide (upper_key base_key = shift_key)) as [He|He].
    + rewrite decide_True in Hsg, Hsm by done. done.
    + rewrite decide_False in Hsg, Hsm by tauto. by apply written_cell.
Qed.

Lemma fill_template_compression_witness :
  ∃ filled b s,
    _fill_template (H := Sample.unicode) demo_model Sample.iso_template
      Sample.iso_rows Layer.ODK = Ok filled ∧
    filled !! 2 = Some b ∧ filled !! 1 = Some s ∧
    b !! 9 = Some star ∧ b !! 10 = Some 0xb4%N ∧
    b !! 3 = Some space ∧ b !! 4 = Some 0xe0%N ∧
    s !! 3 = Some space ∧ s !! 4 = Some space.
Proof.
  destruct (fill_template_compression (cm := Sample.unicode) demo_model
              Sample.iso_template Sample.iso_rows Layer.ODK)
    as (filled & Hf & _ & _ & Hrows).
  - apply sample_fits.
  - simpl. unfold Layer.ODK. lia.
  - apply demo_model_values.
  - destruct (Hrows 0 {| offset := 2;
                         keys := [py "ae01"; py "ae02"; py "ae03"] |}
                eq_refl)
      as (b0 & s0 & b & s & Hb0 & Hs0 & Hb & Hs & _ & Hcells).
    exists filled, b, s. do 3 (split; [done|]).
    pose proof (Hcells 1 (py "ae02") eq_refl) as H2.
    pose proof (Hcells 0 (py "ae01") eq_refl) as H1.
    vm_compute in Hb0, Hs0. simplify_eq.
    cbv zeta in H1, H2.
    rewrite decide_False in H1, H2 by done.
    destruct H2 as [[H2g H2m] _]. destruct H1 as [[H1g H1m] H1s].
    rewrite decide_True in H1s by (vm_compute; reflexivity).
    destruct H1s as [H1sg H1sm].
    change (Z.to_nat (key_column _ _ 1)) with 10 in H2g.
    change (Z.to_nat (key_column _ _ 1 - 1)) with 9 in H2m.
    change (Z.to_nat (key_column _ _ 0)) with 4 in H1g, H1sg.
    change (Z.to_nat (key_column _ _ 0 - 1)) with 3 in H1m, H1sm.
    repeat split;
      [ rewrite H2m | transitivity (last [star; 0xb4%N]); [exact H2g|]
      | rewrite H1m | transitivity (last [0xe0%N]); [exact H1g|]
      | rewrite H1sm | rewrite H1sg ];
      vm_compute; reflexivity.
Defined.
